(** * Automated website auditor: the site inspection and classification pipeline

    A shallow embedding of [WebsiteAuditor] (auditor.js) and of the batch
    loop of [main] (index.js), and the properties of the specification
    that are settled against it.

    Conventions of the embedding.
    - JavaScript strings are [string], one character for one UTF-16 code
      unit. For ASCII text [length] is the JavaScript [.length],
      [substring] cuts where JavaScript cuts and [toLowerCase] only moves
      [A-Z]; the properties that count or cut the characters of a page text
      say that the text is ASCII ([Js.isAscii]).
    - The stamps of the navigation timing entry are IEEE 754 doubles
      ([float]); their differences are differences of doubles, rounded as
      the processor rounds them, and [Math.round] and the template
      literal are applied to that double. Rectangle sizes are the exact
      values of the reported doubles, as rationals [Q]; counters and
      settings are [Z] or [nat].
    - The browser, the file system, the system clock and the script engine
      are outside the program: they are a [World] of oracles, and every
      call that can reject (navigation, script evaluation, screenshots,
      file writes) may fault. Each reading of the system clock is a
      reading of its own: it is given by the effects performed so far.
    - [async] code runs sequentially; it is a state-and-exception monad
      over the browser session. *)

From Stdlib Require Import String Ascii List Bool Arith ZArith QArith Qround Lia.
From Stdlib Require Import DecimalString Floats.
Import ListNotations.

Local Open Scope string_scope.
Local Open Scope list_scope.

(** ** JavaScript string primitives *)

Module Js.

Definition lower_ascii (c : ascii) : ascii :=
  let n := nat_of_ascii c in
  if (65 <=? n)%nat && (n <=? 90)%nat then ascii_of_nat (n + 32) else c.

(** [s.toLowerCase()] *)
Fixpoint toLowerCase (s : string) : string :=
  match s with
  | EmptyString => EmptyString
  | String c s' => String (lower_ascii c) (toLowerCase s')
  end.

(** [s.startsWith(p)] *)
Definition startsWith (s p : string) : bool := String.prefix p s.

(** [s.includes(sub)] *)
Fixpoint includes (s sub : string) : bool :=
  String.prefix sub s ||
  match s with
  | EmptyString => false
  | String _ s' => includes s' sub
  end.

(** [s.substring(0, n)] *)
Definition substring0 (n : nat) (s : string) : string := String.substring 0 n s.

(** [s.replace(/\./g, '_')] *)
Fixpoint replace_dots (s : string) : string :=
  match s with
  | EmptyString => EmptyString
  | String c s' =>
      String (if Ascii.eqb c "."%char then "_"%char else c) (replace_dots s')
  end.

(** Decimal rendering of integers inside template literals. *)
Definition string_of_nat (n : nat) : string := NilEmpty.string_of_uint (Nat.to_uint n).
Definition string_of_Z (z : Z) : string := NilEmpty.string_of_int (Z.to_int z).

(** [Math.round(x)]: nearest integer, halves towards +infinity. *)
Definition Math_round (x : Q) : Z := Qfloor (x + (1 # 2)).

(** [x > y] on numbers. *)
Definition Qgtb (x y : Q) : bool := negb (Qle_bool x y).


(** *** Doubles

    [Math.round] of a double is an integer-valued double, NaN or an
    infinity; the integer is kept exactly. *)
Inductive Rounded :=
| Integer (z : Z)
| NaN
| Infinity (negative : bool).

(** [Math.round(x)] for a double [x]: the floor of the exact value of [x]
    plus one half (a double of magnitude 2^52 or more is an integer
    already). *)
Definition Math_round_double (x : float) : Rounded :=
  match Prim2SF x with
  | S754_zero _ => Integer 0
  | S754_infinity negative => Infinity negative
  | S754_nan => NaN
  | S754_finite negative m e =>
      let n := if negative then Z.neg m else Z.pos m in
      if (0 <=? e)%Z then Integer (n * 2 ^ e)
      else Integer ((2 * n + 2 ^ (- e)) / 2 ^ (1 - e))
  end.

(** [x > t] for a double [x] and an integer [t], decided on the exact
    values; NaN compares false. *)
Definition double_gtb (x : float) (t : Z) : bool :=
  match Prim2SF x with
  | S754_zero _ => (t <? 0)%Z
  | S754_infinity negative => negb negative
  | S754_nan => false
  | S754_finite negative m e =>
      let n := if negative then Z.neg m else Z.pos m in
      if (0 <=? e)%Z then (t <? n * 2 ^ e)%Z
      else (t * 2 ^ (- e) <? n)%Z
  end.

(** The decimal digits of an integer-valued double of magnitude 10^21 or
    more, as Number::toString chooses them: the shortest decimal that
    still reads back as the same double (it lies between [lo] and [hi],
    the midpoints to the neighbouring doubles, which count when the
    significand is even), the closest one to [x] among those of that
    length. [p] is the power of ten that is tried next. *)
Definition between (closed : bool) (lo hi c : Z) : bool :=
  if closed then (lo <=? c)%Z && (c <=? hi)%Z else (lo <? c)%Z && (c <? hi)%Z.

Fixpoint shortest_decimal (fuel : nat) (p x lo hi : Z) (closed : bool) : Z :=
  match fuel with
  | O => x
  | S fuel' =>
      let q := (x / 10 ^ p)%Z in
      let c1 := (q * 10 ^ p)%Z in
      let c2 := ((q + 1) * 10 ^ p)%Z in
      match between closed lo hi c1, between closed lo hi c2 with
      | true, true =>
          if (x - c1 <? c2 - x)%Z then c1
          else if (c2 - x <? x - c1)%Z then c2
          else if Z.even q then c1 else c2
      | true, false => c1
      | false, true => c2
      | false, false => shortest_decimal fuel' (p - 1)%Z x lo hi closed
      end
  end.

Fixpoint trim_zeros_rev (s : list ascii) : list ascii :=
  match s with
  | c :: s' => if Ascii.eqb c "0"%char then trim_zeros_rev s' else s
  | [] => []
  end.

Definition trim_zeros (s : string) : string :=
  string_of_list_ascii (rev (trim_zeros_rev (rev (list_ascii_of_string s)))).

(** The text of an integer-valued double in a template literal: plain
    decimal digits below 10^21, exponent notation from there on. *)
Definition integer_text (z : Z) : string :=
  if (Z.abs z <? 10 ^ 21)%Z then string_of_Z z
  else
    let x := Z.abs z in
    let e := (Z.log2 x + 1 - 53)%Z in
    let m := (x / 2 ^ e)%Z in
    let lo := (x - (if (m =? 2 ^ 52)%Z then 2 ^ (e - 2) else 2 ^ (e - 1)))%Z in
    let hi := (x + 2 ^ (e - 1))%Z in
    let d := Z.of_nat (String.length (string_of_Z x)) in
    let c := shortest_decimal 17 (d - 1)%Z x lo hi (Z.even m) in
    let exponent := (Z.of_nat (String.length (string_of_Z c)) - 1)%Z in
    (if (z <? 0)%Z then "-" else "") ++
    match trim_zeros (string_of_Z c) with
    | String d1 EmptyString => String d1 EmptyString
    | String d1 more => String d1 ("." ++ more)
    | EmptyString => EmptyString
    end ++ "e+" ++ string_of_Z exponent.

(** [`${r}`] for the result of [Math.round]. *)
Definition rounded_text (r : Rounded) : string :=
  match r with
  | Integer z => integer_text z
  | NaN => "NaN"
  | Infinity negative => if negative then "-Infinity" else "Infinity"
  end.

(** [[...new Set(xs)]]: a Set keeps the first insertion of each value, in
    insertion order. *)
Fixpoint set_insert_all (seen : list string) (xs : list string) : list string :=
  match xs with
  | [] => []
  | x :: xs' =>
      if existsb (String.eqb x) seen then set_insert_all seen xs'
      else x :: set_insert_all (x :: seen) xs'
  end.

Definition unique (xs : list string) : list string := set_insert_all [] xs.

(** [xs.slice(0, n)] for an integer [n]: a negative end counts from the
    end of the array. *)
Definition slice0 {A} (n : Z) (xs : list A) : list A :=
  if (n <? 0)%Z then firstn (Z.to_nat (Z.max (Z.of_nat (length xs) + n) 0)) xs
  else firstn (Z.to_nat n) xs.

(** [x || d] where [x] is a possibly missing numeric setting: [undefined]
    and [0] are falsy. *)
Definition or_default (x : option Z) (d : Z) : Z :=
  match x with
  | Some v => if (v =? 0)%Z then d else v
  | None => d
  end.

End Js.

(** ** The page as the probes see it *)

(** An element of the document, reduced to what the detectors read. *)
Record Element := mkElement {
  attr_class : option string;      (* class attribute *)
  attr_id : option string;         (* id attribute *)
  attr_testid : option string;     (* data-testid attribute *)
  attr_style : option string;      (* style attribute *)
  rect_width : Q;                  (* getBoundingClientRect().width *)
  rect_height : Q;                 (* getBoundingClientRect().height *)
  css_display : string;            (* getComputedStyle(element).display *)
  css_visibility : string;         (* getComputedStyle(element).visibility *)
  email_input : bool;              (* querySelector('input[type=email]') found *)
  textContent : string
}.

Inductive Attr := AClass | AId | ATestId | AStyle.

(** The two selector shapes of the popup list: [[attr*=value]] and
    [.token]. *)
Inductive Selector :=
| AttrContains (a : Attr) (v : string)
| ClassToken (c : string).

Definition attr_value (a : Attr) (e : Element) : option string :=
  match a with
  | AClass => attr_class e
  | AId => attr_id e
  | ATestId => attr_testid e
  | AStyle => attr_style e
  end.

Definition is_space (c : ascii) : bool :=
  let n := nat_of_ascii c in
  (n =? 32)%nat || (n =? 9)%nat || (n =? 10)%nat || (n =? 12)%nat || (n =? 13)%nat.

(** Tokens of a class attribute (split on ASCII whitespace). *)
Fixpoint tokens_aux (cur : string) (s : string) : list string :=
  match s with
  | EmptyString => if String.eqb cur "" then [] else [cur]
  | String c s' =>
      if is_space c
      then (if String.eqb cur "" then tokens_aux "" s' else cur :: tokens_aux "" s')
      else tokens_aux (cur ++ String c EmptyString) s'
  end.

Definition class_tokens (s : string) : list string := tokens_aux "" s.

Definition matches (sel : Selector) (e : Element) : bool :=
  match sel with
  | AttrContains a v =>
      match attr_value a e with
      | Some s => Js.includes s v
      | None => false
      end
  | ClassToken c =>
      match attr_class e with
      | Some s => existsb (String.eqb c) (class_tokens s)
      | None => false
      end
  end.

(** [document.querySelectorAll(sel)]: the matching elements in document
    order. *)
Definition querySelectorAll (sel : Selector) (doc : list Element) : list Element :=
  filter (matches sel) doc.

(** [element.className] and [element.id] reflect the attributes. *)
Definition className (e : Element) : string :=
  match attr_class e with Some s => s | None => "" end.
Definition elementId (e : Element) : string :=
  match attr_id e with Some s => s | None => "" end.

(** ** Popup scan (the callback evaluated in the page) *)

Definition popupSelectors : list Selector :=
  [ AttrContains AClass "popup";
    AttrContains AClass "modal";
    AttrContains AClass "overlay";
    AttrContains AClass "lightbox";
    AttrContains AId "popup";
    AttrContains AId "modal";
    AttrContains AClass "newsletter";
    AttrContains AClass "email-signup";
    AttrContains AClass "subscription";
    AttrContains ATestId "popup";
    AttrContains ATestId "modal";
    ClassToken "klaviyo-form";
    AttrContains AClass "klaviyo";
    ClassToken "privy-popup";
    AttrContains AStyle "position: fixed";
    AttrContains AStyle "z-index: 999";
    AttrContains AStyle "z-index: 9999" ].

(** One entry of [popupDetails]. *)
Record PopupDescriptor := mkDescriptor {
  pd_selector : Selector;
  pd_hasEmailInput : bool;
  pd_text : string;
  pd_classes : string;
  pd_id : string;
  pd_width : Z;
  pd_height : Z
}.

Definition isVisible (e : Element) : bool :=
  Js.Qgtb (rect_width e) 0 && Js.Qgtb (rect_height e) 0 &&
  negb (String.eqb (css_display e) "none") &&
  negb (String.eqb (css_visibility e) "hidden").

Definition hasSubscribeText (text : string) : bool :=
  Js.includes (Js.toLowerCase text) "subscribe" ||
  Js.includes (Js.toLowerCase text) "newsletter" ||
  Js.includes (Js.toLowerCase text) "email" ||
  Js.includes (Js.toLowerCase text) "discount" ||
  Js.includes (Js.toLowerCase text) "offer" ||
  Js.includes (Js.toLowerCase text) "save".

(** The condition of the [if] that guards [popups.push]. *)
Definition isPopupCandidate (e : Element) : bool :=
  isVisible e &&
  (email_input e || hasSubscribeText (textContent e)) &&
  (10 <? String.length (textContent e))%nat.

Definition describe (sel : Selector) (e : Element) : PopupDescriptor :=
  {| pd_selector := sel;
     pd_hasEmailInput := email_input e;
     pd_text := Js.substring0 200 (textContent e);
     pd_classes := className e;
     pd_id := elementId e;
     pd_width := Js.Math_round (rect_width e);
     pd_height := Js.Math_round (rect_height e) |}.

(** [elements.forEach(element => ...)] for one selector, pushing onto
    [popups]. *)
Definition scanElements (sel : Selector) (elements : list Element)
    (popups : list PopupDescriptor) : list PopupDescriptor :=
  fold_left
    (fun popups element =>
       if isPopupCandidate element then popups ++ [describe sel element]
       else popups)
    elements popups.

(** [popupSelectors.forEach(selector => ...)]. The selectors of the list
    are well-formed and the reads of an element do not throw, so the inner
    [try]/[catch] ("continue with other selectors if one fails") is never
    entered; a fault of the whole evaluation is the business of
    [evaluate]. *)
Definition scanPopups (doc : list Element) : list PopupDescriptor :=
  fold_left
    (fun popups selector => scanElements selector (querySelectorAll selector doc) popups)
    popupSelectors [].

(** ** Popup type *)

Inductive PopupType :=
| EmailAndDiscount     (* 'Email + Discount' *)
| EmailSignup          (* 'Email Signup' *)
| DiscountOffer        (* 'Discount Offer' *)
| GeneralPopup.        (* 'General Popup' *)

Definition discountText (p : PopupDescriptor) : bool :=
  let text := Js.toLowerCase (pd_text p) in
  Js.includes text "discount" ||
  Js.includes text "save" ||
  Js.includes text "%" ||
  Js.includes text "off".

(** The string that each type is in the source. *)
Definition popupType_text (t : option PopupType) : string :=
  match t with
  | Some EmailAndDiscount => "Email + Discount"
  | Some EmailSignup => "Email Signup"
  | Some DiscountOffer => "Discount Offer"
  | Some GeneralPopup => "General Popup"
  | None => "null"
  end.

(** The classification block of [detectPopupsAndEmailPlatforms]; [None] is
    the initial [popupType: null]. *)
Definition classifyPopups (popupElements : list PopupDescriptor) : option PopupType :=
  if (0 <? length popupElements)%nat then
    let hasEmailInput := existsb pd_hasEmailInput popupElements in
    let hasDiscountText := existsb discountText popupElements in
    if hasEmailInput && hasDiscountText then Some EmailAndDiscount
    else if hasEmailInput then Some EmailSignup
    else if hasDiscountText then Some DiscountOffer
    else Some GeneralPopup
  else None.

(** The tie-break as the specification words it, overlay by overlay: some
    single overlay with both signals, else some overlay with an email
    input, else some overlay with discount text, else a general popup;
    nothing when no overlay matched. *)
Definition popupType_per_overlay (overlays : list PopupDescriptor) : option PopupType :=
  match overlays with
  | [] => None
  | _ =>
      if existsb (fun p => pd_hasEmailInput p && discountText p) overlays
      then Some EmailAndDiscount
      else if existsb pd_hasEmailInput overlays then Some EmailSignup
      else if existsb discountText overlays then Some DiscountOffer
      else Some GeneralPopup
  end.

(** ** The loaded page *)

(** The navigation entry of the performance timeline. *)
Record NavTiming := mkNavTiming {
  fetchStart : float;
  loadEventEnd : float;
  domContentLoadedEventEnd : float
}.

(** The call sites that run inside the page and can reject. *)
Inductive Probe :=
| PShopify | PEmailPlatforms | PPopups | PEcommerce | PProductLinks
| PPageInfo | PPerformance
| PMetaDescription | PImagesWithoutAlt | PH1Count | PProtocol | PLoadTime.

Record Page := mkPage {
  location_href : string;
  location_protocol : string;
  document_title : string;
  meta_description : option string;   (* content of meta[name=description] *)
  meta_generator : option string;     (* content of meta[name=generator] *)
  h1_texts : list string;             (* textContent of the h1 elements *)
  images_without_alt : nat;           (* img:not([alt]) *)
  image_count : nat;                  (* document.images.length *)
  link_count : nat;                   (* document.links.length *)
  script_count : nat;                 (* document.scripts.length *)
  navigation_entry : option NavTiming;
  first_paint : option Q;
  performance_now : Q;
  window_props : list (string * bool); (* defined properties of window, with truthiness *)
  script_srcs : list string;          (* src of script[src] *)
  link_hrefs : list string;           (* href attribute of link[href] *)
  anchor_hrefs : list string;         (* link.href of a[href], document order *)
  body_text : option string;          (* document.body.textContent; no body: None *)
  elements : list Element;            (* document order *)
  evaluate_fault : Probe -> option string
}.

(** ** Errors, session and world *)

Inductive ErrorName := Error | TypeError | ReferenceError | TimeoutError.

Record JsError := mkError { err_name : ErrorName; message : string }.

Record Viewport := mkViewport { vp_width : Z; vp_height : Z }.

Definition viewport_eqb (a b : Viewport) : bool :=
  (vp_width a =? vp_width b)%Z && (vp_height a =? vp_height b)%Z.

(** [path.join(dir, base)], kept as its two arguments. *)
Record FilePath := mkPath { path_dir : string; path_base : string }.

Inductive Level := LLog | LError.

(** What the auditor does to the outside, in order. *)
Inductive Event :=
| EvSetViewport (v : Viewport)
| EvGoto (url : string)
| EvMkdir (dir : string)
| EvRmdir (dir : string)
| EvScreenshot (p : FilePath)
| EvWriteFile (p : FilePath)
| EvSleep (ms : Z)
| EvConsole (l : Level) (msg : string).

(** The shared browser session (one browser, one page) together with the
    timer clock (the milliseconds waited for in [setTimeout] so far) and
    the trace of effects. *)
Record Session := mkSession {
  viewport : Viewport;
  current : Page;
  clock : Z;
  trace : list Event
}.

Inductive Outcome (A : Type) :=
| Ok (a : A)
| Throw (e : JsError).
Arguments Ok {A} a.
Arguments Throw {A} e.

(** Oracles for the browser, the file system, the URL parser, the system
    clock and the script engine. A fault is [Some msg] (the call rejects
    with an error of that message).

    [now] is the system clock: the reading, in milliseconds, that a call
    of [Date.now()] or [new Date()] gets when the effects performed so far
    are those of the trace. Two readings with an effect between them are
    two values of the oracle.

    [missing_section_message] is the message of the TypeError that the
    engine raises when a property is read from a settings section that is
    [undefined] or [null]; the message names the property and whichever
    of the two the section is. *)
Record World := mkWorld {
  url_hostname : string -> option string;        (* new URL(url).hostname *)
  now : list Event -> Z;
  toISOString : Z -> string;                     (* new Date(t).toISOString() *)
  missing_section_message : string -> string;
  load : Viewport -> string -> Outcome Page;     (* page.goto(url, ...) *)
  setViewport_fault : Viewport -> option string;
  screenshot_fault : FilePath -> option string;
  mkdir_fault : string -> option string;
  rmdir_fault : string -> option string;
  writeFile_fault : FilePath -> option string
}.

(** ** Sequential [async] code: state and exceptions *)

Definition M (S A : Type) : Type := S -> Outcome A * S.

Definition ret {S A} (a : A) : M S A := fun s => (Ok a, s).

Definition bind {S A B} (m : M S A) (k : A -> M S B) : M S B :=
  fun s =>
    match m s with
    | (Ok a, s') => k a s'
    | (Throw e, s') => (Throw e, s')
    end.

Definition throw {S A} (e : JsError) : M S A := fun s => (Throw e, s).

(** [try { m } catch (e) { h e }] *)
Definition try_catch {S A} (m : M S A) (h : JsError -> M S A) : M S A :=
  fun s =>
    match m s with
    | (Ok a, s') => (Ok a, s')
    | (Throw e, s') => h e s'
    end.

Declare Scope js_scope.
Delimit Scope js_scope with js.
Notation "x <- m ;; k" := (bind m (fun x => k))
  (at level 61, m at next level, right associativity) : js_scope.
Notation "m ;; k" := (bind m (fun _ => k))
  (at level 61, right associativity) : js_scope.
Local Open Scope js_scope.

(** A function body with a local mutable object of type [L]: the object
    lives beside the session, so what was written to it before a throw is
    still there in the handler and after it. *)
Definition lift {L S A} (m : M S A) : M (L * S) A :=
  fun ls =>
    match m (snd ls) with
    | (r, s') => (r, (fst ls, s'))
    end.

Definition get_local {L S} : M (L * S) L := fun ls => (Ok (fst ls), ls).

Definition modify_local {L S} (f : L -> L) : M (L * S) unit :=
  fun ls => (Ok tt, (f (fst ls), snd ls)).

Definition with_local {L S A} (init : L) (m : M (L * S) A) : M S A :=
  fun s =>
    match m (init, s) with
    | (r, ls) => (r, snd ls)
    end.

Definition when {S} (b : bool) (m : M S unit) : M S unit :=
  if b then m else ret tt.

(** ** Primitives of the session *)

Definition emit (ev : Event) : M Session unit :=
  fun s => (Ok tt, {| viewport := viewport s; current := current s;
                      clock := clock s; trace := trace s ++ [ev] |}).

Definition console_log (msg : string) : M Session unit := emit (EvConsole LLog msg).
Definition console_error (msg : string) : M Session unit := emit (EvConsole LError msg).

(** [await new Promise(resolve => setTimeout(resolve, ms))]: the timer
    is set with the delay [ms] as it is given; a timer with a negative
    delay fires without waiting. *)
Definition sleep (ms : Z) : M Session unit :=
  fun s => (Ok tt, {| viewport := viewport s; current := current s;
                      clock := (clock s + Z.max ms 0)%Z;
                      trace := trace s ++ [EvSleep ms] |}).

Definition fault_or {S} (f : option string) (m : M S unit) : M S unit :=
  match f with
  | Some msg => throw (mkError Error msg)
  | None => m
  end.

Section WithWorld.

Variable world : World.

(** [Date.now()], and the reading behind [new Date()] *)
Definition date_now : M Session Z := fun s => (Ok (now world (trace s)), s).

(** [page.setViewport(v)] *)
Definition setViewport (v : Viewport) : M Session unit :=
  fault_or (setViewport_fault world v)
    (fun s => (Ok tt, {| viewport := v; current := current s;
                         clock := clock s; trace := trace s ++ [EvSetViewport v] |})).

(** [page.goto(url, { waitUntil: 'networkidle2', timeout: 30000 })] *)
Definition goto (url : string) : M Session unit :=
  fun s =>
    match load world (viewport s) url with
    | Ok p => (Ok tt, {| viewport := viewport s; current := p;
                         clock := clock s; trace := trace s ++ [EvGoto url] |})
    | Throw e => (Throw e, s)
    end.

(** [page.evaluate], [page.$] and [page.$$eval]: run [f] on the loaded
    page unless the call itself rejects. *)
Definition evaluate {A} (probe : Probe) (f : Page -> Outcome A) : M Session A :=
  fun s =>
    match evaluate_fault (current s) probe with
    | Some msg => (Throw (mkError Error msg), s)
    | None => (f (current s), s)
    end.

Definition screenshot (p : FilePath) : M Session unit :=
  fault_or (screenshot_fault world p) (emit (EvScreenshot p)).

Definition mkdir (dir : string) : M Session unit :=
  fault_or (mkdir_fault world dir) (emit (EvMkdir dir)).

Definition rmdir (dir : string) : M Session unit :=
  fault_or (rmdir_fault world dir) (emit (EvRmdir dir)).

Definition writeFile (p : FilePath) : M Session unit :=
  fault_or (writeFile_fault world p) (emit (EvWriteFile p)).

End WithWorld.

(** ** Settings *)

Record AuditSettings := mkAuditSettings {
  navigationTimeout : option Z;
  pageLoadDelay : option Z;
  popupDetectionDelay : option Z;
  maxProductPages : option Z;
  delayBetweenAudits : option Z
}.

Record PerformanceSettings := mkPerformanceSettings {
  slowLoadTime : option Z
}.

Record Settings := mkSettings {
  audit : option AuditSettings;
  performance : option PerformanceSettings
}.

(** [this.settings.audit?.field] *)
Definition audit_field (st : Settings) (f : AuditSettings -> option Z) : option Z :=
  match audit st with
  | Some a => f a
  | None => None
  end.

(** ** Results *)

Record PopupData := mkPopupData {
  hasPopup : bool;
  popupType : option PopupType;
  emailPlatform : option string;
  popupDetails : list PopupDescriptor;
  emailPlatformDetails : list string
}.

Record PageCapture := mkPageCapture {
  pc_name : string;
  pc_screenshot : FilePath;
  pc_title : string;
  pc_url : string;
  pc_description : string;
  pc_h1 : string;
  pc_loadTime : Q
}.

Record Metrics := mkMetrics {
  m_loadTime : Js.Rounded;
  m_domContentLoaded : Js.Rounded;
  m_firstPaint : Q;
  m_imageCount : nat;
  m_linkCount : nat;
  m_scriptCount : nat
}.

Inductive IssueType := SEO | Accessibility | Security | Performance | ErrorIssue.

Record Issue := mkIssue { issue_type : IssueType; issue : string }.

Record AuditData := mkAuditData {
  ad_url : string;
  ad_siteName : string;
  ad_timestamp : string;
  ad_pages : list PageCapture;
  ad_performance : option Metrics;     (* metrics.performance; {} is None *)
  ad_issues : list Issue;
  ad_popups : PopupData;
  ad_classification : string;
  ad_isShopify : bool;
  ad_outputDirectory : string
}.

(** The object literal of a failed audit. Properties that the literal
    does not have are [None]. *)
Record ErrorRecord := mkErrorRecord {
  er_url : string;
  er_siteName : option string;
  er_timestamp : option string;
  er_error : string;
  er_success : bool
}.

Inductive AuditResult :=
| Audited (d : AuditData)
| Failed (r : ErrorRecord).

(** [r.success !== false] in the summary of [main]. *)
Definition counts_as_success (r : AuditResult) : bool :=
  match r with
  | Audited _ => true
  | Failed r => er_success r
  end.

(** ** Lexical scope of the [catch] clause of [auditWebsite]

    [siteName], [timestamp], [tempOutputDir] and [auditData] are [const]
    declarations inside the [try] block; the bindings below are the ones
    that enclose the [catch] clause: its parameter, the parameter of the
    method, the bindings of the module, and the host globals. *)

Inductive Binding :=
| StrVal (s : string)
| ErrVal (e : JsError)
| HostObject.

Definition catch_scope (url : string) (error : JsError) : list (string * Binding) :=
  [ ("error", ErrVal error);
    ("url", StrVal url);
    ("fs", HostObject); ("path", HostObject); ("WebsiteAuditor", HostObject);
    ("require", HostObject); ("module", HostObject);
    ("console", HostObject); ("Date", HostObject); ("URL", HostObject);
    ("Math", HostObject); ("Promise", HostObject); ("setTimeout", HostObject);
    ("Array", HostObject); ("Set", HostObject); ("Object", HostObject) ].

Fixpoint lookup (x : string) (env : list (string * Binding)) : option Binding :=
  match env with
  | [] => None
  | (y, b) :: env' => if String.eqb x y then Some b else lookup x env'
  end.

(** Evaluation of an identifier: an unresolvable reference throws. *)
Definition resolve {S} (env : list (string * Binding)) (x : string) : M S Binding :=
  match lookup x env with
  | Some b => ret b
  | None => throw (mkError ReferenceError (x ++ " is not defined"))
  end.

Definition as_string (b : Binding) : string :=
  match b with
  | StrVal s => s
  | ErrVal e => message e
  | HostObject => "[object Object]"
  end.

(** ** The auditor *)

Definition defaultViewport : Viewport := mkViewport 1920 1080.
Definition mobileViewport : Viewport := mkViewport 375 667.

Definition defaultPopupData : PopupData :=
  {| hasPopup := false; popupType := None; emailPlatform := None;
     popupDetails := []; emailPlatformDetails := [] |}.

(** The callback that scans for email platforms. *)
Section EmailPlatforms.

Variable p : Page.

(** [window.name] is truthy *)
Definition win (name : string) : bool :=
  existsb (fun kv => String.eqb (fst kv) name && snd kv) (window_props p).

(** [document.querySelector('script[src*=frag]')] finds something *)
Definition script_src (frag : string) : bool :=
  existsb (fun src => Js.includes src frag) (script_srcs p).

Definition some_element (sel : Selector) : bool := existsb (matches sel) (elements p).

Definition detectEmailPlatforms : list string :=
  (if win "klaviyo" || win "_learnq" || script_src "klaviyo" then ["Klaviyo"] else []) ++
  (if win "mc4wp" || script_src "mailchimp" ||
      (some_element (AttrContains AClass "mailchimp") ||
       some_element (AttrContains AId "mailchimp"))
   then ["Mailchimp"] else []) ++
  (if win "omnisend" || script_src "omnisend" then ["Omnisend"] else []) ++
  (if win "privy" || script_src "privy" then ["Privy"] else []) ++
  (if win "ju" || script_src "justuno" then ["Justuno"] else []) ++
  (if win "om" || script_src "optinmonster" then ["OptinMonster"] else []) ++
  (if win "wisepops" || script_src "wisepops" then ["Wisepops"] else []) ++
  (if win "sumo" || script_src "sumo.com" then ["Sumo"] else []).

End EmailPlatforms.

(** The filter of [findProductPages]. *)
Definition isProductHref (href : string) : bool :=
  let url := Js.toLowerCase href in
  (Js.includes url "/products/" ||
   Js.includes url "/product/" ||
   Js.includes url "/shop/" ||
   Js.includes url "/store/") &&
  negb (Js.includes url "#") && Js.startsWith href "http".

(** The callback of [findProductPages], on the [href]s of [a[href]]. *)
Definition productLinksOf (maxPages : Z) (hrefs : list string) : list string :=
  Js.slice0 (maxPages * 2) (filter isProductHref hrefs).

(** [/\$\d+/.test(text)] *)
Definition is_digit (c : ascii) : bool :=
  let n := nat_of_ascii c in (48 <=? n)%nat && (n <=? 57)%nat.

Fixpoint dollar_digits (text : string) : bool :=
  match text with
  | EmptyString => false
  | String c rest =>
      (Ascii.eqb c "$"%char &&
       match rest with String d _ => is_digit d | EmptyString => false end)
      || dollar_digits rest
  end.

Definition type_error_undefined (prop : string) : JsError :=
  mkError TypeError ("Cannot read properties of undefined (reading '" ++ prop ++ "')").

Definition type_error_null (prop : string) : JsError :=
  mkError TypeError ("Cannot read properties of null (reading '" ++ prop ++ "')").

Section Auditor.

Variable world : World.
Variable settings : Settings.

(** *** detectPopupsAndEmailPlatforms *)

Definition set_platforms (emailPlatforms : list string) (pd : PopupData) : PopupData :=
  {| hasPopup := hasPopup pd; popupType := popupType pd;
     emailPlatform := match emailPlatforms with x :: _ => Some x | [] => None end;
     popupDetails := popupDetails pd;
     emailPlatformDetails := emailPlatforms |}.

Definition set_popups (popupElements : list PopupDescriptor) (pd : PopupData) : PopupData :=
  {| hasPopup := true; popupType := popupType pd;
     emailPlatform := emailPlatform pd;
     popupDetails := popupElements;
     emailPlatformDetails := emailPlatformDetails pd |}.

Definition set_popupType (t : option PopupType) (pd : PopupData) : PopupData :=
  {| hasPopup := hasPopup pd; popupType := t;
     emailPlatform := emailPlatform pd;
     popupDetails := popupDetails pd;
     emailPlatformDetails := emailPlatformDetails pd |}.

Definition detectPopupsAndEmailPlatforms : M Session PopupData :=
  with_local defaultPopupData
    (try_catch
       (let popupDelay := Js.or_default (audit_field settings popupDetectionDelay) 5000 in
        lift (sleep popupDelay) ;;
        emailPlatforms <-
          lift (evaluate PEmailPlatforms (fun p => Ok (detectEmailPlatforms p))) ;;
        modify_local (set_platforms emailPlatforms) ;;
        popupElements <-
          lift (evaluate PPopups (fun p => Ok (scanPopups (elements p)))) ;;
        when (0 <? length popupElements)%nat
          (modify_local (set_popups popupElements) ;;
           modify_local (set_popupType (classifyPopups popupElements))))
       (fun error =>
          lift (console_log ("Error during popup detection: " ++ message error))) ;;
     get_local).

(** *** detectShopify, detectEcommerce *)

Definition detectShopify : M Session bool :=
  try_catch
    (shopifyIndicators <-
       evaluate PShopify (fun p =>
         Ok [ script_src p "shopify";
              match meta_generator p with
              | Some c => Js.includes c "Shopify"
              | None => false
              end;
              existsb (fun kv => String.eqb (fst kv) "Shopify") (window_props p);
              existsb (fun h => Js.includes h "shopify") (link_hrefs p) ]) ;;
     ret (existsb (fun indicator => indicator) shopifyIndicators))
    (fun _ => ret false).

(** The value that the page returns is used for its truthiness only. *)
Definition detectEcommerce : M Session bool :=
  try_catch
    (evaluate PEcommerce (fun p =>
       match body_text p with
       | None => Throw (type_error_null "textContent")
       | Some t =>
           let text := Js.toLowerCase t in
           let hasAddToCart :=
             Js.includes text "add to cart" ||
             (some_element p (AttrContains AClass "add-to-cart") ||
              some_element p (AttrContains AId "add-to-cart")) in
           let hasPrice :=
             (some_element p (AttrContains AClass "price") ||
              some_element p (AttrContains AId "price")) ||
             dollar_digits text in
           let hasProduct := Js.includes text "product" || Js.includes text "shop" in
           Ok (hasAddToCart || (hasPrice && hasProduct))
       end))
    (fun _ => ret false).

(** *** findProductPages *)

Definition findProductPages : M Session (list string) :=
  try_catch
    (let maxPages := Js.or_default (audit_field settings maxProductPages) 3 in
     productLinks <-
       evaluate PProductLinks (fun p => Ok (productLinksOf maxPages (anchor_hrefs p))) ;;
     ret (Js.unique productLinks))
    (fun _ => ret []).

(** *** capturePage

    The screenshot options ([settings.screenshot]) are passed through to
    the browser and have no effect on what is modelled here. *)

Definition capturePage (pageName outputDir : string) : M Session PageCapture :=
  let screenshotPath := mkPath outputDir (pageName ++ ".png") in
  let pageLoadDelay := Js.or_default (audit_field settings pageLoadDelay) 2000 in
  sleep pageLoadDelay ;;
  screenshot world screenshotPath ;;
  pageInfo <-
    evaluate PPageInfo (fun p =>
      Ok (document_title p,
          location_href p,
          match meta_description p with Some c => c | None => "" end,
          match h1_texts p with t :: _ => t | [] => "" end,
          performance_now p)) ;;
  let '(title, href, description, h1, loadTime) := pageInfo in
  ret {| pc_name := pageName; pc_screenshot := screenshotPath;
         pc_title := title; pc_url := href; pc_description := description;
         pc_h1 := h1; pc_loadTime := loadTime |}.

(** *** getPerformanceMetrics *)

Definition getPerformanceMetrics : M Session (option Metrics) :=
  try_catch
    (metrics <-
       evaluate PPerformance (fun p =>
         match navigation_entry p with
         | None => Throw (type_error_undefined "loadEventEnd")
         | Some navigation =>
             Ok {| m_loadTime :=
                     Js.Math_round_double
                       (loadEventEnd navigation - fetchStart navigation)%float;
                   m_domContentLoaded :=
                     Js.Math_round_double
                       (domContentLoadedEventEnd navigation - fetchStart navigation)%float;
                   m_firstPaint :=
                     match first_paint p with Some t => t | None => 0 end;
                   m_imageCount := image_count p;
                   m_linkCount := link_count p;
                   m_scriptCount := script_count p |}
         end) ;;
     ret (Some metrics))
    (fun _ => ret None).

(** *** runAutomatedChecks *)

Definition push_issue (t : IssueType) (text : string) : M (list Issue * Session) unit :=
  modify_local (fun issues => issues ++ [mkIssue t text]).

Definition runAutomatedChecks : M Session (list Issue) :=
  with_local []
    (try_catch
       (hasMetaDescription <-
          lift (evaluate PMetaDescription (fun p =>
                  Ok (match meta_description p with Some _ => true | None => false end))) ;;
        when (negb hasMetaDescription) (push_issue SEO "Missing meta description") ;;
        imagesWithoutAlt <-
          lift (evaluate PImagesWithoutAlt (fun p => Ok (images_without_alt p))) ;;
        when (0 <? imagesWithoutAlt)%nat
          (push_issue Accessibility
             (Js.string_of_nat imagesWithoutAlt ++ " images missing alt text")) ;;
        h1Count <- lift (evaluate PH1Count (fun p => Ok (length (h1_texts p)))) ;;
        (if (h1Count =? 0)%nat then push_issue SEO "No H1 tag found"
         else if (1 <? h1Count)%nat then push_issue SEO "Multiple H1 tags found"
         else ret tt) ;;
        isHTTPS <-
          lift (evaluate PProtocol (fun p =>
                  Ok (String.eqb (location_protocol p) "https:"))) ;;
        when (negb isHTTPS) (push_issue Security "Site not using HTTPS") ;;
        loadTime <-
          lift (evaluate PLoadTime (fun p =>
                  match navigation_entry p with
                  | None => Throw (type_error_undefined "loadEventEnd")
                  | Some navigation =>
                      Ok (loadEventEnd navigation - fetchStart navigation)%float
                  end)) ;;
        let slowThreshold :=
          Js.or_default
            (match performance settings with Some pf => slowLoadTime pf | None => None end)
            3000 in
        when (Js.double_gtb loadTime slowThreshold)
          (push_issue Performance
             ("Slow page load time: " ++
              Js.rounded_text (Js.Math_round_double loadTime) ++ "ms")))
       (fun error =>
          push_issue ErrorIssue ("Could not complete all checks: " ++ message error)) ;;
     get_local).

(** *** generateReport: the two files; their text is not modelled. *)

Definition generateReport (auditData : AuditData) (outputDir : string) : M Session unit :=
  writeFile world (mkPath outputDir "audit_report.html") ;;
  writeFile world (mkPath outputDir "audit_data.json").

(** *** auditWebsite *)

(** [new URL(url).hostname] *)
Definition url_hostname_of (url : string) : M Session string :=
  match url_hostname world url with
  | Some h => ret h
  | None => throw (mkError TypeError "Invalid URL")
  end.

(** [new Date().toISOString()] *)
Definition iso_now : M Session string :=
  t <- date_now world ;; ret (toISOString world t).

(** [for (let i = 0; i < Math.min(3, productLinks.length); i++)]: [k] is
    the number of iterations still to run, [i] the loop variable. *)
Fixpoint productLoop (k i : nat) (productLinks : list string) (finalOutputDir : string)
    (pages : list PageCapture) : M Session (list PageCapture) :=
  match k with
  | O => ret pages
  | S k' =>
      let productUrl := nth i productLinks "" in
      console_log ("Capturing product page: " ++ productUrl) ;;
      goto world productUrl ;;
      productData <-
        capturePage ("product_" ++ Js.string_of_nat (i + 1) ++ "_desktop") finalOutputDir ;;
      productLoop k' (S i) productLinks finalOutputDir (pages ++ [productData])
  end.

Definition captureProductPages (productLinks : list string) (finalOutputDir : string)
    (pages : list PageCapture) : M Session (list PageCapture) :=
  productLoop (Nat.min 3 (length productLinks)) 0 productLinks finalOutputDir pages.

(** The [try] block. *)
Definition auditWebsite_try (url : string) : M Session AuditData :=
  setViewport world defaultViewport ;;
  hostname <- url_hostname_of url ;;
  let siteName := Js.replace_dots hostname in
  timestamp <- date_now world ;;
  let tempOutputDir :=
    ("./audits/temp_" ++ siteName ++ "_" ++ Js.string_of_Z timestamp)%string in
  mkdir world tempOutputDir ;;
  created <- iso_now ;;
  console_log "Capturing homepage..." ;;
  goto world url ;;
  isShopify <- detectShopify ;;
  console_log "Checking for popups and email platforms..." ;;
  popupData <- detectPopupsAndEmailPlatforms ;;
  let popupFolder := if hasPopup popupData then "popup_detected" else "no_popup" in
  let finalOutputDir :=
    ("./audits/" ++ popupFolder ++ "/" ++ siteName ++ "_" ++ Js.string_of_Z timestamp)%string in
  mkdir world finalOutputDir ;;
  console_log "Capturing desktop homepage..." ;;
  homepageData <- capturePage "homepage_desktop" finalOutputDir ;;
  let pages := [homepageData] in
  performanceMetrics <- getPerformanceMetrics ;;
  ecommerce <- (if isShopify then ret true else detectEcommerce) ;;
  pages <-
    (if ecommerce : bool then
       console_log "E-commerce detected, finding product pages..." ;;
       productLinks <- findProductPages ;;
       captureProductPages productLinks finalOutputDir pages
     else ret pages) ;;
  console_log "Switching to mobile view..." ;;
  setViewport world mobileViewport ;;
  goto world url ;;
  mobileData <- capturePage "homepage_mobile" finalOutputDir ;;
  let pages := pages ++ [mobileData] in
  console_log "Resetting to desktop view..." ;;
  setViewport world defaultViewport ;;
  issues <- runAutomatedChecks ;;
  let auditData :=
    {| ad_url := url; ad_siteName := siteName; ad_timestamp := created;
       ad_pages := pages; ad_performance := performanceMetrics;
       ad_issues := issues; ad_popups := popupData;
       ad_classification := popupFolder; ad_isShopify := isShopify;
       ad_outputDirectory := finalOutputDir |} in
  generateReport auditData finalOutputDir ;;
  try_catch (rmdir world tempOutputDir) (fun _ => ret tt) ;;
  console_log ("Audit complete! Results saved to: " ++ finalOutputDir) ;;
  when (hasPopup popupData)
    (console_log
       ("Popup detected: " ++ popupType_text (popupType popupData) ++ " (Platform: " ++
        match emailPlatform popupData with
        | Some name => if String.eqb name "" then "Unknown" else name
        | None => "Unknown"
        end ++ ")")) ;;
  ret auditData.

(** The [catch] clause. Its identifiers are resolved in [catch_scope]. *)
Definition auditWebsite_catch (url : string) (error : JsError) : M Session AuditResult :=
  let env := catch_scope url error in
  console_error ("Error during audit: " ++ message error) ;;
  try_catch
    (tempOutputDir <- resolve env "tempOutputDir" ;;
     try_catch (rmdir world (as_string tempOutputDir)) (fun _ => ret tt))
    (fun cleanupError => ret tt) ;;
  v_url <- resolve env "url" ;;
  v_siteName <- resolve env "siteName" ;;
  v_timestamp <- iso_now ;;
  ret (Failed {| er_url := as_string v_url;
                 er_siteName := Some (as_string v_siteName);
                 er_timestamp := Some v_timestamp;
                 er_error := message error;
                 er_success := false |}).

Definition auditWebsite (url : string) : M Session AuditResult :=
  console_log ("Starting audit for: " ++ url) ;;
  try_catch
    (auditData <- auditWebsite_try url ;; ret (Audited auditData))
    (auditWebsite_catch url).

(** *** The batch loop of [main] *)

Definition push_result (r : AuditResult) : M (list AuditResult * Session) unit :=
  modify_local (fun results => results ++ [r]).

Fixpoint auditLoop (websites : list string) : M (list AuditResult * Session) unit :=
  match websites with
  | [] => ret tt
  | url :: rest =>
      try_catch
        (result <- lift (auditWebsite url) ;;
         push_result result ;;
         match audit settings with
         | None =>
             throw (mkError TypeError (missing_section_message world "delayBetweenAudits"))
         | Some a =>
             match delayBetweenAudits a with
             | Some d => when (0 <? d)%Z (lift (sleep d))
             | None => ret tt
             end
         end)
        (fun error =>
           lift (console_error ("Failed to audit " ++ url ++ ": " ++ message error)) ;;
           push_result (Failed {| er_url := url; er_siteName := None;
                                  er_timestamp := None;
                                  er_error := message error;
                                  er_success := false |})) ;;
      auditLoop rest
  end.

Definition runBatch (websites : list string) : M Session (list AuditResult) :=
  with_local [] (auditLoop websites ;; get_local).

End Auditor.

(** ** Sample pages and worlds *)

Module Sample.

Definition element (cls : option string) (w h : Q) (email : bool) (text : string)
    : Element :=
  {| attr_class := cls; attr_id := None; attr_testid := None; attr_style := None;
     rect_width := w; rect_height := h;
     css_display := "block"; css_visibility := "visible";
     email_input := email; textContent := text |}.

Definition no_fault : Probe -> option string := fun _ => None.

Definition page (href : string) (els : list Element) (anchors : list string)
    (faults : Probe -> option string) : Page :=
  {| location_href := href;
     location_protocol := "https:";
     document_title := "Shop";
     meta_description := Some "A shop";
     meta_generator := None;
     h1_texts := ["Welcome"];
     images_without_alt := 0;
     image_count := 4; link_count := 8; script_count := 2;
     navigation_entry :=
       Some {| fetchStart := 10; loadEventEnd := 1210; domContentLoadedEventEnd := 610 |};
     first_paint := Some 300;
     performance_now := 1500;
     window_props := [];
     script_srcs := [];
     link_hrefs := [];
     anchor_hrefs := anchors;
     body_text := Some "Our products. Add to cart";
     elements := els;
     evaluate_fault := faults |}.

Definition blank : Page := page "about:blank" [] [] no_fault.

Definition settings : Settings :=
  {| audit := Some {| navigationTimeout := Some 30000%Z; pageLoadDelay := Some 2000%Z;
                      popupDetectionDelay := Some 5000%Z; maxProductPages := Some 3%Z;
                      delayBetweenAudits := Some 2000%Z |};
     performance := Some {| slowLoadTime := Some 3000%Z |} |}.

Definition hostname_of (url : string) : option string :=
  if Js.startsWith url "https://" then
    Some (String.substring 8 (String.length url - 8) url)
  else None.

(** A world without file-system or viewport faults, whose navigation is
    given by [nav]; its clock stands still, and its settings sections are
    [undefined] when they are missing. *)
Definition world (nav : Viewport -> string -> Outcome Page) : World :=
  {| url_hostname := hostname_of;
     now := fun _ => 1700000000000%Z;
     toISOString := fun t => Js.string_of_Z t;
     missing_section_message :=
       fun prop => message (type_error_undefined prop);
     load := nav;
     setViewport_fault := fun _ => None;
     screenshot_fault := fun _ => None;
     mkdir_fault := fun _ => None;
     rmdir_fault := fun _ => None;
     writeFile_fault := fun _ => None |}.

(** The world of [nav] with a clock that moves: one millisecond for
    every effect performed. *)
Definition ticking (nav : Viewport -> string -> Outcome Page) : World :=
  {| url_hostname := hostname_of;
     now := fun tr => (1700000000000 + Z.of_nat (length tr))%Z;
     toISOString := fun t => Js.string_of_Z t;
     missing_section_message :=
       fun prop => message (type_error_undefined prop);
     load := nav;
     setViewport_fault := fun _ => None;
     screenshot_fault := fun _ => None;
     mkdir_fault := fun _ => None;
     rmdir_fault := fun _ => None;
     writeFile_fault := fun _ => None |}.

Definition session : Session :=
  {| viewport := defaultViewport; current := blank; clock := 0%Z; trace := [] |}.

Definition timeout : JsError :=
  mkError TimeoutError "Navigation timeout of 30000 ms exceeded".

(** Every navigation times out. *)
Definition unreachable : World := world (fun _ _ => Throw timeout).

(** Pages load on the desktop profile only. *)
Definition desktop_only (p : Page) : World :=
  world (fun v _ => if viewport_eqb v defaultViewport then Ok p else Throw timeout).

(** Every navigation lands on the page [p]. *)
Definition always (p : Page) : World := world (fun _ _ => Ok p).

(** [https://shop.example.com] loads on every profile, any other site on
    the desktop profile only. *)
Definition mixed (p : Page) : World :=
  world (fun v url =>
           if String.eqb url "https://shop.example.com" then Ok p
           else if viewport_eqb v defaultViewport then Ok p
           else Throw timeout).

Definition signup : Element :=
  element (Some "popup-modal") 400 300 true "Join our newsletter and save 10%".

Definition shop : Page :=
  page "https://shop.example.com/" [signup]
    [ "https://shop.example.com/products/a"; "https://shop.example.com/products/a";
      "https://shop.example.com/products/b#reviews"; "https://shop.example.com/about" ]
    no_fault.

(** One page on the desktop profile, another one on every other profile. *)
Definition by_profile (desktop mobile : Page) : World :=
  world (fun v _ => if viewport_eqb v defaultViewport then Ok desktop else Ok mobile).

(** The session with the page [p] loaded. *)
Definition on (p : Page) : Session :=
  {| viewport := defaultViewport; current := p; clock := 0%Z; trace := [] |}.

(** Two overlays: an email form without discount wording, and a promotion
    without an email input. *)
Definition two_overlays : list Element :=
  [ element (Some "newsletter-bar") 300 80 true "Join our mailing list today";
    element (Some "promo-overlay") 500 200 false "Limited offer this week" ].

(** A page with a Mailchimp form whose popup scan is cut short. *)
Definition scan_cut_short : Page :=
  page "https://shop.example.com/"
    [ element (Some "mailchimp-form") 300 80 true "Join our mailing list today" ] []
    (fun probe =>
       match probe with
       | PPopups => Some "Execution context was destroyed"
       | _ => None
       end).

(** A plain-http page without any h1, whose image count cannot be read. *)
Definition alt_check_fails : Page :=
  {| location_href := "http://old.example.com/";
     location_protocol := "http:";
     document_title := "Old";
     meta_description := None;
     meta_generator := None;
     h1_texts := [];
     images_without_alt := 0;
     image_count := 0; link_count := 0; script_count := 0;
     navigation_entry :=
       Some {| fetchStart := 0; loadEventEnd := 5000; domContentLoadedEventEnd := 900 |};
     first_paint := None;
     performance_now := 5200;
     window_props := [];
     script_srcs := [];
     link_hrefs := [];
     anchor_hrefs := [];
     body_text := Some "Old site";
     elements := [];
     evaluate_fault :=
       fun probe =>
         match probe with
         | PImagesWithoutAlt => Some "Execution context was destroyed"
         | _ => None
         end |}.

(** A plain-http page without description or heading, with two images
    that lack [alt]. Its stamps are the doubles nearest to 142.9 and
    5558.4: subtracted as doubles they give 5415.5 exactly, a hair more
    than the difference of their exact values. *)
Definition neglected : Page :=
  {| location_href := "http://old.example.com/";
     location_protocol := "http:";
     document_title := "Old";
     meta_description := None;
     meta_generator := None;
     h1_texts := [];
     images_without_alt := 2;
     image_count := 5; link_count := 0; script_count := 0;
     navigation_entry :=
       Some {| fetchStart := 0x1.1dccccccccccdp+7;
               loadEventEnd := 0x1.5b66666666666p+12;
               domContentLoadedEventEnd := 900 |};
     first_paint := None;
     performance_now := 5600;
     window_props := [];
     script_srcs := [];
     link_hrefs := [];
     anchor_hrefs := [];
     body_text := Some "Old site";
     elements := [];
     evaluate_fault := no_fault |}.

(** A page in good order whose stamps are the doubles nearest to 0.3 and
    3000.3: subtracted as doubles they give 3000 exactly, which is not
    above the threshold of 3000, although the difference of their exact
    values is. *)
Definition at_threshold : Page :=
  {| location_href := "https://shop.example.com/";
     location_protocol := "https:";
     document_title := "Shop";
     meta_description := Some "A shop";
     meta_generator := None;
     h1_texts := ["Welcome"];
     images_without_alt := 0;
     image_count := 4; link_count := 8; script_count := 2;
     navigation_entry :=
       Some {| fetchStart := 0x1.3333333333333p-2;
               loadEventEnd := 0x1.770999999999ap+11;
               domContentLoadedEventEnd := 610 |};
     first_paint := Some 300;
     performance_now := 3100;
     window_props := [];
     script_srcs := [];
     link_hrefs := [];
     anchor_hrefs := [];
     body_text := Some "Our products. Add to cart";
     elements := [];
     evaluate_fault := no_fault |}.


(** A shop whose anchors cannot be read. *)
Definition links_unreadable : Page :=
  page "https://shop.example.com/" []
    [ "https://shop.example.com/products/a"; "https://shop.example.com/products/b" ]
    (fun probe =>
       match probe with
       | PProductLinks => Some "Execution context was destroyed"
       | _ => None
       end).

Definition with_anchors (anchors : list string) : Page :=
  page "https://shop.example.com/" [] anchors no_fault.

(** Three distinct product URLs, the first one behind six anchors. *)
Definition repeated_anchor : Page :=
  with_anchors
    [ "https://shop.example.com/products/a"; "https://shop.example.com/products/a";
      "https://shop.example.com/products/a"; "https://shop.example.com/products/a";
      "https://shop.example.com/products/a"; "https://shop.example.com/products/a";
      "https://shop.example.com/products/b"; "https://shop.example.com/products/c" ].

Definition two_products : Page :=
  with_anchors
    [ "https://shop.example.com/products/a"; "https://shop.example.com/products/b" ].


End Sample.

(** * Vocabulary of the properties *)

(** ** The popup scan, selector by selector *)


(** ** The candidate condition in the words of the specification *)





(** ** Computations that leave the page alone *)

(** A computation is [stable] when it leaves the viewport and the loaded
    page of the session as they were, whatever its outcome. *)
Definition stable {A} (m : M Session A) : Prop :=
  forall s, viewport (snd (m s)) = viewport s /\ current (snd (m s)) = current s.

Definition started (url : string) (s : Session) : Session :=
  snd (console_log ("Starting audit for: " ++ url) s).

(** ** The probes that never throw, as functions of the loaded page *)

Definition isShopify_of (p : Page) : bool :=
  match evaluate_fault p PShopify with
  | Some _ => false
  | None =>
      script_src p "shopify" ||
      (match meta_generator p with Some c => Js.includes c "Shopify" | None => false end ||
       (existsb (fun kv => String.eqb (fst kv) "Shopify") (window_props p) ||
        (existsb (fun h => Js.includes h "shopify") (link_hrefs p) || false)))
  end.

Definition isEcommerce_of (p : Page) : bool :=
  match evaluate_fault p PEcommerce, body_text p with
  | None, Some t =>
      let text := Js.toLowerCase t in
      (Js.includes text "add to cart" ||
       (some_element p (AttrContains AClass "add-to-cart") ||
        some_element p (AttrContains AId "add-to-cart"))) ||
      (((some_element p (AttrContains AClass "price") ||
         some_element p (AttrContains AId "price")) ||
        dollar_digits text) &&
       (Js.includes text "product" || Js.includes text "shop"))
  | _, _ => false
  end.

Definition productLinks_of (st : Settings) (p : Page) : list string :=
  match evaluate_fault p PProductLinks with
  | Some _ => []
  | None =>
      Js.unique
        (productLinksOf (Js.or_default (audit_field st maxProductPages) 3)
                        (anchor_hrefs p))
  end.

(** ** The outcomes of popup detection *)

Definition popup_warning (msg : string) : Event :=
  EvConsole LLog ("Error during popup detection: " ++ msg).

Definition after_delay (st : Settings) (s : Session) : Session :=
  snd (sleep (Js.or_default (audit_field st popupDetectionDelay) 5000) s).

Definition warned (msg : string) (s : Session) : Session :=
  snd (emit (popup_warning msg) s).

Definition platforms_only (p : Page) : PopupData :=
  set_platforms (detectEmailPlatforms p) defaultPopupData.

Definition full_finding (p : Page) : PopupData :=
  let popupElements := scanPopups (elements p) in
  if (0 <? length popupElements)%nat
  then set_popupType (classifyPopups popupElements)
         (set_popups popupElements (platforms_only p))
  else platforms_only p.

Definition anyEmailInput (overlays : list PopupDescriptor) : Prop :=
  exists p, In p overlays /\ pd_hasEmailInput p = true.

Definition anyDiscountText (overlays : list PopupDescriptor) : Prop :=
  exists p, In p overlays /\ discountText p = true.

(** ** The check battery, check by check *)

Definition error_issue (msg : string) : Issue :=
  mkIssue ErrorIssue ("Could not complete all checks: " ++ msg).

Definition battery_order : list Probe :=
  [PMetaDescription; PImagesWithoutAlt; PH1Count; PProtocol; PLoadTime].

(** The fault of one check, if any: the call rejects, or (load time) the
    page has no navigation entry to read. *)
Definition check_fault (p : Page) (probe : Probe) : option string :=
  match evaluate_fault p probe with
  | Some msg => Some msg
  | None =>
      match probe, navigation_entry p with
      | PLoadTime, None => Some (message (type_error_undefined "loadEventEnd"))
      | _, _ => None
      end
  end.

(** The issues that one check reports when it runs. *)
Definition check_issues (st : Settings) (p : Page) (probe : Probe) : list Issue :=
  match probe with
  | PMetaDescription =>
      match meta_description p with
      | Some _ => []
      | None => [mkIssue SEO "Missing meta description"]
      end
  | PImagesWithoutAlt =>
      if (0 <? images_without_alt p)%nat
      then [mkIssue Accessibility
              (Js.string_of_nat (images_without_alt p) ++ " images missing alt text")]
      else []
  | PH1Count =>
      if (length (h1_texts p) =? 0)%nat then [mkIssue SEO "No H1 tag found"]
      else if (1 <? length (h1_texts p))%nat then [mkIssue SEO "Multiple H1 tags found"]
      else []
  | PProtocol =>
      if String.eqb (location_protocol p) "https:" then []
      else [mkIssue Security "Site not using HTTPS"]
  | PLoadTime =>
      match navigation_entry p with
      | Some navigation =>
          let loadTime := (loadEventEnd navigation - fetchStart navigation)%float in
          if Js.double_gtb loadTime
               (Js.or_default
                  (match performance st with
                   | Some pf => slowLoadTime pf
                   | None => None
                   end) 3000)
          then [mkIssue Performance
                  ("Slow page load time: " ++
                   Js.rounded_text (Js.Math_round_double loadTime) ++ "ms")]
          else []
      | None => []
      end
  | _ => []
  end.

(** The checks in order, up to the first fault. *)
Fixpoint run_checks (st : Settings) (p : Page) (probes : list Probe) : list Issue :=
  match probes with
  | [] => []
  | probe :: rest =>
      match check_fault p probe with
      | Some msg => [error_issue msg]
      | None => check_issues st p probe ++ run_checks st p rest
      end
  end.

Definition is_error (i : Issue) : bool :=
  match issue_type i with
  | ErrorIssue => true
  | _ => false
  end.

(** ** Product links and product captures *)

Definition productPaths : list string := ["/products/"; "/product/"; "/shop/"; "/store/"].

(** What the filter asks of an anchor URL. *)
Definition ProductHref (href : string) : Prop :=
  (exists sub, In sub productPaths /\ Js.includes (Js.toLowerCase href) sub = true) /\
  Js.includes (Js.toLowerCase href) "#" = false /\
  Js.startsWith href "http" = true.

(** A capture made by the product loop. *)
Definition is_product_capture (pc : PageCapture) : Prop :=
  exists n, pc_name pc = ("product_" ++ Js.string_of_nat n ++ "_desktop")%string.

(** ** The batch *)

(** When the last record is that of a completed audit, the viewport is
    the desktop one. *)
Definition restored (ls : list AuditResult * Session) : Prop :=
  forall rs d, fst ls = rs ++ [Audited d] -> viewport (snd ls) = defaultViewport.

(** ** Further vocabulary: registries, orders and effects *)

(** The email platforms in the order in which the scan tests them. *)
Definition platformRegistry : list string :=
  ["Klaviyo"; "Mailchimp"; "Omnisend"; "Privy"; "Justuno"; "OptinMonster";
   "Wisepops"; "Sumo"].

(** [Subsequence l r]: [l] is [r] with some elements left out, the order
    kept. *)
Inductive Subsequence {A : Type} : list A -> list A -> Prop :=
| sub_nil : Subsequence [] []
| sub_skip : forall x l r, Subsequence l r -> Subsequence l (x :: r)
| sub_keep : forall x l r, Subsequence l r -> Subsequence (x :: l) (x :: r).

(** [getPerformanceMetrics] as a function of the loaded page. *)
Definition metrics_of (p : Page) : option Metrics :=
  match evaluate_fault p PPerformance, navigation_entry p with
  | None, Some navigation =>
      Some {| m_loadTime :=
                Js.Math_round_double
                  (loadEventEnd navigation - fetchStart navigation)%float;
              m_domContentLoaded :=
                Js.Math_round_double
                  (domContentLoadedEventEnd navigation - fetchStart navigation)%float;
              m_firstPaint := match first_paint p with Some t => t | None => 0 end;
              m_imageCount := image_count p;
              m_linkCount := link_count p;
              m_scriptCount := script_count p |}
  | _, _ => None
  end.

(** Popup detection as a function of the loaded page. *)
Definition finding_of (p : Page) : PopupData :=
  match evaluate_fault p PEmailPlatforms with
  | Some _ => defaultPopupData
  | None =>
      match evaluate_fault p PPopups with
      | Some _ => platforms_only p
      | None => full_finding p
      end
  end.

Definition is_performance (i : Issue) : bool :=
  match issue_type i with
  | Performance => true
  | _ => false
  end.

(** [this.settings.performance?.slowLoadTime || 3000] *)
Definition slowThreshold_of (st : Settings) : Z :=
  Js.or_default
    (match performance st with Some pf => slowLoadTime pf | None => None end) 3000.

Definition is_accessibility (i : Issue) : bool :=
  match issue_type i with
  | Accessibility => true
  | _ => false
  end.

(** The events that act on the browser or on the file system (console
    output and waiting left out). *)
Definition is_effect (ev : Event) : bool :=
  match ev with
  | EvConsole _ _ | EvSleep _ => false
  | _ => true
  end.

Definition effects (tr : list Event) : list Event := filter is_effect tr.

Definition is_rmdir (ev : Event) : bool :=
  match ev with
  | EvRmdir _ => true
  | _ => false
  end.

(** A computation is [silent] when it adds no effect to the trace,
    whatever its outcome. *)
Definition silent {A} (m : M Session A) : Prop :=
  forall s, effects (trace (snd (m s))) = effects (trace s).

(** The name of the [i]-th product capture (from 0). *)
Definition product_name (i : nat) : string :=
  "product_" ++ Js.string_of_nat (i + 1) ++ "_desktop".

(** The URL that a record of the batch stands for. *)
Definition result_url (r : AuditResult) : string :=
  match r with
  | Audited d => ad_url d
  | Failed r => er_url r
  end.

Definition is_failed (r : AuditResult) : bool :=
  match r with
  | Audited _ => false
  | Failed _ => true
  end.

(** The two counts of the summary of [main]. *)
Definition summary (results : list AuditResult) : nat * nat :=
  let successful := length (filter counts_as_success results) in
  let failed := (length results - successful)%nat in
  (successful, failed).

(** The two effects of one turn of the product loop. *)
Definition product_turn (links : list string) (dir : string) (j : nat) : list Event :=
  [EvGoto (nth j links ""); EvScreenshot (mkPath dir (product_name j ++ ".png"))].

(** The folder of the artifacts of a site. *)
Definition outputDirectory_of (hasPopup : bool) (siteName : string) (timestamp : Z)
    : string :=
  "./audits/" ++ (if hasPopup then "popup_detected" else "no_popup") ++ "/" ++
  siteName ++ "_" ++ Js.string_of_Z timestamp.

Definition tempDirectory_of (siteName : string) (timestamp : Z) : string :=
  "./audits/temp_" ++ siteName ++ "_" ++ Js.string_of_Z timestamp.

(** The two clock readings of the [try] block of an audit that starts
    when the trace is [tr]: [Date.now()], read once the desktop viewport
    is applied, and [new Date()], read once the temporary directory of the
    site exists. *)
Definition stamp_at (world : World) (tr : list Event) : Z :=
  now world (tr ++ [EvSetViewport defaultViewport]).

Definition created_at (world : World) (siteName : string) (tr : list Event) : Z :=
  now world (tr ++ [EvSetViewport defaultViewport;
                    EvMkdir (tempDirectory_of siteName (stamp_at world tr))]).

(** The number of turns of the product loop on the homepage [p]. *)
Definition product_count (settings : Settings) (p : Page) : nat :=
  if isShopify_of p || isEcommerce_of p
  then Nat.min 3 (length (productLinks_of settings p))
  else 0%nat.

(** The effects of a completed audit, in order. *)
Definition audit_effects (world : World) (settings : Settings)
    (url siteName : string) (timestamp : Z) (p : Page)
    : list Event :=
  let dir := outputDirectory_of (hasPopup (finding_of p)) siteName timestamp in
  let temp := tempDirectory_of siteName timestamp in
  [EvSetViewport defaultViewport; EvMkdir temp; EvGoto url; EvMkdir dir;
   EvScreenshot (mkPath dir "homepage_desktop.png")] ++
  flat_map (product_turn (productLinks_of settings p) dir)
           (seq 0 (product_count settings p)) ++
  [EvSetViewport mobileViewport; EvGoto url;
   EvScreenshot (mkPath dir "homepage_mobile.png");
   EvSetViewport defaultViewport;
   EvWriteFile (mkPath dir "audit_report.html");
   EvWriteFile (mkPath dir "audit_data.json")] ++
  match rmdir_fault world temp with
  | None => [EvRmdir temp]
  | Some _ => []
  end.


(** The viewports that a trace has applied, in order. *)
Definition viewports (tr : list Event) : list Viewport :=
  flat_map (fun ev => match ev with EvSetViewport v => [v] | _ => [] end) tr.

(** A computation that applies no viewport. *)
Definition neutral {A} (m : M Session A) : Prop :=
  forall s,
    viewport (snd (m s)) = viewport s /\
    viewports (trace (snd (m s))) = viewports (trace s).

(** A computation that applies the viewports of [plan] in order: all of
    them when it returns, the first ones when it throws. The session is
    left on the last one that was applied, and on the viewport it had
    when none was. *)
Definition applies {A} (plan : list Viewport) (m : M Session A) : Prop :=
  forall s,
    exists applied pending,
      plan = applied ++ pending /\
      viewports (trace (snd (m s))) = viewports (trace s) ++ applied /\
      viewport (snd (m s)) = last applied (viewport s) /\
      (forall a, fst (m s) = Ok a -> pending = []).


(** No [EvRmdir] is added to the trace, whatever the outcome. *)
Definition no_rmdir {A} (m : M Session A) : Prop :=
  forall s, filter is_rmdir (trace (snd (m s))) = filter is_rmdir (trace s).

(** No [EvRmdir] is added to the trace when the computation throws. *)
Definition clean_throw {A} (m : M Session A) : Prop :=
  forall s e, fst (m s) = Throw e ->
    filter is_rmdir (trace (snd (m s))) = filter is_rmdir (trace s).

(** The computation returns, whatever the session. *)
Definition returns {A} (m : M Session A) : Prop :=
  forall s, exists a, fst (m s) = Ok a.

(** The record that the loop of [main] builds in its own [catch]. *)
Definition failure_record (url msg : string) : AuditResult :=
  Failed {| er_url := url; er_siteName := None; er_timestamp := None;
            er_error := msg; er_success := false |}.

(** The records that one turn of the loop of [main] adds, given the
    outcome of the audit. *)
Definition turn_records (world : World) (settings : Settings) (url : string)
    (outcome : Outcome AuditResult) : list AuditResult :=
  match outcome with
  | Ok result =>
      match audit settings with
      | Some _ => [result]
      | None =>
          [result;
           failure_record url (missing_section_message world "delayBetweenAudits")]
      end
  | Throw e => [failure_record url (message e)]
  end.

(** * Properties *)

(** ** Strings and arrays *)

Lemma substring0_length (n : nat) (s : string) :
  (String.length (Js.substring0 n s) <= n)%nat.
Proof.
  unfold Js.substring0. revert s.
  induction n as [|n IH]; intros [|c s]; simpl; try lia.
  specialize (IH s). lia.
Qed.

Lemma existsb_eqb_In (x : string) (l : list string) :
  existsb (String.eqb x) l = true <-> In x l.
Proof.
  rewrite existsb_exists. split.
  - intros [y [Hy E]]. apply String.eqb_eq in E. now subst.
  - intros H. exists x. split; [assumption | apply String.eqb_refl].
Qed.

Lemma set_insert_all_In (xs seen : list string) (x : string) :
  In x (Js.set_insert_all seen xs) <-> In x xs /\ ~ In x seen.
Proof.
  revert seen. induction xs as [|y xs IH]; intros seen; simpl.
  - tauto.
  - destruct (existsb (String.eqb y) seen) eqn:E.
    + rewrite IH. apply existsb_eqb_In in E.
      split; [tauto|]. intros [[->|H] Hn]; tauto.
    + assert (Hy : ~ In y seen).
      { intros H. apply existsb_eqb_In in H. congruence. }
      simpl. rewrite IH. simpl.
      destruct (String.eqb_spec y x) as [->|Hne]; [tauto|].
      split.
      * intros [H|[H1 H2]]; [congruence|]. split; [now right|]. tauto.
      * intros [[H|H] Hn]; [congruence|]. right. split; [assumption|].
        intros [H'|H']; [congruence|tauto].
Qed.

Lemma set_insert_all_NoDup (xs seen : list string) :
  NoDup (Js.set_insert_all seen xs).
Proof.
  revert seen. induction xs as [|y xs IH]; intros seen; simpl.
  - constructor.
  - destruct (existsb (String.eqb y) seen); [apply IH|].
    constructor; [|apply IH].
    rewrite set_insert_all_In. simpl. tauto.
Qed.

(** [unique] is the list of the distinct values of its argument. *)
Lemma unique_In (xs : list string) (x : string) : In x (Js.unique xs) <-> In x xs.
Proof. unfold Js.unique. rewrite set_insert_all_In. simpl. tauto. Qed.

Lemma unique_NoDup (xs : list string) : NoDup (Js.unique xs).
Proof. apply set_insert_all_NoDup. Qed.

Lemma slice0_firstn {A} (n : Z) (xs : list A) :
  (0 <= n)%Z -> Js.slice0 n xs = firstn (Z.to_nat n) xs.
Proof.
  intros H. unfold Js.slice0.
  destruct (Z.ltb_spec n 0); [lia | reflexivity].
Qed.

(** ** Subsequences *)

Lemma Subsequence_refl {A} (l : list A) : Subsequence l l.
Proof. induction l; [apply sub_nil | apply sub_keep]; assumption. Qed.

Lemma Subsequence_nil {A} (l : list A) : Subsequence [] l.
Proof. induction l; constructor; assumption. Qed.

Lemma Subsequence_trans {A} (l1 l2 l3 : list A) :
  Subsequence l1 l2 -> Subsequence l2 l3 -> Subsequence l1 l3.
Proof.
  intros H12 H23. revert l1 H12.
  induction H23 as [|x l r H IH|x l r H IH]; intros l1 H12.
  - assumption.
  - constructor. now apply IH.
  - inversion H12; subst.
    + apply sub_skip. now apply IH.
    + apply sub_keep. now apply IH.
Qed.

Lemma Subsequence_In {A} (l r : list A) (x : A) :
  Subsequence l r -> In x l -> In x r.
Proof.
  induction 1 as [|y l r H IH|y l r H IH]; simpl; intros Hin.
  - assumption.
  - right. now apply IH.
  - destruct Hin as [->|Hin]; [now left | right; now apply IH].
Qed.

Lemma Subsequence_NoDup {A} (l r : list A) :
  Subsequence l r -> NoDup r -> NoDup l.
Proof.
  induction 1 as [|y l r H IH|y l r H IH]; intros Hr.
  - constructor.
  - inversion Hr; subst. now apply IH.
  - inversion Hr; subst. constructor; [|now apply IH].
    intros Hin. apply (Subsequence_In _ _ _ H) in Hin. contradiction.
Qed.

Lemma Subsequence_length {A} (l r : list A) :
  Subsequence l r -> (length l <= length r)%nat.
Proof. induction 1; simpl; lia. Qed.

Lemma Subsequence_filter {A} (f : A -> bool) (l : list A) :
  Subsequence (filter f l) l.
Proof.
  induction l as [|x l IH]; simpl; [constructor|].
  destruct (f x); [apply sub_keep | apply sub_skip]; assumption.
Qed.

Lemma Subsequence_firstn {A} (n : nat) (l : list A) : Subsequence (firstn n l) l.
Proof.
  revert l. induction n as [|n IH]; intros [|x l]; simpl.
  - constructor.
  - apply Subsequence_nil.
  - constructor.
  - apply sub_keep, IH.
Qed.

Lemma Subsequence_slice0 {A} (n : Z) (l : list A) : Subsequence (Js.slice0 n l) l.
Proof. unfold Js.slice0. destruct (n <? 0)%Z; apply Subsequence_firstn. Qed.

Lemma Subsequence_set_insert_all (seen xs : list string) :
  Subsequence (Js.set_insert_all seen xs) xs.
Proof.
  revert seen. induction xs as [|x xs IH]; intros seen; simpl; [constructor|].
  destruct (existsb (String.eqb x) seen); [apply sub_skip | apply sub_keep]; apply IH.
Qed.

Lemma Subsequence_optional {A} (b : bool) (x : A) (l r : list A) :
  Subsequence l r -> Subsequence ((if b then [x] else []) ++ l) (x :: r).
Proof. intros H. destruct b; simpl; [apply sub_keep | apply sub_skip]; assumption. Qed.

(** ** The popup scan as a comprehension *)







(** ** Which elements become popup candidates *)





(** ** One descriptor per matching selector *)

Lemma describe_text_bound (sel : Selector) (e : Element) :
  (String.length (pd_text (describe sel e)) <= 200)%nat.
Proof. apply substring0_length. Qed.




(** ** Reasoning about sequential code *)

Lemma bind_Ok_inv {S A B} (m : M S A) (k : A -> M S B) (s s' : S) (b : B) :
  bind m k s = (Ok b, s') ->
  exists a s1, m s = (Ok a, s1) /\ k a s1 = (Ok b, s').
Proof.
  unfold bind. destruct (m s) as [[a|e] s1]; intros H.
  - now exists a, s1.
  - discriminate.
Qed.

Lemma stable_run {A} (m : M Session A) (s s' : Session) (r : Outcome A) :
  stable m -> m s = (r, s') -> viewport s' = viewport s /\ current s' = current s.
Proof. intros Hm E. specialize (Hm s). now rewrite E in Hm. Qed.

Lemma stable_ret {A} (a : A) : stable (ret a).
Proof. intros s. now split. Qed.

Lemma stable_throw {A} (e : JsError) : stable (@throw Session A e).
Proof. intros s. now split. Qed.

Lemma stable_bind {A B} (m : M Session A) (k : A -> M Session B) :
  stable m -> (forall a, stable (k a)) -> stable (bind m k).
Proof.
  intros Hm Hk s. unfold bind. specialize (Hm s).
  destruct (m s) as [[a|e] s1]; simpl in *.
  - destruct (Hk a s1) as [H1 H2]. destruct Hm as [H3 H4].
    split; congruence.
  - assumption.
Qed.

Lemma stable_try_catch {A} (m : M Session A) (h : JsError -> M Session A) :
  stable m -> (forall e, stable (h e)) -> stable (try_catch m h).
Proof.
  intros Hm Hh s. unfold try_catch. specialize (Hm s).
  destruct (m s) as [[a|e] s1]; simpl in *.
  - assumption.
  - destruct (Hh e s1) as [H1 H2]. destruct Hm as [H3 H4].
    split; congruence.
Qed.

Lemma stable_emit (ev : Event) : stable (emit ev).
Proof. intros s. now split. Qed.

Lemma stable_console_log (msg : string) : stable (console_log msg).
Proof. apply stable_emit. Qed.

Lemma stable_console_error (msg : string) : stable (console_error msg).
Proof. apply stable_emit. Qed.

Lemma stable_sleep (ms : Z) : stable (sleep ms).
Proof. intros s. now split. Qed.

Lemma stable_date_now (w : World) : stable (date_now w).
Proof. intros s. now split. Qed.

Lemma stable_fault_or (f : option string) (m : M Session unit) :
  stable m -> stable (fault_or f m).
Proof. intros Hm. destruct f; simpl; [apply stable_throw | assumption]. Qed.

Lemma stable_evaluate {A} (probe : Probe) (f : Page -> Outcome A) :
  stable (evaluate probe f).
Proof.
  intros s. unfold evaluate.
  destruct (evaluate_fault (current s) probe); now split.
Qed.

Lemma stable_when (b : bool) (m : M Session unit) : stable m -> stable (when b m).
Proof. intros Hm. destruct b; simpl; [assumption | apply stable_ret]. Qed.

Lemma stable_resolve (env : list (string * Binding)) (x : string) :
  stable (@resolve Session env x).
Proof.
  unfold resolve. destruct (lookup x env); [apply stable_ret | apply stable_throw].
Qed.

Create HintDb stable.
#[local] Hint Resolve stable_ret stable_throw stable_emit stable_console_log
  stable_console_error stable_sleep stable_date_now stable_fault_or
  stable_evaluate stable_when stable_resolve : stable.

Ltac stability :=
  repeat first
    [ apply stable_bind; [|intros ?]
    | apply stable_try_catch; [|intros ?]
    | solve [auto with stable]
    | match goal with |- stable (match ?x with _ => _ end) => destruct x end
    | match goal with |- stable (let '(_, _) := ?x in _) => destruct x end ].

Section StableAuditor.

Variable world : World.
Variable settings : Settings.

Lemma stable_screenshot (p : FilePath) : stable (screenshot world p).
Proof. unfold screenshot. stability. Qed.

Lemma stable_mkdir (dir : string) : stable (mkdir world dir).
Proof. unfold mkdir. stability. Qed.

Lemma stable_rmdir (dir : string) : stable (rmdir world dir).
Proof. unfold rmdir. stability. Qed.

Lemma stable_writeFile (p : FilePath) : stable (writeFile world p).
Proof. unfold writeFile. stability. Qed.

Lemma stable_iso_now : stable (iso_now world).
Proof. unfold iso_now. stability. Qed.

Lemma stable_url_hostname_of (url : string) : stable (url_hostname_of world url).
Proof. unfold url_hostname_of. stability. Qed.

Hint Resolve stable_screenshot stable_mkdir stable_rmdir stable_writeFile
  stable_iso_now stable_url_hostname_of : stable.

Lemma stable_capturePage (pageName outputDir : string) :
  stable (capturePage world settings pageName outputDir).
Proof. unfold capturePage. stability. Qed.

Lemma stable_generateReport (d : AuditData) (outputDir : string) :
  stable (generateReport world d outputDir).
Proof. unfold generateReport. stability. Qed.

End StableAuditor.

(** ** The probes that never throw, as functions of the loaded page *)

Lemma detectShopify_spec (s : Session) :
  detectShopify s = (Ok (isShopify_of (current s)), s).
Proof.
  unfold detectShopify, isShopify_of, try_catch, bind, evaluate, ret.
  destruct (evaluate_fault (current s) PShopify); reflexivity.
Qed.

Lemma findProductPages_spec (st : Settings) (s : Session) :
  findProductPages st s = (Ok (productLinks_of st (current s)), s).
Proof.
  unfold findProductPages, productLinks_of, try_catch, bind, evaluate, ret.
  destruct (evaluate_fault (current s) PProductLinks); reflexivity.
Qed.

Lemma detectEcommerce_spec (s : Session) :
  detectEcommerce s = (Ok (isEcommerce_of (current s)), s).
Proof.
  unfold detectEcommerce, isEcommerce_of, try_catch, evaluate, ret.
  destruct (evaluate_fault (current s) PEcommerce); [reflexivity|].
  destruct (body_text (current s)); reflexivity.
Qed.

Lemma getPerformanceMetrics_total (s : Session) :
  exists m, getPerformanceMetrics s = (Ok m, s).
Proof.
  unfold getPerformanceMetrics, try_catch, bind, evaluate, ret.
  destruct (evaluate_fault (current s) PPerformance); [now eexists|].
  destruct (navigation_entry (current s)); now eexists.
Qed.

(** *** Popup detection *)

Lemma detectPopups_spec (st : Settings) (s : Session) :
  detectPopupsAndEmailPlatforms st s =
  match evaluate_fault (current s) PEmailPlatforms with
  | Some msg => (Ok defaultPopupData, warned msg (after_delay st s))
  | None =>
      match evaluate_fault (current s) PPopups with
      | Some msg => (Ok (platforms_only (current s)), warned msg (after_delay st s))
      | None => (Ok (full_finding (current s)), after_delay st s)
      end
  end.
Proof.
  unfold detectPopupsAndEmailPlatforms, with_local, try_catch, bind, lift, evaluate,
    get_local, modify_local, full_finding, platforms_only, warned, after_delay,
    console_log, popup_warning, sleep, emit, when, ret.
  cbn [fst snd current viewport].
  destruct (evaluate_fault (current s) PEmailPlatforms); [reflexivity|].
  cbn [fst snd current viewport].
  destruct (evaluate_fault (current s) PPopups); [reflexivity|].
  cbn [fst snd current viewport].
  destruct (0 <? length (scanPopups (elements (current s))))%nat; reflexivity.
Qed.

Lemma stable_detectPopups (st : Settings) :
  stable (detectPopupsAndEmailPlatforms st).
Proof.
  intros s. rewrite detectPopups_spec.
  destruct (evaluate_fault (current s) PEmailPlatforms);
    [|destruct (evaluate_fault (current s) PPopups)]; now split.
Qed.

(** *** The check battery *)

Lemma runAutomatedChecks_spec (st : Settings) (s : Session) :
  runAutomatedChecks st s = (Ok (run_checks st (current s) battery_order), s).
Proof.
  unfold runAutomatedChecks, with_local, try_catch, bind, lift, evaluate,
    get_local, modify_local, push_issue, when, ret, run_checks, battery_order,
    check_fault, check_issues, error_issue.
  simpl.
  destruct (evaluate_fault (current s) PMetaDescription); [reflexivity|].
  destruct (meta_description (current s)); simpl;
  (destruct (evaluate_fault (current s) PImagesWithoutAlt); [reflexivity|]);
  (destruct (0 <? images_without_alt (current s))%nat; simpl;
   (destruct (evaluate_fault (current s) PH1Count); [reflexivity|]);
   (destruct (length (h1_texts (current s)) =? 0)%nat; simpl;
    [|destruct (1 <? length (h1_texts (current s)))%nat; simpl];
    (destruct (evaluate_fault (current s) PProtocol); [reflexivity|]);
    (destruct (String.eqb (location_protocol (current s)) "https:"); simpl;
     (destruct (evaluate_fault (current s) PLoadTime); [reflexivity|]);
     (destruct (navigation_entry (current s)); simpl; [|reflexivity]);
     match goal with |- context [Js.double_gtb ?a ?b] => destruct (Js.double_gtb a b) end;
     simpl; rewrite ?app_nil_r; reflexivity))).
Qed.

Lemma stable_runAutomatedChecks (st : Settings) : stable (runAutomatedChecks st).
Proof. intros s. rewrite runAutomatedChecks_spec. now split. Qed.

(** ** C5: popup detection does not throw *)

(** C5 (as the code has it). Popup detection always returns a finding.
    When the platform scan faults, the finding is the default one; when the
    platform scan succeeds and the overlay scan faults, the finding has no
    popup, no popup type and no popup details, but keeps the platforms
    that were already recorded. In both cases the warning is logged. *)
Theorem detectPopups_never_raises (st : Settings) (s : Session) :
  exists pd,
    fst (detectPopupsAndEmailPlatforms st s) = Ok pd /\
    (forall msg,
       evaluate_fault (current s) PEmailPlatforms = Some msg ->
       pd = defaultPopupData /\
       In (popup_warning msg) (trace (snd (detectPopupsAndEmailPlatforms st s)))) /\
    (forall msg,
       evaluate_fault (current s) PEmailPlatforms = None ->
       evaluate_fault (current s) PPopups = Some msg ->
       hasPopup pd = false /\ popupType pd = None /\ popupDetails pd = [] /\
       emailPlatformDetails pd = detectEmailPlatforms (current s) /\
       emailPlatform pd = hd_error (detectEmailPlatforms (current s)) /\
       In (popup_warning msg) (trace (snd (detectPopupsAndEmailPlatforms st s)))).
Proof.
  rewrite detectPopups_spec.
  destruct (evaluate_fault (current s) PEmailPlatforms) as [m1|] eqn:E1;
    [|destruct (evaluate_fault (current s) PPopups) as [m2|] eqn:E2].
  - exists defaultPopupData. split; [reflexivity|]. split.
    + intros msg H. inversion H; subst. split; [reflexivity|].
      apply in_or_app. right. now left.
    + intros msg H. discriminate.
  - exists (platforms_only (current s)). split; [reflexivity|]. split.
    + intros msg H. discriminate.
    + intros msg _ H. inversion H; subst.
      unfold platforms_only, set_platforms.
      cbn [hasPopup popupType popupDetails emailPlatformDetails emailPlatform
           defaultPopupData fst snd].
      repeat split.
      apply in_or_app. right. now left.
  - exists (full_finding (current s)). split; [reflexivity|].
    split; intros msg H; discriminate.
Qed.

(** Counterexample to C5 as stated: the overlay scan faults after a
    platform was recorded, and the finding is not the default one. *)
Lemma detectPopups_default_counterexample :
  evaluate_fault Sample.scan_cut_short PPopups = Some "Execution context was destroyed" /\
  fst (detectPopupsAndEmailPlatforms Sample.settings (Sample.on Sample.scan_cut_short)) =
    Ok {| hasPopup := false; popupType := None; emailPlatform := Some "Mailchimp";
          popupDetails := []; emailPlatformDetails := ["Mailchimp"] |} /\
  fst (detectPopupsAndEmailPlatforms Sample.settings (Sample.on Sample.scan_cut_short)) <>
    Ok defaultPopupData.
Proof.
  split; [reflexivity|]. split; [vm_compute; reflexivity|].
  vm_compute. discriminate.
Qed.

(** ** C2: the popup type *)

Lemma detect_popupType (st : Settings) (s : Session) (pd : PopupData) :
  fst (detectPopupsAndEmailPlatforms st s) = Ok pd ->
  popupType pd = classifyPopups (popupDetails pd) /\
  (hasPopup pd = true <-> popupDetails pd <> []).
Proof.
  rewrite detectPopups_spec.
  destruct (evaluate_fault (current s) PEmailPlatforms);
    [|destruct (evaluate_fault (current s) PPopups)]; simpl; intros H;
    inversion H; subst; clear H.
  - split; [reflexivity|]. simpl. split; [discriminate | congruence].
  - split; [reflexivity|]. simpl. split; [discriminate | congruence].
  - unfold full_finding.
    destruct (scanPopups (elements (current s))) as [|d ds] eqn:E; simpl.
    + split; [reflexivity|]. split; [discriminate | congruence].
    + split; [reflexivity|]. split; [discriminate | reflexivity].
Qed.

(** C2 (as the code has it). The two signals are taken over all matched
    overlays, not overlay by overlay: 'Email + Discount' when some overlay
    has an email input and some overlay, the same or another, has discount
    wording; else 'Email Signup' when some overlay has an email input; else
    'Discount Offer' when some overlay has discount wording; else 'General
    Popup'; and no type exactly when no overlay matched. With a single
    overlay this is the overlay-by-overlay rule. *)
Theorem popupType_aggregate :
  (forall overlays,
     (classifyPopups overlays = Some EmailAndDiscount <->
      anyEmailInput overlays /\ anyDiscountText overlays) /\
     (classifyPopups overlays = Some EmailSignup <->
      anyEmailInput overlays /\ ~ anyDiscountText overlays) /\
     (classifyPopups overlays = Some DiscountOffer <->
      ~ anyEmailInput overlays /\ anyDiscountText overlays) /\
     (classifyPopups overlays = Some GeneralPopup <->
      overlays <> [] /\ ~ anyEmailInput overlays /\ ~ anyDiscountText overlays) /\
     (classifyPopups overlays = None <-> overlays = [])) /\
  (forall p, classifyPopups [p] = popupType_per_overlay [p]) /\
  (forall st s pd,
     fst (detectPopupsAndEmailPlatforms st s) = Ok pd ->
     popupType pd = classifyPopups (popupDetails pd) /\
     (popupType pd = None <-> popupDetails pd = [])).
Proof.
  assert (Hcls : forall overlays,
     (classifyPopups overlays = Some EmailAndDiscount <->
      anyEmailInput overlays /\ anyDiscountText overlays) /\
     (classifyPopups overlays = Some EmailSignup <->
      anyEmailInput overlays /\ ~ anyDiscountText overlays) /\
     (classifyPopups overlays = Some DiscountOffer <->
      ~ anyEmailInput overlays /\ anyDiscountText overlays) /\
     (classifyPopups overlays = Some GeneralPopup <->
      overlays <> [] /\ ~ anyEmailInput overlays /\ ~ anyDiscountText overlays) /\
     (classifyPopups overlays = None <-> overlays = [])).
  { intros overlays.
    assert (He : existsb pd_hasEmailInput overlays = true <-> anyEmailInput overlays)
      by apply existsb_exists.
    assert (Hd : existsb discountText overlays = true <-> anyDiscountText overlays)
      by apply existsb_exists.
    rewrite <- He, <- Hd. clear He Hd.
    unfold classifyPopups.
    destruct overlays as [|o os].
    - simpl. intuition (discriminate || congruence).
    - change (0 <? length (o :: os))%nat with true. cbv iota.
      destruct (existsb pd_hasEmailInput (o :: os));
        destruct (existsb discountText (o :: os)); cbn [andb];
        intuition (discriminate || congruence). }
  split; [exact Hcls|]. split.
  - intros p. unfold classifyPopups, popupType_per_overlay. simpl.
    destruct (pd_hasEmailInput p); destruct (discountText p); reflexivity.
  - intros st s pd H. destruct (detect_popupType st s pd H) as [H1 _].
    split; [exact H1|]. rewrite H1.
    destruct (Hcls (popupDetails pd)) as [_ [_ [_ [_ H5]]]]. exact H5.
Qed.

(** Counterexample to C2 as stated: one overlay has the email input,
    another one the discount wording. *)
Lemma popupType_tie_break_counterexample :
  exists pd,
    fst (detectPopupsAndEmailPlatforms Sample.settings
           (Sample.on (Sample.page "https://shop.example.com/" Sample.two_overlays []
                         Sample.no_fault))) = Ok pd /\
    length (popupDetails pd) = 2%nat /\
    existsb (fun p => pd_hasEmailInput p && discountText p) (popupDetails pd) = false /\
    popupType pd = Some EmailAndDiscount /\
    popupType_per_overlay (popupDetails pd) = Some EmailSignup.
Proof.
  eexists. split; [vm_compute; reflexivity|].
  repeat split; vm_compute; reflexivity.
Qed.

(** ** C4: a fault in the check battery *)

Lemma check_issues_no_error (st : Settings) (p : Page) (probe : Probe) :
  filter is_error (check_issues st p probe) = [].
Proof.
  destruct probe; simpl; try reflexivity.
  - now destruct (meta_description p).
  - now destruct (0 <? images_without_alt p)%nat.
  - destruct (length (h1_texts p) =? 0)%nat; [reflexivity|].
    now destruct (1 <? length (h1_texts p))%nat.
  - now destruct (String.eqb (location_protocol p) "https:").
  - destruct (navigation_entry p); [|reflexivity].
    match goal with |- context [Js.double_gtb ?a ?b] => now destruct (Js.double_gtb a b) end.
Qed.

Lemma run_checks_fault (st : Settings) (p : Page) (before after : list Probe)
    (probe : Probe) (msg : string) :
  (forall q, In q before -> check_fault p q = None) ->
  check_fault p probe = Some msg ->
  run_checks st p (before ++ probe :: after) =
  flat_map (check_issues st p) before ++ [error_issue msg].
Proof.
  intros Hbefore Hprobe.
  induction before as [|q before IH]; cbn [app run_checks flat_map].
  - now rewrite Hprobe.
  - rewrite (Hbefore q (or_introl eq_refl)), IH.
    + now rewrite app_assoc.
    + intros q' Hq'. apply Hbefore. now right.
Qed.

Lemma filter_error_flat_map (st : Settings) (p : Page) (probes : list Probe) :
  filter is_error (flat_map (check_issues st p) probes) = [].
Proof.
  induction probes as [|q probes IH]; simpl; [reflexivity|].
  now rewrite filter_app, check_issues_no_error, IH.
Qed.

(** C4 (as the code has it). The battery is one [try] block: when a check
    faults, the issues of the checks before it are kept, exactly one
    Error-category issue is appended, and the checks after it are not run;
    the function returns the list and leaves the session as it was. *)
Theorem checks_fault_captured (st : Settings) (s : Session)
    (before after : list Probe) (probe : Probe) (msg : string) :
  battery_order = before ++ probe :: after ->
  (forall q, In q before -> check_fault (current s) q = None) ->
  check_fault (current s) probe = Some msg ->
  runAutomatedChecks st s =
    (Ok (flat_map (check_issues st (current s)) before ++ [error_issue msg]), s) /\
  filter is_error (flat_map (check_issues st (current s)) before ++ [error_issue msg]) =
    [error_issue msg].
Proof.
  intros Horder Hbefore Hprobe. split.
  - rewrite runAutomatedChecks_spec, Horder.
    now rewrite (run_checks_fault st (current s) before after probe msg Hbefore Hprobe).
  - now rewrite filter_app, filter_error_flat_map.
Qed.

Lemma checks_fault_captured_witness :
  runAutomatedChecks Sample.settings (Sample.on Sample.alt_check_fails) =
    (Ok [mkIssue SEO "Missing meta description";
         error_issue "Execution context was destroyed"],
     Sample.on Sample.alt_check_fails).
Proof.
  apply (checks_fault_captured Sample.settings (Sample.on Sample.alt_check_fails)
           [PMetaDescription] [PH1Count; PProtocol; PLoadTime] PImagesWithoutAlt
           "Execution context was destroyed").
  - reflexivity.
  - intros q [<-|[]]. reflexivity.
  - reflexivity.
Defined.

(** Counterexample to C4 as stated: the alt-text check faults; the H1,
    HTTPS and load-time checks would each have reported an issue on this
    page, and none of them is in the result. *)
Lemma checks_after_fault_counterexample :
  fst (runAutomatedChecks Sample.settings (Sample.on Sample.alt_check_fails)) =
    Ok [mkIssue SEO "Missing meta description";
        error_issue "Execution context was destroyed"] /\
  check_fault Sample.alt_check_fails PH1Count = None /\
  check_issues Sample.settings Sample.alt_check_fails PH1Count =
    [mkIssue SEO "No H1 tag found"] /\
  check_fault Sample.alt_check_fails PProtocol = None /\
  check_issues Sample.settings Sample.alt_check_fails PProtocol =
    [mkIssue Security "Site not using HTTPS"] /\
  check_fault Sample.alt_check_fails PLoadTime = None /\
  check_issues Sample.settings Sample.alt_check_fails PLoadTime =
    [mkIssue Performance "Slow page load time: 5000ms"].
Proof. repeat split; vm_compute; reflexivity. Qed.

(** ** C9: which anchors are product links *)

Lemma isProductHref_iff (href : string) :
  isProductHref href = true <-> ProductHref href.
Proof.
  unfold isProductHref, ProductHref, productPaths.
  rewrite !andb_true_iff, !orb_true_iff, negb_true_iff. split.
  - intros [[H Hhash] Hhttp]. split; [|tauto].
    decompose [or] H; eexists; (split; [|eassumption]); simpl; tauto.
  - intros [[sub [Hin Hsub]] [Hhash Hhttp]]. split; [split|]; try assumption.
    simpl in Hin. decompose [or] Hin; subst; tauto.
Qed.

Lemma slice0_negative {A} (n : Z) (xs : list A) :
  (n < 0)%Z -> Js.slice0 n xs = firstn (length xs - Z.to_nat (- n)) xs.
Proof.
  intros Hn. unfold Js.slice0.
  destruct (Z.ltb_spec n 0); [|lia]. f_equal. lia.
Qed.

(** C9 (as the code has it). The anchors that pass the filter are those
    whose lowercased URL contains one of the four path substrings,
    contains no [#] at all, and starts with [http]. Product URL discovery
    keeps, each once, those among the first [2 * maxProductPages] anchors
    that pass the filter, and no other URL; so it keeps every anchor that
    passes when at most [2 * maxProductPages] of them do. (A negative
    [maxProductPages] counts from the end: the last [- 2 * maxProductPages]
    passing anchors are left out.) A URL with a fragment suffix does not
    pass and is not kept. *)
Theorem findProductPages_keeps (st : Settings) (s : Session) :
  evaluate_fault (current s) PProductLinks = None ->
  let maxPages := Js.or_default (audit_field st maxProductPages) 3 in
  let passing := filter isProductHref (anchor_hrefs (current s)) in
  exists links,
    findProductPages st s = (Ok links, s) /\
    NoDup links /\
    (forall href, In href passing <-> In href (anchor_hrefs (current s)) /\ ProductHref href) /\
    ((0 <= maxPages)%Z ->
     forall href,
       In href links <-> In href (firstn (Z.to_nat (2 * maxPages)) passing)) /\
    ((maxPages < 0)%Z ->
     forall href,
       In href links <->
       In href (firstn (length passing - Z.to_nat (- (2 * maxPages))) passing)) /\
    ((Z.of_nat (length passing) <= 2 * maxPages)%Z ->
     forall href,
       In href links <-> In href (anchor_hrefs (current s)) /\ ProductHref href) /\
    (forall href, In href links -> In href (anchor_hrefs (current s)) /\ ProductHref href).
Proof.
  intros Hfault maxPages passing. exists (productLinks_of st (current s)).
  split; [apply findProductPages_spec|].
  unfold productLinks_of. rewrite Hfault. fold maxPages.
  unfold productLinksOf. fold passing.
  assert (Hpass : forall href,
            In href passing <-> In href (anchor_hrefs (current s)) /\ ProductHref href).
  { intros href. unfold passing. now rewrite filter_In, isProductHref_iff. }
  split; [apply unique_NoDup|]. split; [exact Hpass|].
  split; [|split; [|split]].
  - intros Hmax href. rewrite unique_In, slice0_firstn by lia.
    replace (2 * maxPages)%Z with (maxPages * 2)%Z by lia. reflexivity.
  - intros Hmax href. rewrite unique_In, slice0_negative by lia.
    replace (2 * maxPages)%Z with (maxPages * 2)%Z by lia. reflexivity.
  - intros Hcap href. rewrite unique_In, slice0_firstn by lia.
    rewrite firstn_all2 by lia. apply Hpass.
  - intros href Hin. rewrite unique_In in Hin. apply Hpass.
    revert Hin. apply Subsequence_In, Subsequence_slice0.
Qed.

Lemma findProductPages_keeps_witness :
  exists links,
    findProductPages Sample.settings (Sample.on Sample.repeated_anchor) =
      (Ok links, Sample.on Sample.repeated_anchor) /\
    NoDup links /\
    In "https://shop.example.com/products/a" links /\
    In "https://shop.example.com/products/b"
       (filter isProductHref (anchor_hrefs Sample.repeated_anchor)) /\
    ~ In "https://shop.example.com/products/b" links.
Proof.
  destruct (findProductPages_keeps Sample.settings (Sample.on Sample.repeated_anchor)
              eq_refl) as (links & E & Hnd & _ & Hfirst & _).
  exists links. split; [exact E|]. split; [exact Hnd|].
  assert (H0 : (0 <= Js.or_default (audit_field Sample.settings maxProductPages) 3)%Z)
    by (vm_compute; discriminate).
  split; [|split].
  - apply (Hfirst H0). vm_compute. tauto.
  - vm_compute. tauto.
  - intros Hin. apply (Hfirst H0) in Hin. vm_compute in Hin.
    repeat (destruct Hin as [Hin|Hin]; [discriminate|]). exact Hin.
Defined.

(** Counterexample to C9 as stated: an absolute product URL with a
    fragment suffix is dropped. *)
Lemma fragment_suffix_counterexample :
  Js.startsWith "https://shop.example.com/products/x#reviews" "http" = true /\
  Js.includes (Js.toLowerCase "https://shop.example.com/products/x#reviews")
              "/products/" = true /\
  fst (findProductPages Sample.settings
         (Sample.on (Sample.with_anchors
                       ["https://shop.example.com/products/x#reviews"]))) = Ok [].
Proof. repeat split; vm_compute; reflexivity. Qed.

(** ** The orchestrator *)

Section AuditorFacts.

Variable world : World.
Variable settings : Settings.

Lemma setViewport_Ok (v : Viewport) (s s' : Session) (u : unit) :
  setViewport world v s = (Ok u, s') -> viewport s' = v /\ current s' = current s.
Proof.
  unfold setViewport, fault_or.
  destruct (setViewport_fault world v); [discriminate|].
  intros H. inversion H; subst. now split.
Qed.

Lemma goto_Ok (url : string) (s s' : Session) (u : unit) :
  goto world url s = (Ok u, s') ->
  load world (viewport s) url = Ok (current s') /\ viewport s' = viewport s.
Proof.
  unfold goto. destruct (load world (viewport s) url) as [p|e]; [|discriminate].
  intros H. inversion H; subst. now split.
Qed.

(** The [catch] clause never returns: evaluating [siteName] throws. *)
Lemma auditWebsite_catch_throws (url : string) (error : JsError) (s : Session) :
  fst (auditWebsite_catch world url error s) =
  Throw (mkError ReferenceError "siteName is not defined").
Proof. reflexivity. Qed.

End AuditorFacts.

Ltac step H r s1 E :=
  cbv beta zeta in H;
  apply bind_Ok_inv in H; destruct H as [r [s1 [E H]]].

Section AuditSuccess.

Variable world : World.
Variable settings : Settings.

Lemma capturePage_name (pageName outputDir : string) (s s' : Session)
    (pc : PageCapture) :
  capturePage world settings pageName outputDir s = (Ok pc, s') ->
  pc_name pc = pageName.
Proof.
  intros H. unfold capturePage in H.
  step H u1 s1 E1. step H u2 s2 E2. step H info s3 E3.
  destruct info as [[[[title href] description] h1] loadTime].
  inversion H. reflexivity.
Qed.

Lemma productLoop_pages (k : nat) :
  forall i links dir pages s pages' s',
    productLoop world settings k i links dir pages s = (Ok pages', s') ->
    exists products,
      pages' = pages ++ products /\ length products = k /\
      Forall is_product_capture products.
Proof.
  induction k as [|k IH]; intros i links dir pages s pages' s' H; simpl in H.
  - inversion H; subst. exists []. now rewrite app_nil_r.
  - step H u1 s1 E1. step H u2 s2 E2. step H pc s3 E3.
    apply capturePage_name in E3.
    apply IH in H. destruct H as [products [-> [Hlen Hall]]].
    exists (pc :: products). rewrite <- app_assoc. split; [reflexivity|].
    split; [simpl; lia|]. constructor; [|assumption].
    now exists (i + 1)%nat.
Qed.

(** What a successful run of the [try] block has done. *)
Lemma auditWebsite_try_Ok (url : string) (s s' : Session) (d : AuditData) :
  auditWebsite_try world settings url s = (Ok d, s') ->
  viewport s' = defaultViewport /\
  ad_classification d = (if hasPopup (ad_popups d) then "popup_detected" else "no_popup") /\
  exists p home products mobile,
    load world defaultViewport url = Ok p /\
    ad_pages d = home :: products ++ [mobile] /\
    pc_name home = "homepage_desktop" /\
    pc_name mobile = "homepage_mobile" /\
    Forall is_product_capture products /\
    length products =
      (if isShopify_of p || isEcommerce_of p
       then Nat.min 3 (length (productLinks_of settings p)) else 0)%nat.
Proof.
  intros H. unfold auditWebsite_try in H.
  step H u1 s1 E1. apply setViewport_Ok in E1. destruct E1 as [V1 C1].
  step H hostname s2 E2.
  apply (stable_run _ _ _ _ (stable_url_hostname_of world url)) in E2.
  destruct E2 as [V2 C2].
  step H timestamp s3 E3.
  apply (stable_run _ _ _ _ (stable_date_now world)) in E3. destruct E3 as [V3 C3].
  step H u4 s4 E4.
  apply (stable_run _ _ _ _ (stable_mkdir world _)) in E4. destruct E4 as [V4 C4].
  step H created s5 E5.
  apply (stable_run _ _ _ _ (stable_iso_now world)) in E5. destruct E5 as [V5 C5].
  step H u6 s6 E6.
  apply (stable_run _ _ _ _ (stable_console_log _)) in E6. destruct E6 as [V6 C6].
  step H u7 s7 E7. apply goto_Ok in E7. destruct E7 as [L7 V7].
  step H isShopify s8 E8. rewrite detectShopify_spec in E8.
  inversion E8; subst isShopify s8; clear E8.
  step H u9 s9 E9.
  apply (stable_run _ _ _ _ (stable_console_log _)) in E9. destruct E9 as [V9 C9].
  step H popupData s10 E10.
  apply (stable_run _ _ _ _ (stable_detectPopups settings)) in E10.
  destruct E10 as [V10 C10].
  step H u11 s11 E11.
  apply (stable_run _ _ _ _ (stable_mkdir world _)) in E11. destruct E11 as [V11 C11].
  step H u12 s12 E12.
  apply (stable_run _ _ _ _ (stable_console_log _)) in E12. destruct E12 as [V12 C12].
  step H homepageData s13 E13.
  pose proof (capturePage_name _ _ _ _ _ E13) as N13.
  apply (stable_run _ _ _ _ (stable_capturePage world settings _ _)) in E13.
  destruct E13 as [V13 C13].
  step H performanceMetrics s14 E14.
  destruct (getPerformanceMetrics_total s13) as [m Hm]. rewrite Hm in E14.
  inversion E14; subst performanceMetrics s14; clear E14 Hm.
  step H ecommerce s15 E15.
  assert (Hecom : ecommerce = isShopify_of (current s7) || isEcommerce_of (current s13)
                  /\ s15 = s13).
  { destruct (isShopify_of (current s7)).
    - inversion E15. now split.
    - rewrite detectEcommerce_spec in E15. inversion E15. now split. }
  destruct Hecom as [-> ->]. clear E15.
  step H pages s16 E16.
  assert (Hpages : exists products,
            pages = homepageData :: products /\
            Forall is_product_capture products /\
            length products =
              (if isShopify_of (current s7) || isEcommerce_of (current s13)
               then Nat.min 3 (length (productLinks_of settings (current s13)))
               else 0)%nat).
  { destruct (isShopify_of (current s7) || isEcommerce_of (current s13)).
    - step E16 u16 s16a E16a.
      apply (stable_run _ _ _ _ (stable_console_log _)) in E16a.
      destruct E16a as [V16a C16a].
      step E16 productLinks s16b E16b.
      rewrite findProductPages_spec in E16b.
      inversion E16b; subst productLinks s16b; clear E16b.
      unfold captureProductPages in E16. apply productLoop_pages in E16.
      destruct E16 as [products [-> [Hlen Hall]]].
      exists products. rewrite C16a in Hlen. now repeat split.
    - inversion E16; subst. exists []. now repeat split. }
  destruct Hpages as [products [-> [Hall Hlen]]]. clear E16.
  step H u17 s17 E17. clear E17.
  step H u18 s18 E18. clear E18.
  step H u19 s19 E19. clear E19.
  step H mobileData s20 E20. apply capturePage_name in E20.
  step H u21 s21 E21. clear E21.
  step H u22 s22 E22. apply setViewport_Ok in E22. destruct E22 as [V22 _].
  step H issues s23 E23.
  apply (stable_run _ _ _ _ (stable_runAutomatedChecks settings)) in E23.
  destruct E23 as [V23 _].
  step H u24 s24 E24.
  apply (stable_run _ _ _ _ (stable_generateReport world _ _)) in E24.
  destruct E24 as [V24 _].
  step H u25 s25 E25.
  apply (stable_run _ _ _ _
           (stable_try_catch _ _ (stable_rmdir world _) (fun _ => stable_ret tt))) in E25.
  destruct E25 as [V25 _].
  step H u26 s26 E26.
  apply (stable_run _ _ _ _ (stable_console_log _)) in E26. destruct E26 as [V26 _].
  step H u27 s27 E27.
  apply (stable_run _ _ _ _ (stable_when _ _ (stable_console_log _))) in E27.
  destruct E27 as [V27 _].
  cbv beta zeta in H. inversion H; subst d s'; clear H.
  split; [congruence|]. split; [reflexivity|].
  exists (current s7), homepageData, products, mobileData.
  split; [rewrite <- L7; f_equal; congruence|].
  split; [reflexivity|]. split; [assumption|]. split; [assumption|].
  split; [assumption|].
  replace (current s13) with (current s7) in Hlen by congruence.
  exact Hlen.
Qed.

End AuditSuccess.

Section AuditOutcome.

Variable world : World.
Variable settings : Settings.

Lemma auditWebsite_unfold (url : string) (s : Session) :
  auditWebsite world settings url s =
  match auditWebsite_try world settings url (started url s) with
  | (Ok d, s1) => (Ok (Audited d), s1)
  | (Throw e, s1) => auditWebsite_catch world url e s1
  end.
Proof.
  unfold auditWebsite, started. unfold bind at 1. unfold try_catch, bind, ret.
  cbn [console_log emit snd].
  match goal with
  | |- context [auditWebsite_try world settings url ?s0] =>
      destruct (auditWebsite_try world settings url s0) as [[d|e] s1]
  end; reflexivity.
Qed.

(** Whatever the site does, [auditWebsite] either returns the data of a
    completed audit or throws the [ReferenceError] of its [catch] clause:
    it never returns an error record. *)
Lemma auditWebsite_outcome (url : string) (s : Session) :
  (exists d, fst (auditWebsite world settings url s) = Ok (Audited d)) \/
  fst (auditWebsite world settings url s) =
    Throw (mkError ReferenceError "siteName is not defined").
Proof.
  rewrite auditWebsite_unfold.
  destruct (auditWebsite_try world settings url (started url s)) as [[d|e] s1].
  - left. now exists d.
  - right. apply auditWebsite_catch_throws.
Qed.

Lemma auditWebsite_Ok_inv (url : string) (s : Session) (r : AuditResult) :
  fst (auditWebsite world settings url s) = Ok r ->
  exists d,
    r = Audited d /\
    auditWebsite_try world settings url (started url s) =
      (Ok d, snd (auditWebsite world settings url s)).
Proof.
  rewrite auditWebsite_unfold.
  destruct (auditWebsite_try world settings url (started url s)) as [[d|e] s1].
  - simpl. intros H. inversion H. now exists d.
  - rewrite auditWebsite_catch_throws. discriminate.
Qed.

End AuditOutcome.

(** ** C1: faults of an audit *)

(** C1 (the code at a failing input). The homepage navigation times out:
    [auditWebsite] does not return an error record, it throws the
    [ReferenceError] raised by [siteName] in its [catch] clause; the record
    that the batch loop gets is the one that its own [catch] builds, without
    site name and timestamp. *)
Theorem auditWebsite_timeout_escapes :
  fst (auditWebsite Sample.unreachable Sample.settings "https://slow.example.com"
         Sample.session) =
    Throw (mkError ReferenceError "siteName is not defined") /\
  fst (runBatch Sample.unreachable Sample.settings ["https://slow.example.com"]
         Sample.session) =
    Ok [Failed {| er_url := "https://slow.example.com";
                  er_siteName := None; er_timestamp := None;
                  er_error := "siteName is not defined";
                  er_success := false |}].
Proof. split; vm_compute; reflexivity. Qed.

(** ** C7: the classification *)

(** C7. In the result of a successful audit the classification is
    [popup_detected] when [popups.hasPopup] is true and [no_popup] when it
    is false; there is no other value. *)
Theorem classification_from_hasPopup (world : World) (settings : Settings)
    (url : string) (s : Session) (d : AuditData) :
  fst (auditWebsite world settings url s) = Ok (Audited d) ->
  (hasPopup (ad_popups d) = true -> ad_classification d = "popup_detected") /\
  (hasPopup (ad_popups d) = false -> ad_classification d = "no_popup") /\
  (ad_classification d = "popup_detected" \/ ad_classification d = "no_popup").
Proof.
  intros H. apply auditWebsite_Ok_inv in H. destruct H as [d' [Hd H]].
  inversion Hd; subst d'; clear Hd.
  apply auditWebsite_try_Ok in H. destruct H as [_ [Hc _]].
  rewrite Hc. destruct (hasPopup (ad_popups d)).
  - split; [reflexivity|]. split; [discriminate|]. now left.
  - split; [discriminate|]. split; [reflexivity|]. now right.
Qed.

Lemma classification_from_hasPopup_witness :
  exists d,
    fst (auditWebsite (Sample.always Sample.shop) Sample.settings
           "https://shop.example.com" Sample.session) = Ok (Audited d) /\
    hasPopup (ad_popups d) = true /\
    ad_classification d = "popup_detected".
Proof.
  destruct (fst (auditWebsite (Sample.always Sample.shop) Sample.settings
                   "https://shop.example.com" Sample.session))
    as [[d|r]|e] eqn:E; try (vm_compute in E; discriminate).
  exists d. split; [reflexivity|].
  assert (Hp : hasPopup (ad_popups d) = true).
  { pose proof E as E'. vm_compute in E'. inversion E'. reflexivity. }
  split; [exact Hp|].
  exact (proj1 (classification_from_hasPopup _ _ _ _ _ E) Hp).
Defined.

(** ** C3: how many product pages are captured *)




(** ** C6: the viewport between audits *)

Section Batch.

Variable world : World.
Variable settings : Settings.

Lemma auditWebsite_viewport (url : string) (s : Session) (d : AuditData) :
  fst (auditWebsite world settings url s) = Ok (Audited d) ->
  viewport (snd (auditWebsite world settings url s)) = defaultViewport.
Proof.
  intros H. apply auditWebsite_Ok_inv in H. destruct H as [d' [_ H]].
  apply auditWebsite_try_Ok in H. tauto.
Qed.

Lemma last_is_not_failed (rs rs' : list AuditResult) (d : AuditData) (r : ErrorRecord) :
  rs' ++ [Failed r] = rs ++ [Audited d] -> False.
Proof. intros H. apply app_inj_tail in H. destruct H as [_ H]. discriminate. Qed.

(** One turn of the loop of [main]: it does not throw, it adds at least
    one record, and it leaves the session [restored]. *)
Lemma auditLoop_turn (url : string) (rest : list string)
    (ls : list AuditResult * Session) :
  exists ls1,
    auditLoop world settings (url :: rest) ls = auditLoop world settings rest ls1 /\
    restored ls1.
Proof.
  cbn [auditLoop]. unfold bind at 1. unfold try_catch.
  unfold bind at 1. unfold lift at 1.
  pose proof (auditWebsite_viewport url (snd ls)) as Hvp.
  destruct (auditWebsite world settings url (snd ls)) as [[result|e] s1].
  - unfold bind at 1. unfold push_result at 1, modify_local at 1. cbn [fst snd].
    destruct (audit settings) as [a|].
    + destruct (delayBetweenAudits a) as [dl|].
      * destruct (0 <? dl)%Z; cbn [when lift sleep ret fst snd];
          eexists; (split; [reflexivity|]);
          intros rs d Hrs; cbn [fst snd] in *;
          apply app_inj_tail in Hrs; destruct Hrs as [_ ->];
          cbn [viewport]; now apply (Hvp d).
      * cbn [ret]. eexists. split; [reflexivity|].
        intros rs d Hrs. cbn [fst snd] in *.
        apply app_inj_tail in Hrs. destruct Hrs as [_ ->]. now apply (Hvp d).
    + cbn [throw bind lift console_error emit push_result modify_local fst snd].
      eexists. split; [reflexivity|].
      intros rs d Hrs. cbn [fst snd] in Hrs.
      exfalso. eapply last_is_not_failed. exact Hrs.
  - cbn [bind lift console_error emit push_result modify_local fst snd].
    eexists. split; [reflexivity|].
    intros rs d Hrs. cbn [fst snd] in Hrs.
    exfalso. eapply last_is_not_failed. exact Hrs.
Qed.

Lemma auditLoop_restored (websites : list string) :
  forall ls, restored ls ->
    exists ls', auditLoop world settings websites ls = (Ok tt, ls') /\ restored ls'.
Proof.
  induction websites as [|url rest IH]; intros ls Hls.
  - exists ls. now split.
  - destruct (auditLoop_turn url rest ls) as [ls1 [-> H1]]. now apply IH.
Qed.

End Batch.

(** When the last record of a batch is that of a completed audit, the
    batch ends on the desktop viewport. *)
Lemma runBatch_restored (world : World) (settings : Settings)
    (websites : list string) (s : Session) (rs : list AuditResult) (d : AuditData) :
  fst (runBatch world settings websites s) = Ok (rs ++ [Audited d]) ->
  viewport (snd (runBatch world settings websites s)) = defaultViewport.
Proof.
  unfold runBatch, with_local.
  assert (H0 : restored ([], s)).
  { intros rs0 d0 H. destruct rs0; discriminate. }
  destruct (auditLoop_restored world settings websites ([], s) H0) as [ls' [E Hr]].
  unfold bind. rewrite E. cbn [get_local fst snd].
  intros H. inversion H as [H']. now apply (Hr rs d).
Qed.

(** Counterexample to C6 as stated: the second of two audits fails while
    the mobile profile is applied, and the session is left on it. *)
Lemma viewport_after_failed_audit_counterexample :
  viewport (snd (runBatch (Sample.mixed Sample.shop) Sample.settings
                   ["https://shop.example.com"; "https://m.example.com"]
                   Sample.session)) = mobileViewport /\
  mobileViewport <> defaultViewport /\
  map counts_as_success
    (match fst (runBatch (Sample.mixed Sample.shop) Sample.settings
                  ["https://shop.example.com"; "https://m.example.com"]
                  Sample.session) with
     | Ok results => results
     | Throw _ => []
     end) = [true; false].
Proof.
  split; [vm_compute; reflexivity|]. split; [discriminate|].
  vm_compute. reflexivity.
Qed.

(** * Further properties of the auditor *)

(** ** Site names *)

Lemma replace_dots_length (s : string) :
  String.length (Js.replace_dots s) = String.length s.
Proof. induction s as [|c s IH]; simpl; [reflexivity | now rewrite IH]. Qed.

Lemma replace_dots_no_dot (s : string) :
  Js.includes (Js.replace_dots s) "." = false.
Proof.
  induction s as [|c s IH]; [reflexivity|].
  cbn [Js.replace_dots Js.includes]. rewrite IH, orb_false_r.
  cbn [String.prefix].
  destruct (Ascii.eqb_spec c "."%char) as [->|Hne].
  - reflexivity.
  - destruct (ascii_dec "."%char c) as [E|E]; [congruence | reflexivity].
Qed.

(** X1. The site name derived from a host name has the length of the host
    name, contains no dot, and is left as it is by a second pass. *)
Theorem siteName_sanitized (hostname : string) :
  String.length (Js.replace_dots hostname) = String.length hostname /\
  Js.includes (Js.replace_dots hostname) "." = false /\
  Js.replace_dots (Js.replace_dots hostname) = Js.replace_dots hostname.
Proof.
  split; [apply replace_dots_length|]. split; [apply replace_dots_no_dot|].
  induction hostname as [|c s IH]; simpl; [reflexivity|].
  rewrite IH. f_equal.
  destruct (Ascii.eqb_spec c "."%char) as [->|Hne]; [reflexivity|].
  destruct (Ascii.eqb_spec c "."%char); [contradiction | reflexivity].
Qed.

(** ** Email platforms and the popup finding *)

Lemma detectEmailPlatforms_registry (p : Page) :
  Subsequence (detectEmailPlatforms p) platformRegistry.
Proof.
  unfold detectEmailPlatforms, platformRegistry.
  repeat apply Subsequence_optional.
  match goal with |- Subsequence (if ?b then _ else _) _ => destruct b end;
    [apply Subsequence_refl | apply Subsequence_nil].
Qed.

Lemma detectPopups_finding (st : Settings) (s : Session) :
  fst (detectPopupsAndEmailPlatforms st s) = Ok (finding_of (current s)).
Proof.
  rewrite detectPopups_spec. unfold finding_of.
  destruct (evaluate_fault (current s) PEmailPlatforms);
    [|destruct (evaluate_fault (current s) PPopups)]; reflexivity.
Qed.

(** ** C8 and C10: what popup detection records *)







(** X2. The platforms that a detection reports are taken from the eight
    of the registry, in the order of the registry and each at most once;
    the primary platform is the first one reported, and there is none
    exactly when none is reported. *)
Theorem emailPlatforms_registry (st : Settings) (s : Session) :
  exists pd,
    fst (detectPopupsAndEmailPlatforms st s) = Ok pd /\
    Subsequence (emailPlatformDetails pd) platformRegistry /\
    NoDup (emailPlatformDetails pd) /\
    (length (emailPlatformDetails pd) <= 8)%nat /\
    emailPlatform pd = hd_error (emailPlatformDetails pd) /\
    (emailPlatform pd = None <-> emailPlatformDetails pd = []).
Proof.
  exists (finding_of (current s)). split; [apply detectPopups_finding|].
  assert (Hsub : Subsequence (emailPlatformDetails (finding_of (current s)))
                             platformRegistry).
  { unfold finding_of, full_finding, platforms_only.
    destruct (evaluate_fault (current s) PEmailPlatforms);
      [apply Subsequence_nil|].
    destruct (evaluate_fault (current s) PPopups);
      [apply detectEmailPlatforms_registry|].
    destruct (0 <? length (scanPopups (elements (current s))))%nat;
      apply detectEmailPlatforms_registry. }
  assert (Hhd : emailPlatform (finding_of (current s)) =
                hd_error (emailPlatformDetails (finding_of (current s)))).
  { unfold finding_of, full_finding, platforms_only.
    destruct (evaluate_fault (current s) PEmailPlatforms); [reflexivity|].
    destruct (evaluate_fault (current s) PPopups);
      [|destruct (0 <? length (scanPopups (elements (current s))))%nat];
      cbn [set_popupType set_popups set_platforms emailPlatform emailPlatformDetails];
      now destruct (detectEmailPlatforms (current s)). }
  split; [exact Hsub|]. split.
  { apply (Subsequence_NoDup _ _ Hsub). unfold platformRegistry.
    repeat constructor; simpl; intuition discriminate. }
  split; [apply (Subsequence_length _ _ Hsub)|]. split; [exact Hhd|].
  rewrite Hhd. destruct (emailPlatformDetails (finding_of (current s)));
    simpl; split; intros H; try reflexivity; discriminate.
Qed.

(** X3. In every finding, [hasPopup], a non-empty [popupDetails] and a
    popup type go together; when the overlay scan ran, [popupDetails] is
    its result, and when a probe faulted there is no popup. *)
Theorem popupFinding_invariant (st : Settings) (s : Session) :
  exists pd,
    fst (detectPopupsAndEmailPlatforms st s) = Ok pd /\
    (hasPopup pd = true <-> popupDetails pd <> []) /\
    (hasPopup pd = true <-> popupType pd <> None) /\
    (evaluate_fault (current s) PEmailPlatforms = None ->
     evaluate_fault (current s) PPopups = None ->
     popupDetails pd = scanPopups (elements (current s))) /\
    (evaluate_fault (current s) PEmailPlatforms <> None \/
     evaluate_fault (current s) PPopups <> None ->
     hasPopup pd = false).
Proof.
  exists (finding_of (current s)). split; [apply detectPopups_finding|].
  unfold finding_of, full_finding, platforms_only.
  destruct (evaluate_fault (current s) PEmailPlatforms) as [m1|];
    [|destruct (evaluate_fault (current s) PPopups) as [m2|]].
  - cbn. repeat split; try discriminate; try congruence.
  - cbn. repeat split; try discriminate; try congruence.
  - destruct (scanPopups (elements (current s))) as [|d ds] eqn:E.
    + cbn. repeat split; try discriminate; try congruence.
    + cbn [length Nat.ltb Nat.leb set_popupType set_popups hasPopup popupDetails
           popupType].
      unfold classifyPopups. cbn [length Nat.ltb Nat.leb].
      repeat split; try discriminate; try congruence;
        try (intros [H|H]; congruence).
      all: intros _;
        destruct (existsb pd_hasEmailInput (d :: ds));
        destruct (existsb discountText (d :: ds)); discriminate.
Qed.

(** ** Product links *)

Lemma productLinksOf_Subsequence (maxPages : Z) (hrefs : list string) :
  Subsequence (Js.unique (productLinksOf maxPages hrefs)) hrefs.
Proof.
  unfold Js.unique, productLinksOf.
  eapply Subsequence_trans; [apply Subsequence_set_insert_all|].
  eapply Subsequence_trans; [apply Subsequence_slice0|].
  apply Subsequence_filter.
Qed.

(** X4. Whatever the page holds and whatever the settings are, product
    discovery returns without throwing and without touching the session.
    When the page evaluation faults it returns no link at all. The links
    are anchors of the page in document order, each once, every one
    passes the filter, and for a non-negative [maxProductPages] there are
    at most [2 * maxProductPages] of them. *)
Theorem findProductPages_bounds (st : Settings) (s : Session) :
  exists links,
    findProductPages st s = (Ok links, s) /\
    (evaluate_fault (current s) PProductLinks <> None -> links = []) /\
    Subsequence links (anchor_hrefs (current s)) /\
    NoDup links /\
    Forall (fun href => isProductHref href = true) links /\
    ((0 <= Js.or_default (audit_field st maxProductPages) 3)%Z ->
     (Z.of_nat (length links) <= 2 * Js.or_default (audit_field st maxProductPages) 3)%Z).
Proof.
  exists (productLinks_of st (current s)).
  split; [apply findProductPages_spec|].
  unfold productLinks_of.
  destruct (evaluate_fault (current s) PProductLinks) as [msg|].
  - split; [reflexivity|]. split; [apply Subsequence_nil|]. split; [constructor|].
    split; [constructor|]. intros Hpos. cbn [length]. lia.
  - split; [congruence|]. split; [apply productLinksOf_Subsequence|].
    split; [apply unique_NoDup|]. split.
    + apply Forall_forall. intros href Hin. rewrite unique_In in Hin.
      unfold productLinksOf in Hin.
      assert (Hin' : In href (filter isProductHref (anchor_hrefs (current s)))).
      { revert Hin. apply Subsequence_In, Subsequence_slice0. }
      apply filter_In in Hin'. tauto.
    + intros Hpos.
      pose proof (Subsequence_length _ _
                    (Subsequence_set_insert_all []
                       (productLinksOf (Js.or_default (audit_field st maxProductPages) 3)
                          (anchor_hrefs (current s))))) as Hlen.
      fold (Js.unique (productLinksOf (Js.or_default (audit_field st maxProductPages) 3)
                         (anchor_hrefs (current s)))) in Hlen.
      unfold productLinksOf in Hlen at 2.
      rewrite slice0_firstn in Hlen by lia.
      rewrite length_firstn in Hlen. lia.
Qed.

Lemma findProductPages_bounds_witness :
  findProductPages Sample.settings (Sample.on Sample.links_unreadable) =
    (Ok [], Sample.on Sample.links_unreadable) /\
  exists links,
    findProductPages Sample.settings (Sample.on Sample.repeated_anchor) =
      (Ok links, Sample.on Sample.repeated_anchor) /\
    Subsequence links (anchor_hrefs Sample.repeated_anchor) /\
    NoDup links /\
    (Z.of_nat (length links) <= 2 * 3)%Z.
Proof.
  split.
  - destruct (findProductPages_bounds Sample.settings (Sample.on Sample.links_unreadable))
      as (links & E & Hf & _).
    rewrite E, Hf; [reflexivity|]. vm_compute. discriminate.
  - destruct (findProductPages_bounds Sample.settings (Sample.on Sample.repeated_anchor))
      as (links & E & _ & Hs & Hn & _ & Hb).
    exists links. split; [exact E|]. split; [exact Hs|]. split; [exact Hn|].
    apply Hb. vm_compute. discriminate.
Defined.

(** ** Settings that are zero *)

Lemma or_default_zero (d : Z) : Js.or_default (Some 0%Z) d = d.
Proof. reflexivity. Qed.

Lemma or_default_nonzero (x : option Z) (d : Z) :
  d <> 0%Z -> Js.or_default x d <> 0%Z.
Proof.
  intros Hd. unfold Js.or_default. destruct x as [v|]; [|assumption].
  destruct (Z.eqb_spec v 0); assumption.
Qed.


(** X6. [maxProductPages: 0] does not switch product discovery off: the
    setting is then taken to be 3, as when it is missing. *)
Theorem maxProductPages_zero_is_default (s : Session) (a : AuditSettings)
    (pf : option PerformanceSettings) :
  maxProductPages a = Some 0%Z \/ maxProductPages a = None ->
  findProductPages {| audit := Some a; performance := pf |} s =
  findProductPages
    {| audit := Some {| navigationTimeout := navigationTimeout a;
                        pageLoadDelay := pageLoadDelay a;
                        popupDetectionDelay := popupDetectionDelay a;
                        maxProductPages := Some 3%Z;
                        delayBetweenAudits := delayBetweenAudits a |};
       performance := pf |} s.
Proof.
  intros H. rewrite !findProductPages_spec. unfold productLinks_of, audit_field.
  cbn [audit maxProductPages]. destruct H as [-> | ->]; reflexivity.
Qed.

Lemma maxProductPages_zero_is_default_witness :
  fst (findProductPages
         {| audit := Some {| navigationTimeout := None; pageLoadDelay := None;
                             popupDetectionDelay := None; maxProductPages := Some 0%Z;
                             delayBetweenAudits := None |};
            performance := None |}
         (Sample.on Sample.two_products)) =
  Ok ["https://shop.example.com/products/a"; "https://shop.example.com/products/b"].
Proof.
  rewrite (maxProductPages_zero_is_default (Sample.on Sample.two_products)
             {| navigationTimeout := None; pageLoadDelay := None;
                popupDetectionDelay := None; maxProductPages := Some 0%Z;
                delayBetweenAudits := None |} None (or_introl eq_refl)).
  vm_compute. reflexivity.
Defined.

(** ** The check battery without faults *)

Lemma run_checks_no_fault (st : Settings) (p : Page) (probes : list Probe) :
  (forall q, In q probes -> check_fault p q = None) ->
  run_checks st p probes = flat_map (check_issues st p) probes.
Proof.
  induction probes as [|q probes IH]; intros H; cbn [run_checks flat_map].
  - reflexivity.
  - rewrite (H q (or_introl eq_refl)), IH; [reflexivity|].
    intros q' Hq'. apply H. now right.
Qed.

Ltac subsequence :=
  repeat first [ apply sub_nil | apply sub_keep | apply sub_skip ].

(** X7. When no check faults, the battery returns without throwing and
    without touching the session: what each of the five checks reports, in
    the order of the checks; so at most five issues, their categories in
    the order SEO, Accessibility, SEO, Security, Performance, and none of
    category Error. *)
Theorem checks_without_fault (st : Settings) (s : Session) :
  (forall q, In q battery_order -> check_fault (current s) q = None) ->
  exists issues,
    runAutomatedChecks st s = (Ok issues, s) /\
    issues = flat_map (check_issues st (current s)) battery_order /\
    Subsequence (map issue_type issues) [SEO; Accessibility; SEO; Security; Performance] /\
    (length issues <= 5)%nat /\
    filter is_error issues = [].
Proof.
  intros H. exists (flat_map (check_issues st (current s)) battery_order).
  split; [now rewrite runAutomatedChecks_spec, run_checks_no_fault|].
  split; [reflexivity|].
  assert (Hsub : Subsequence
            (map issue_type (flat_map (check_issues st (current s)) battery_order))
            [SEO; Accessibility; SEO; Security; Performance]).
  { unfold battery_order. cbn [flat_map check_issues].
    destruct (meta_description (current s));
      destruct (0 <? images_without_alt (current s))%nat;
      (destruct (length (h1_texts (current s)) =? 0)%nat;
       [|destruct (1 <? length (h1_texts (current s)))%nat]);
      destruct (String.eqb (location_protocol (current s)) "https:");
      (destruct (navigation_entry (current s));
       [match goal with |- context [Js.double_gtb ?a ?b] => destruct (Js.double_gtb a b) end|]);
      cbn [app map issue_type]; subsequence. }
  split; [exact Hsub|]. split.
  - apply Subsequence_length in Hsub. now rewrite length_map in Hsub.
  - apply filter_error_flat_map.
Qed.

Lemma checks_without_fault_witness :
  (forall q, In q battery_order -> check_fault Sample.neglected q = None) /\
  runAutomatedChecks Sample.settings (Sample.on Sample.neglected) =
    (Ok [ mkIssue SEO "Missing meta description";
          mkIssue Accessibility "2 images missing alt text";
          mkIssue SEO "No H1 tag found";
          mkIssue Security "Site not using HTTPS";
          mkIssue Performance "Slow page load time: 5416ms" ],
     Sample.on Sample.neglected) /\
  runAutomatedChecks Sample.settings (Sample.on Sample.at_threshold) =
    (Ok [], Sample.on Sample.at_threshold).
Proof.
  assert (H : forall q, In q battery_order -> check_fault Sample.neglected q = None).
  { intros q Hq. cbn in Hq.
    repeat (destruct Hq as [<-|Hq]; [reflexivity|]). contradiction. }
  assert (H' : forall q, In q battery_order -> check_fault Sample.at_threshold q = None).
  { intros q Hq. cbn in Hq.
    repeat (destruct Hq as [<-|Hq]; [reflexivity|]). contradiction. }
  split; [exact H|]. split.
  - destruct (checks_without_fault Sample.settings (Sample.on Sample.neglected) H)
      as (issues & E & Eq & _).
    rewrite E, Eq. vm_compute. reflexivity.
  - destruct (checks_without_fault Sample.settings (Sample.on Sample.at_threshold) H')
      as (issues & E & Eq & _).
    rewrite E, Eq. vm_compute. reflexivity.
Defined.

(** ** The alt-text check *)

Lemma check_issues_accessibility (st : Settings) (p : Page) (probe : Probe) :
  probe <> PImagesWithoutAlt ->
  filter is_accessibility (check_issues st p probe) = [].
Proof.
  intros Hne. destruct probe; simpl; try reflexivity; try congruence.
  - now destruct (meta_description p).
  - destruct (length (h1_texts p) =? 0)%nat; [reflexivity|].
    now destruct (1 <? length (h1_texts p))%nat.
  - now destruct (String.eqb (location_protocol p) "https:").
  - destruct (navigation_entry p); [|reflexivity].
    match goal with |- context [Js.double_gtb ?a ?b] => now destruct (Js.double_gtb a b) end.
Qed.

Lemma run_checks_accessibility (st : Settings) (p : Page) (probes : list Probe) :
  ~ In PImagesWithoutAlt probes ->
  filter is_accessibility (run_checks st p probes) = [].
Proof.
  induction probes as [|q probes IH]; intros Hn; cbn [run_checks].
  - reflexivity.
  - destruct (check_fault p q); [reflexivity|].
    rewrite filter_app, check_issues_accessibility, IH; [reflexivity| |].
    + intros Hin. apply Hn. now right.
    + intros ->. apply Hn. now left.
Qed.

Lemma run_checks_cons (st : Settings) (p : Page) (q : Probe) (rest : list Probe) :
  check_fault p q = None ->
  run_checks st p (q :: rest) = check_issues st p q ++ run_checks st p rest.
Proof. intros H. cbn [run_checks]. now rewrite H. Qed.

(** X8. When the first two checks do not fault, the result has exactly
    one Accessibility issue if the page has images without [alt], and its
    text gives their number; it has none if every image has [alt]. This
    holds whatever happens to the later checks. *)
Theorem alt_text_issue (st : Settings) (s : Session) :
  check_fault (current s) PMetaDescription = None ->
  check_fault (current s) PImagesWithoutAlt = None ->
  exists issues,
    runAutomatedChecks st s = (Ok issues, s) /\
    filter is_accessibility issues =
      if (0 <? images_without_alt (current s))%nat
      then [mkIssue Accessibility
              (Js.string_of_nat (images_without_alt (current s)) ++
               " images missing alt text")]
      else [].
Proof.
  intros H1 H2. eexists. split; [apply runAutomatedChecks_spec|].
  unfold battery_order.
  rewrite (run_checks_cons st _ _ _ H1), (run_checks_cons st _ _ _ H2).
  rewrite !filter_app, check_issues_accessibility by discriminate.
  rewrite run_checks_accessibility.
  - cbn [check_issues app]. rewrite app_nil_r.
    destruct (0 <? images_without_alt (current s))%nat; reflexivity.
  - cbn. intuition discriminate.
Qed.

Lemma alt_text_issue_witness :
  exists issues,
    runAutomatedChecks Sample.settings (Sample.on Sample.shop) =
      (Ok issues, Sample.on Sample.shop) /\
    filter is_accessibility issues = [].
Proof.
  apply (alt_text_issue Sample.settings (Sample.on Sample.shop)); reflexivity.
Defined.

(** ** Performance *)

Lemma getPerformanceMetrics_spec (s : Session) :
  getPerformanceMetrics s = (Ok (metrics_of (current s)), s).
Proof.
  unfold getPerformanceMetrics, metrics_of, try_catch, bind, evaluate, ret.
  destruct (evaluate_fault (current s) PPerformance); [reflexivity|].
  destruct (navigation_entry (current s)); reflexivity.
Qed.

Lemma check_issues_performance (st : Settings) (p : Page) (probe : Probe) :
  probe <> PLoadTime ->
  filter is_performance (check_issues st p probe) = [].
Proof.
  intros Hne. destruct probe; simpl; try reflexivity; try congruence.
  - now destruct (meta_description p).
  - now destruct (0 <? images_without_alt p)%nat.
  - destruct (length (h1_texts p) =? 0)%nat; [reflexivity|].
    now destruct (1 <? length (h1_texts p))%nat.
  - now destruct (String.eqb (location_protocol p) "https:").
Qed.

(** X9. Reading the performance metrics never throws and leaves the
    session alone. Without a navigation entry, or when the read faults,
    the snapshot is empty. Otherwise the load time of the snapshot is
    [Math.round] of the double that the subtraction of the two stamps
    gives, and likewise the DOM-content-loaded time; the counts are those
    of the document. When the check battery runs on the same page and none
    of its checks faults, it reports a Performance issue exactly when that
    double exceeds the slow-load threshold, and the issue quotes the load
    time of the snapshot. *)
Theorem performance_snapshot (st : Settings) (s : Session) :
  exists snapshot,
    getPerformanceMetrics s = (Ok snapshot, s) /\
    (navigation_entry (current s) = None \/
     evaluate_fault (current s) PPerformance <> None ->
     snapshot = None) /\
    (forall navigation,
       navigation_entry (current s) = Some navigation ->
       evaluate_fault (current s) PPerformance = None ->
       exists m,
         snapshot = Some m /\
         m_loadTime m =
           Js.Math_round_double (loadEventEnd navigation - fetchStart navigation)%float /\
         m_domContentLoaded m =
           Js.Math_round_double
             (domContentLoadedEventEnd navigation - fetchStart navigation)%float /\
         m_imageCount m = image_count (current s) /\
         m_linkCount m = link_count (current s) /\
         m_scriptCount m = script_count (current s) /\
         ((forall q, In q battery_order -> check_fault (current s) q = None) ->
          exists issues,
            runAutomatedChecks st s = (Ok issues, s) /\
            filter is_performance issues =
              if Js.double_gtb (loadEventEnd navigation - fetchStart navigation)%float
                   (slowThreshold_of st)
              then [mkIssue Performance
                      ("Slow page load time: " ++ Js.rounded_text (m_loadTime m) ++ "ms")]
              else [])).
Proof.
  exists (metrics_of (current s)).
  split; [apply getPerformanceMetrics_spec|]. unfold metrics_of. split.
  - intros [H|H].
    + rewrite H. now destruct (evaluate_fault (current s) PPerformance).
    + destruct (evaluate_fault (current s) PPerformance); [reflexivity | congruence].
  - intros navigation Hnav Hf. rewrite Hnav, Hf. eexists. split; [reflexivity|].
    cbn [m_loadTime m_domContentLoaded m_imageCount m_linkCount m_scriptCount].
    repeat (split; [reflexivity|]).
    intros Hno. eexists. split; [apply runAutomatedChecks_spec|].
    rewrite (run_checks_no_fault _ _ _ Hno). unfold battery_order.
    cbn [flat_map]. rewrite !filter_app, !check_issues_performance by discriminate.
    cbn [app filter check_issues]. rewrite Hnav. unfold slowThreshold_of.
    match goal with |- context [Js.double_gtb ?a ?b] => destruct (Js.double_gtb a b) end;
      reflexivity.
Qed.

Lemma performance_snapshot_witness :
  exists m,
    fst (getPerformanceMetrics (Sample.on Sample.neglected)) = Ok (Some m) /\
    m_loadTime m = Js.Integer 5416 /\
    exists issues,
      runAutomatedChecks Sample.settings (Sample.on Sample.neglected) =
        (Ok issues, Sample.on Sample.neglected) /\
      filter is_performance issues =
        [mkIssue Performance "Slow page load time: 5416ms"].
Proof.
  destruct (performance_snapshot Sample.settings (Sample.on Sample.neglected))
    as (snapshot & E & _ & H).
  destruct (H _ eq_refl eq_refl) as (m & -> & Hl & _ & _ & _ & _ & Hi).
  exists m. rewrite E. split; [reflexivity|]. split.
  - rewrite Hl. vm_compute. reflexivity.
  - destruct Hi as (issues & Ei & Hf).
    + intros q Hq. cbn in Hq.
      repeat (destruct Hq as [<-|Hq]; [reflexivity|]). contradiction.
    + exists issues. split; [exact Ei|]. rewrite Hf, Hl. vm_compute. reflexivity.
Defined.

(** ** E-commerce detection *)

Lemma detectEcommerce_false_without_words (p : Page) (t : string) :
  body_text p = Some t ->
  Js.includes (Js.toLowerCase t) "add to cart" = false ->
  some_element p (AttrContains AClass "add-to-cart") = false ->
  some_element p (AttrContains AId "add-to-cart") = false ->
  Js.includes (Js.toLowerCase t) "product" = false ->
  Js.includes (Js.toLowerCase t) "shop" = false ->
  isEcommerce_of p = false.
Proof.
  intros Hb H1 H2 H3 H4 H5. unfold isEcommerce_of.
  destruct (evaluate_fault p PEcommerce); [reflexivity|].
  rewrite Hb. cbv zeta. rewrite H1, H2, H3, H4, H5.
  cbn [orb]. now rewrite andb_false_r.
Qed.

(** X10. E-commerce detection never throws and leaves the session alone;
    its answer is no when the probe faults or the document has no body,
    and prices alone never make a shop: without an add-to-cart phrase or
    element, a page whose text has neither [product] nor [shop] is not
    e-commerce, whatever prices it shows. *)
Theorem ecommerce_needs_shop_words (s : Session) :
  exists b,
    detectEcommerce s = (Ok b, s) /\
    (evaluate_fault (current s) PEcommerce <> None \/ body_text (current s) = None ->
     b = false) /\
    (forall t,
       body_text (current s) = Some t ->
       Js.includes (Js.toLowerCase t) "add to cart" = false ->
       some_element (current s) (AttrContains AClass "add-to-cart") = false ->
       some_element (current s) (AttrContains AId "add-to-cart") = false ->
       Js.includes (Js.toLowerCase t) "product" = false ->
       Js.includes (Js.toLowerCase t) "shop" = false ->
       b = false).
Proof.
  exists (isEcommerce_of (current s)). split; [apply detectEcommerce_spec|]. split.
  - unfold isEcommerce_of. intros [H|H].
    + destruct (evaluate_fault (current s) PEcommerce); [reflexivity | congruence].
    + rewrite H. now destruct (evaluate_fault (current s) PEcommerce).
  - intros t. apply detectEcommerce_false_without_words.
Qed.

(** ** Effects on the browser and the file system *)

Lemma effects_app (tr1 tr2 : list Event) :
  effects (tr1 ++ tr2) = effects tr1 ++ effects tr2.
Proof. apply filter_app. Qed.

Lemma silent_run {A} (m : M Session A) (s s' : Session) (r : Outcome A) :
  silent m -> m s = (r, s') -> effects (trace s') = effects (trace s).
Proof. intros Hm E. specialize (Hm s). now rewrite E in Hm. Qed.

Lemma silent_ret {A} (a : A) : silent (ret a).
Proof. intros s. reflexivity. Qed.

Lemma silent_throw {A} (e : JsError) : silent (@throw Session A e).
Proof. intros s. reflexivity. Qed.

Lemma silent_bind {A B} (m : M Session A) (k : A -> M Session B) :
  silent m -> (forall a, silent (k a)) -> silent (bind m k).
Proof.
  intros Hm Hk s. unfold bind. specialize (Hm s).
  destruct (m s) as [[a|e] s1]; simpl in *.
  - rewrite <- Hm. apply Hk.
  - assumption.
Qed.

Lemma silent_try_catch {A} (m : M Session A) (h : JsError -> M Session A) :
  silent m -> (forall e, silent (h e)) -> silent (try_catch m h).
Proof.
  intros Hm Hh s. unfold try_catch. specialize (Hm s).
  destruct (m s) as [[a|e] s1]; simpl in *.
  - assumption.
  - rewrite <- Hm. apply Hh.
Qed.

Lemma silent_console_log (msg : string) : silent (console_log msg).
Proof.
  intros s. unfold console_log, emit. cbn [snd trace].
  rewrite effects_app. cbn. apply app_nil_r.
Qed.

Lemma silent_console_error (msg : string) : silent (console_error msg).
Proof.
  intros s. unfold console_error, emit. cbn [snd trace].
  rewrite effects_app. cbn. apply app_nil_r.
Qed.

Lemma silent_sleep (ms : Z) : silent (sleep ms).
Proof.
  intros s. unfold sleep. cbn [snd trace].
  rewrite effects_app. cbn. apply app_nil_r.
Qed.

Lemma silent_date_now (w : World) : silent (date_now w).
Proof. intros s. reflexivity. Qed.

Lemma silent_evaluate {A} (probe : Probe) (f : Page -> Outcome A) :
  silent (evaluate probe f).
Proof.
  intros s. unfold evaluate.
  destruct (evaluate_fault (current s) probe); reflexivity.
Qed.

Lemma silent_when (b : bool) (m : M Session unit) : silent m -> silent (when b m).
Proof. intros Hm. destruct b; simpl; [assumption | apply silent_ret]. Qed.

Lemma silent_detectPopups (st : Settings) : silent (detectPopupsAndEmailPlatforms st).
Proof.
  intros s. rewrite detectPopups_spec.
  destruct (evaluate_fault (current s) PEmailPlatforms);
    [|destruct (evaluate_fault (current s) PPopups)];
    cbn [snd warned after_delay sleep emit trace];
    rewrite !effects_app; cbn; now rewrite ?app_nil_r.
Qed.

Section Effects.

Variable world : World.
Variable settings : Settings.

Lemma silent_iso_now : silent (iso_now world).
Proof.
  unfold iso_now. apply silent_bind; [apply silent_date_now|].
  intros t. apply silent_ret.
Qed.

Lemma silent_url_hostname_of (url : string) : silent (url_hostname_of world url).
Proof.
  unfold url_hostname_of.
  destruct (url_hostname world url); [apply silent_ret | apply silent_throw].
Qed.

(** What a primitive that acts on the outside has done when it returns. *)
Lemma fault_or_emit_Ok (f : option string) (ev : Event) (s s' : Session) (u : unit) :
  fault_or f (emit ev) s = (Ok u, s') ->
  f = None /\ trace s' = trace s ++ [ev] /\
  viewport s' = viewport s /\ current s' = current s /\ clock s' = clock s.
Proof.
  destruct f; simpl; [discriminate|].
  unfold emit. intros H. inversion H; subst. now repeat split.
Qed.

Lemma fault_or_emit_Throw (f : option string) (ev : Event) (s s' : Session)
    (e : JsError) :
  fault_or f (emit ev) s = (Throw e, s') -> s' = s.
Proof.
  destruct f; simpl; [|unfold emit; discriminate].
  unfold throw. intros H. now inversion H.
Qed.

Lemma setViewport_Ok_trace (v : Viewport) (s s' : Session) (u : unit) :
  setViewport world v s = (Ok u, s') ->
  trace s' = trace s ++ [EvSetViewport v] /\ clock s' = clock s.
Proof.
  unfold setViewport, fault_or.
  destruct (setViewport_fault world v); [discriminate|].
  intros H. inversion H; subst. now split.
Qed.

Lemma goto_Ok_trace (url : string) (s s' : Session) (u : unit) :
  goto world url s = (Ok u, s') -> trace s' = trace s ++ [EvGoto url].
Proof.
  unfold goto. destruct (load world (viewport s) url); [|discriminate].
  intros H. now inversion H.
Qed.

Lemma goto_Throw (url : string) (s s' : Session) (e : JsError) :
  goto world url s = (Throw e, s') -> s' = s.
Proof.
  unfold goto. destruct (load world (viewport s) url); [discriminate|].
  intros H. now inversion H.
Qed.

(** X11. Capturing a page waits (never 0 ms: 2000 when [pageLoadDelay]
    is missing or 0), then takes the screenshot at [outputDir/name.png],
    then reads the metadata. A screenshot fault leaves no screenshot and no
    capture. A fault of the metadata read also fails the capture, after
    the screenshot was written. When nothing faults, the capture has the
    given name and path, the title and address of the page, and empty
    strings for a missing description or heading. *)
Theorem capturePage_outcomes (pageName outputDir : string) (s : Session) :
  let path := mkPath outputDir (pageName ++ ".png") in
  let delay := Js.or_default (audit_field settings pageLoadDelay) 2000 in
  delay <> 0%Z /\
  match screenshot_fault world path, evaluate_fault (current s) PPageInfo with
  | Some msg, _ =>
      fst (capturePage world settings pageName outputDir s) = Throw (mkError Error msg) /\
      trace (snd (capturePage world settings pageName outputDir s)) =
        trace s ++ [EvSleep delay]
  | None, Some msg =>
      fst (capturePage world settings pageName outputDir s) = Throw (mkError Error msg) /\
      trace (snd (capturePage world settings pageName outputDir s)) =
        trace s ++ [EvSleep delay; EvScreenshot path]
  | None, None =>
      fst (capturePage world settings pageName outputDir s) =
        Ok {| pc_name := pageName; pc_screenshot := path;
              pc_title := document_title (current s);
              pc_url := location_href (current s);
              pc_description :=
                match meta_description (current s) with Some c => c | None => "" end;
              pc_h1 := hd "" (h1_texts (current s));
              pc_loadTime := performance_now (current s) |} /\
      trace (snd (capturePage world settings pageName outputDir s)) =
        trace s ++ [EvSleep delay; EvScreenshot path]
  end.
Proof.
  intros path delay. split; [apply or_default_nonzero; discriminate|].
  unfold capturePage, bind, screenshot, fault_or, evaluate, sleep, emit, throw, ret.
  fold path. fold delay. cbn [fst snd current trace].
  destruct (screenshot_fault world path) as [m1|].
  - split; reflexivity.
  - cbn [fst snd current trace].
    destruct (evaluate_fault (current s) PPageInfo) as [m2|].
    + split; [reflexivity|]. cbn [snd trace]. now rewrite <- app_assoc.
    + split.
      * cbn [fst]. destruct (h1_texts (current s)); reflexivity.
      * cbn [snd trace]. now rewrite <- app_assoc.
Qed.

Lemma capturePage_Ok_effects (pageName outputDir : string) (s s' : Session)
    (pc : PageCapture) :
  capturePage world settings pageName outputDir s = (Ok pc, s') ->
  pc_name pc = pageName /\
  pc_screenshot pc = mkPath outputDir (pageName ++ ".png") /\
  pc_url pc = location_href (current s) /\
  effects (trace s') =
    effects (trace s) ++ [EvScreenshot (mkPath outputDir (pageName ++ ".png"))] /\
  clock s' = (clock s + Z.max (Js.or_default (audit_field settings pageLoadDelay) 2000) 0)%Z /\
  pc_title pc = document_title (current s).
Proof.
  intros H.
  destruct (capturePage_outcomes pageName outputDir s) as [_ Hc].
  cbv zeta in Hc. rewrite H in Hc. cbn [fst snd] in Hc.
  assert (Hclock : clock s' =
            (clock s + Z.max (Js.or_default (audit_field settings pageLoadDelay) 2000) 0)%Z).
  { revert H. unfold capturePage, bind, screenshot, fault_or, evaluate, sleep, emit,
      throw, ret. cbn [fst snd current trace clock].
    destruct (screenshot_fault world _); [discriminate|].
    cbn [fst snd current trace clock].
    destruct (evaluate_fault (current s) PPageInfo); [discriminate|].
    intros H. now inversion H. }
  destruct (screenshot_fault world (mkPath outputDir (pageName ++ ".png")));
    [destruct Hc; discriminate|].
  destruct (evaluate_fault (current s) PPageInfo); [destruct Hc; discriminate|].
  destruct Hc as [Hpc Htr]. inversion Hpc; subst pc. cbn.
  repeat split; try reflexivity; try assumption.
  rewrite Htr, effects_app. reflexivity.
Qed.

Lemma generateReport_Ok_effects (d : AuditData) (outputDir : string) (s s' : Session)
    (u : unit) :
  generateReport world d outputDir s = (Ok u, s') ->
  effects (trace s') =
    effects (trace s) ++ [EvWriteFile (mkPath outputDir "audit_report.html");
                          EvWriteFile (mkPath outputDir "audit_data.json")].
Proof.
  unfold generateReport. intros H.
  apply bind_Ok_inv in H. destruct H as [u1 [s1 [E1 E2]]].
  apply fault_or_emit_Ok in E1. apply fault_or_emit_Ok in E2.
  destruct E1 as [_ [T1 _]]. destruct E2 as [_ [T2 _]].
  rewrite T2, T1, !effects_app, <- app_assoc. reflexivity.
Qed.

(** Removing the temporary directory never throws. *)
Lemma cleanup_effects (dir : string) (s : Session) :
  exists s',
    try_catch (rmdir world dir) (fun _ => ret tt) s = (Ok tt, s') /\
    viewport s' = viewport s /\
    effects (trace s') =
      effects (trace s) ++
      match rmdir_fault world dir with
      | None => [EvRmdir dir]
      | Some _ => []
      end.
Proof.
  unfold try_catch, rmdir, fault_or.
  destruct (rmdir_fault world dir).
  - exists s. cbn. now rewrite app_nil_r.
  - eexists. cbn [emit]. split; [reflexivity|]. split; [reflexivity|].
    cbn [trace]. now rewrite effects_app.
Qed.

End Effects.

(** ** What a completed audit has done *)

Section CompletedAudit.

Variable world : World.
Variable settings : Settings.

Lemma productLoop_detail (k : nat) :
  forall i links dir pages s pages' s',
    productLoop world settings k i links dir pages s = (Ok pages', s') ->
    exists products,
      pages' = pages ++ products /\
      map pc_name products = map product_name (seq i k) /\
      Forall (fun pc => path_dir (pc_screenshot pc) = dir) products /\
      (forall j, (j < k)%nat ->
         exists pg pc,
           load world (viewport s) (nth (i + j) links "") = Ok pg /\
           nth_error products j = Some pc /\
           pc_url pc = location_href pg /\
           pc_title pc = document_title pg) /\
      effects (trace s') =
        effects (trace s) ++ flat_map (product_turn links dir) (seq i k) /\
      viewport s' = viewport s.
Proof.
  induction k as [|k IH]; intros i links dir pages s pages' s' H; simpl in H.
  - inversion H; subst. exists []. rewrite !app_nil_r.
    repeat split; try constructor. intros j Hj. lia.
  - step H u1 s1 E1. step H u2 s2 E2. step H pc s3 E3.
    pose proof (silent_run _ _ _ _ (silent_console_log _) E1) as T1.
    apply (stable_run _ _ _ _ (stable_console_log _)) in E1. destruct E1 as [V1 _].
    pose proof (goto_Ok_trace world _ _ _ _ E2) as T2.
    apply goto_Ok in E2. destruct E2 as [L2 V2].
    pose proof (stable_run _ _ _ _ (stable_capturePage world settings _ _) E3) as [V3 _].
    apply capturePage_Ok_effects in E3. destruct E3 as [N3 [P3 [U3 [T3 [_ Ti3]]]]].
    apply IH in H. destruct H as [products [-> [Hn [Hd [Hl [Ht Hv]]]]]].
    exists (pc :: products). rewrite <- app_assoc. split; [reflexivity|].
    split; [cbn [map seq]; rewrite N3, Hn; reflexivity|].
    split; [constructor; [now rewrite P3 | assumption]|].
    split.
    { intros [|j] Hj.
      - rewrite Nat.add_0_r. rewrite V1 in L2. exists (current s2), pc.
        split; [exact L2|]. split; [reflexivity|]. split; assumption.
      - destruct (Hl j ltac:(lia)) as (pg & pc' & Hpg & Hrest).
        exists pg, pc'. split; [|exact Hrest].
        rewrite <- Hpg. f_equal; [congruence|]. f_equal. lia. }
    split; [|congruence].
    rewrite Ht, T3, T2, effects_app, T1. cbn [seq flat_map product_turn].
    rewrite <- !app_assoc. reflexivity.
Qed.

Lemma url_hostname_of_Ok (url hostname : string) (s s' : Session) :
  url_hostname_of world url s = (Ok hostname, s') ->
  url_hostname world url = Some hostname /\ s' = s.
Proof.
  unfold url_hostname_of. destruct (url_hostname world url); [|discriminate].
  intros H. inversion H. now split.
Qed.

Lemma auditWebsite_try_record (url : string) (s s' : Session) (d : AuditData) :
  auditWebsite_try world settings url s = (Ok d, s') ->
  exists hostname p pm,
    url_hostname world url = Some hostname /\
    load world defaultViewport url = Ok p /\
    load world mobileViewport url = Ok pm /\
    ad_url d = url /\
    ad_siteName d = Js.replace_dots hostname /\
    ad_timestamp d =
      toISOString world (created_at world (Js.replace_dots hostname) (trace s)) /\
    ad_popups d = finding_of p /\
    ad_isShopify d = isShopify_of p /\
    ad_performance d = metrics_of p /\
    ad_issues d = run_checks settings pm battery_order /\
    ad_outputDirectory d =
      outputDirectory_of (hasPopup (finding_of p)) (Js.replace_dots hostname)
        (stamp_at world (trace s)) /\
    map pc_name (ad_pages d) =
      "homepage_desktop" :: map product_name (seq 0 (product_count settings p)) ++
      ["homepage_mobile"] /\
    Forall (fun pc => path_dir (pc_screenshot pc) = ad_outputDirectory d) (ad_pages d) /\
    (forall j, (j < product_count settings p)%nat ->
       exists pg pc,
         load world defaultViewport (nth j (productLinks_of settings p) "") = Ok pg /\
         nth_error (ad_pages d) (S j) = Some pc /\
         pc_url pc = location_href pg /\
         pc_title pc = document_title pg) /\
    effects (trace s') =
      effects (trace s) ++
      audit_effects world settings url (Js.replace_dots hostname)
        (stamp_at world (trace s)) p.
Proof.
  intros H. unfold auditWebsite_try in H.
  step H u1 s1 E1.
  pose proof (setViewport_Ok_trace world _ _ _ _ E1) as [T1 K1].
  apply setViewport_Ok in E1. destruct E1 as [V1 C1].
  step H hostname s2 E2. apply url_hostname_of_Ok in E2. destruct E2 as [Hhost ->].
  step H timestamp s3 E3. inversion E3; subst timestamp s3; clear E3.
  step H u4 s4 E4. apply fault_or_emit_Ok in E4.
  destruct E4 as [_ [T4 [V4 [C4 K4]]]].
  step H created s5 E5. inversion E5; subst created s5; clear E5.
  step H u6 s6 E6.
  pose proof (silent_run _ _ _ _ (silent_console_log _) E6) as T6.
  apply (stable_run _ _ _ _ (stable_console_log _)) in E6. destruct E6 as [V6 C6].
  step H u7 s7 E7. pose proof (goto_Ok_trace world _ _ _ _ E7) as T7.
  apply goto_Ok in E7. destruct E7 as [L7 V7].
  step H isShopify s8 E8. rewrite detectShopify_spec in E8.
  inversion E8; subst isShopify s8; clear E8.
  step H u9 s9 E9.
  pose proof (silent_run _ _ _ _ (silent_console_log _) E9) as T9.
  apply (stable_run _ _ _ _ (stable_console_log _)) in E9. destruct E9 as [V9 C9].
  step H popupData s10 E10.
  pose proof (detectPopups_finding settings s9) as F10. rewrite E10 in F10.
  cbn [fst] in F10. inversion F10; subst popupData; clear F10.
  pose proof (silent_run _ _ _ _ (silent_detectPopups settings) E10) as T10.
  apply (stable_run _ _ _ _ (stable_detectPopups settings)) in E10.
  destruct E10 as [V10 C10].
  step H u11 s11 E11. apply fault_or_emit_Ok in E11.
  destruct E11 as [_ [T11 [V11 [C11 _]]]].
  step H u12 s12 E12.
  pose proof (silent_run _ _ _ _ (silent_console_log _) E12) as T12.
  apply (stable_run _ _ _ _ (stable_console_log _)) in E12. destruct E12 as [V12 C12].
  step H homepageData s13 E13.
  pose proof (stable_run _ _ _ _ (stable_capturePage world settings _ _) E13) as [V13 C13].
  apply capturePage_Ok_effects in E13. destruct E13 as [N13 [P13 [_ [T13 _]]]].
  step H performanceMetrics s14 E14. rewrite getPerformanceMetrics_spec in E14.
  inversion E14; subst performanceMetrics s14; clear E14.
  step H ecommerce s15 E15.
  assert (Hecom : ecommerce = isShopify_of (current s7) || isEcommerce_of (current s13)
                  /\ s15 = s13).
  { destruct (isShopify_of (current s7)).
    - inversion E15. now split.
    - rewrite detectEcommerce_spec in E15. inversion E15. now split. }
  destruct Hecom as [-> ->]. clear E15.
  assert (Cp : current s13 = current s7) by congruence.
  assert (Vp : viewport s13 = defaultViewport) by congruence.
  rewrite Cp in *.
  set (p := current s7) in *.
  set (siteName := Js.replace_dots hostname) in *.
  set (dir := ("./audits/" ++ (if hasPopup (finding_of (current s9))
                               then "popup_detected" else "no_popup") ++ "/" ++
               siteName ++ "_" ++ Js.string_of_Z (now world (trace s1)))%string) in *.
  step H pages s16 E16.
  assert (Hpages : exists products,
            pages = homepageData :: products /\
            map pc_name products = map product_name (seq 0 (product_count settings p)) /\
            Forall (fun pc => path_dir (pc_screenshot pc) = dir) products /\
            (forall j, (j < product_count settings p)%nat ->
               exists pg pc,
                 load world defaultViewport (nth j (productLinks_of settings p) "") = Ok pg /\
                 nth_error products j = Some pc /\
                 pc_url pc = location_href pg /\
                 pc_title pc = document_title pg) /\
            effects (trace s16) =
              effects (trace s13) ++
              flat_map (product_turn (productLinks_of settings p) dir)
                       (seq 0 (product_count settings p)) /\
            viewport s16 = viewport s13).
  { unfold product_count.
    destruct (isShopify_of p || isEcommerce_of p).
    - step E16 u16 s16a E16a.
      pose proof (silent_run _ _ _ _ (silent_console_log _) E16a) as T16a.
      apply (stable_run _ _ _ _ (stable_console_log _)) in E16a.
      destruct E16a as [V16a C16a].
      step E16 productLinks s16b E16b.
      rewrite findProductPages_spec in E16b.
      inversion E16b; subst productLinks s16b; clear E16b.
      unfold captureProductPages in E16. apply productLoop_detail in E16.
      destruct E16 as [products [-> [Hn [Hd [Hl [Ht Hv]]]]]].
      rewrite C16a, Cp in *. fold p in Hn, Hl, Ht.
      exists products. split; [reflexivity|]. split; [exact Hn|].
      split; [exact Hd|]. split.
      + intros j Hj. destruct (Hl j Hj) as (pg & pc & Hpg & Hrest). exists pg, pc.
        split; [|exact Hrest]. rewrite <- Hpg. f_equal. congruence.
      + split; [now rewrite Ht, T16a | congruence].
    - inversion E16; subst. exists []. cbn. rewrite app_nil_r.
      repeat split; try constructor. intros j Hj. lia. }
  destruct Hpages as [products [-> [Hn [Hd [Hl [T16 V16]]]]]]. clear E16.
  step H u17 s17 E17.
  pose proof (silent_run _ _ _ _ (silent_console_log _) E17) as T17. clear E17.
  step H u18 s18 E18.
  pose proof (setViewport_Ok_trace world _ _ _ _ E18) as [T18 _].
  apply setViewport_Ok in E18. destruct E18 as [V18 _].
  step H u19 s19 E19. pose proof (goto_Ok_trace world _ _ _ _ E19) as T19.
  apply goto_Ok in E19. destruct E19 as [L19 _].
  step H mobileData s20 E20.
  pose proof (stable_run _ _ _ _ (stable_capturePage world settings _ _) E20) as [_ C20].
  apply capturePage_Ok_effects in E20. destruct E20 as [N20 [P20 [_ [T20 _]]]].
  step H u21 s21 E21.
  pose proof (silent_run _ _ _ _ (silent_console_log _) E21) as T21.
  apply (stable_run _ _ _ _ (stable_console_log _)) in E21. destruct E21 as [_ C21].
  step H u22 s22 E22.
  pose proof (setViewport_Ok_trace world _ _ _ _ E22) as [T22 _].
  apply setViewport_Ok in E22. destruct E22 as [_ C22].
  step H issues s23 E23. rewrite runAutomatedChecks_spec in E23.
  inversion E23; subst issues s23; clear E23.
  step H u24 s24 E24. apply generateReport_Ok_effects in E24.
  step H u25 s25 E25.
  match type of E25 with
  | try_catch (rmdir world ?t) _ _ = _ =>
      destruct (cleanup_effects world t s24) as [s25' [E25' [_ T25]]];
      rewrite E25' in E25; inversion E25; subst s25'; clear E25 E25'
  end.
  step H u26 s26 E26.
  pose proof (silent_run _ _ _ _ (silent_console_log _) E26) as T26. clear E26.
  step H u27 s27 E27.
  pose proof (silent_run _ _ _ _ (silent_when _ _ (silent_console_log _)) E27) as T27.
  clear E27.
  cbv beta zeta in H. inversion H; subst d s'; clear H.
  assert (C9p : current s9 = p) by exact C9.
  assert (K : now world (trace s1) = stamp_at world (trace s))
    by (unfold stamp_at; now rewrite T1).
  exists hostname, p, (current s19).
  split; [exact Hhost|].
  split; [rewrite <- L7; f_equal; congruence|].
  split; [rewrite <- L19; f_equal; congruence|].
  cbn [ad_url ad_siteName ad_timestamp ad_popups ad_isShopify ad_performance
       ad_issues ad_outputDirectory ad_pages].
  split; [reflexivity|]. split; [reflexivity|].
  split.
  { unfold created_at, tempDirectory_of. fold siteName.
    rewrite <- K, T4, T1, <- app_assoc. reflexivity. }
  split; [now rewrite C9p|].
  split; [reflexivity|]. split; [reflexivity|].
  split; [now rewrite C22, C21, C20|].
  assert (Hdir : dir = outputDirectory_of (hasPopup (finding_of p)) siteName
                         (stamp_at world (trace s))).
  { unfold dir, outputDirectory_of. now rewrite C9p, K. }
  split; [exact Hdir|].
  split.
  { cbn [map app]. rewrite map_app. cbn [map]. now rewrite N13, N20, Hn. }
  split.
  { fold dir. constructor; [now rewrite P13|].
    apply Forall_app. split; [exact Hd|].
    constructor; [now rewrite P20 | constructor]. }
  split.
  { intros j Hj. destruct (Hl j Hj) as (pg & pc & Hpg & Hnth & Hrest).
    exists pg, pc. split; [exact Hpg|]. split; [|exact Hrest].
    cbn [app nth_error]. rewrite nth_error_app1; [exact Hnth|].
    apply nth_error_Some. congruence. }
  rewrite T27, T26, T25, E24, T22, effects_app, T21, T20, T19, effects_app, T18,
    effects_app, T17, T16, T13, T12, T11, effects_app, T10, T9, T7, effects_app, T6,
    T4, effects_app, T1, effects_app.
  unfold audit_effects, tempDirectory_of. fold siteName.
  rewrite <- Hdir. fold (stamp_at world (trace s)). cbn [effects filter is_effect].
  rewrite <- !app_assoc. reflexivity.
Qed.

End CompletedAudit.

Section CompletedAuditFacts.

Variable world : World.
Variable settings : Settings.

Lemma auditWebsite_record (url : string) (s : Session) (d : AuditData) :
  fst (auditWebsite world settings url s) = Ok (Audited d) ->
  exists hostname p pm,
    url_hostname world url = Some hostname /\
    load world defaultViewport url = Ok p /\
    load world mobileViewport url = Ok pm /\
    ad_url d = url /\
    ad_siteName d = Js.replace_dots hostname /\
    ad_timestamp d =
      toISOString world
        (created_at world (Js.replace_dots hostname) (trace (started url s))) /\
    ad_popups d = finding_of p /\
    ad_isShopify d = isShopify_of p /\
    ad_performance d = metrics_of p /\
    ad_issues d = run_checks settings pm battery_order /\
    ad_outputDirectory d =
      outputDirectory_of (hasPopup (finding_of p)) (Js.replace_dots hostname)
        (stamp_at world (trace (started url s))) /\
    map pc_name (ad_pages d) =
      "homepage_desktop" :: map product_name (seq 0 (product_count settings p)) ++
      ["homepage_mobile"] /\
    Forall (fun pc => path_dir (pc_screenshot pc) = ad_outputDirectory d) (ad_pages d) /\
    (forall j, (j < product_count settings p)%nat ->
       exists pg pc,
         load world defaultViewport (nth j (productLinks_of settings p) "") = Ok pg /\
         nth_error (ad_pages d) (S j) = Some pc /\
         pc_url pc = location_href pg /\
         pc_title pc = document_title pg) /\
    effects (trace (snd (auditWebsite world settings url s))) =
      effects (trace s) ++
      audit_effects world settings url (Js.replace_dots hostname)
        (stamp_at world (trace (started url s))) p.
Proof.
  intros H. apply auditWebsite_Ok_inv in H. destruct H as [d' [Hd H]].
  inversion Hd; subst d'; clear Hd.
  apply auditWebsite_try_record in H.
  destruct H as [hostname [p [pm H]]]. exists hostname, p, pm.
  assert (Hs : effects (trace (started url s)) = effects (trace s))
    by apply silent_console_log.
  rewrite Hs in H. exact H.
Qed.

End CompletedAuditFacts.

(** X12. The record of a completed audit carries the URL it was given
    and, as site name, the host name of that URL with its dots replaced.
    The audit reads the clock twice. The first reading, [Date.now()], is
    taken once the desktop viewport is applied: it names the output
    directory [./audits/<classification>/<siteName>_<reading>], in which
    every screenshot of the record lies. The second reading, [new Date()],
    is taken once the temporary directory exists: its ISO text is the
    timestamp of the record. Nothing makes the two readings agree. *)
Theorem audit_record_identity (world : World) (settings : Settings)
    (url : string) (s : Session) (d : AuditData) :
  fst (auditWebsite world settings url s) = Ok (Audited d) ->
  let begun := (trace s ++ [EvConsole LLog ("Starting audit for: " ++ url)])%list in
  let first_reading := now world (begun ++ [EvSetViewport defaultViewport]) in
  let second_reading :=
    now world
      (begun ++
       [EvSetViewport defaultViewport;
        EvMkdir ("./audits/temp_" ++ ad_siteName d ++ "_" ++
                 Js.string_of_Z first_reading)%string]) in
  exists hostname,
    url_hostname world url = Some hostname /\
    ad_url d = url /\
    ad_siteName d = Js.replace_dots hostname /\
    ad_outputDirectory d =
      ("./audits/" ++ ad_classification d ++ "/" ++ ad_siteName d ++ "_" ++
       Js.string_of_Z first_reading)%string /\
    ad_timestamp d = toISOString world second_reading /\
    Forall (fun pc => path_dir (pc_screenshot pc) = ad_outputDirectory d) (ad_pages d).
Proof.
  intros H begun first_reading second_reading.
  assert (Hc : ad_classification d =
               if hasPopup (ad_popups d) then "popup_detected" else "no_popup").
  { destruct (auditWebsite_Ok_inv _ _ _ _ _ H) as [d' [Hd Ht]].
    inversion Hd; subst d'. apply auditWebsite_try_Ok in Ht. tauto. }
  apply auditWebsite_record in H.
  destruct H as (hostname & p & pm & H1 & H2 & H3 & H4 & H5 & H6 & H7 & H8 & H9 & H10 &
                 H11 & H12 & H13 & H14 & H15).
  exists hostname. split; [assumption|]. split; [assumption|]. split; [assumption|].
  split; [|split; [|assumption]].
  - rewrite H11, Hc, H5, H7. reflexivity.
  - rewrite H6. unfold second_reading, first_reading, begun. rewrite H5. reflexivity.
Qed.

Lemma audit_record_identity_witness :
  exists d,
    fst (auditWebsite (Sample.ticking (fun _ _ => Ok Sample.shop)) Sample.settings
           "https://shop.example.com" Sample.session) = Ok (Audited d) /\
    ad_siteName d = "shop_example_com" /\
    ad_outputDirectory d =
      "./audits/popup_detected/shop_example_com_1700000000002" /\
    ad_timestamp d = "1700000000003".
Proof.
  destruct (fst (auditWebsite (Sample.ticking (fun _ _ => Ok Sample.shop)) Sample.settings
                   "https://shop.example.com" Sample.session))
    as [[d|r]|e] eqn:E; try (vm_compute in E; discriminate).
  destruct (audit_record_identity _ _ _ _ _ E) as (hostname & Hh & _ & Hs & Hd & Ht & _).
  exists d. split; [reflexivity|].
  vm_compute in Hh. injection Hh as <-.
  assert (Hn : ad_siteName d = "shop_example_com") by exact Hs.
  assert (Hk : ad_classification d = "popup_detected").
  { vm_compute in E. injection E as <-. reflexivity. }
  split; [exact Hn|]. split.
  - rewrite Hd, Hn, Hk. vm_compute. reflexivity.
  - rewrite Ht, Hn. vm_compute. reflexivity.
Defined.

(** X13. In the record of a completed audit, the platform flag, the popup
    finding and the performance snapshot are those of the homepage as
    loaded on the desktop profile, and the issues are those of the check
    battery on the homepage as loaded on the mobile profile. *)
Theorem audit_findings_sources (world : World) (settings : Settings)
    (url : string) (s : Session) (d : AuditData) :
  fst (auditWebsite world settings url s) = Ok (Audited d) ->
  exists p pm,
    load world defaultViewport url = Ok p /\
    load world mobileViewport url = Ok pm /\
    ad_isShopify d = isShopify_of p /\
    ad_popups d = finding_of p /\
    ad_performance d = metrics_of p /\
    ad_issues d = run_checks settings pm battery_order.
Proof.
  intros H. apply auditWebsite_record in H.
  destruct H as (hostname & p & pm & H1 & H2 & H3 & H4 & H5 & H6 & H7 & H8 & H9 & H10 &
                 H11 & H12 & H13 & H14 & H15).
  exists p, pm. repeat split; assumption.
Qed.

Lemma audit_findings_sources_witness :
  exists d p pm,
    fst (auditWebsite (Sample.by_profile Sample.shop Sample.alt_check_fails)
           Sample.settings "https://shop.example.com" Sample.session) = Ok (Audited d) /\
    load (Sample.by_profile Sample.shop Sample.alt_check_fails) defaultViewport
         "https://shop.example.com" = Ok p /\
    load (Sample.by_profile Sample.shop Sample.alt_check_fails) mobileViewport
         "https://shop.example.com" = Ok pm /\
    ad_isShopify d = isShopify_of p /\
    ad_popups d = finding_of p /\
    ad_performance d = metrics_of p /\
    ad_issues d = run_checks Sample.settings pm battery_order.
Proof.
  destruct (fst (auditWebsite (Sample.by_profile Sample.shop Sample.alt_check_fails)
                   Sample.settings "https://shop.example.com" Sample.session))
    as [[d|r]|e] eqn:E; try (vm_compute in E; discriminate).
  destruct (audit_findings_sources _ _ _ _ _ E) as [p [pm H]].
  exists d, p, pm. split; [reflexivity | exact H].
Defined.

Lemma product_name_at (k j : nat) (first last : string) :
  (j < k)%nat ->
  nth_error (first :: map product_name (seq 0 k) ++ [last]) (S j) =
  Some (product_name j).
Proof.
  intros Hj. cbn [nth_error].
  rewrite nth_error_app1 by (now rewrite length_map, length_seq).
  rewrite (nth_error_map product_name j (seq 0 k)).
  rewrite (nth_error_nth' (seq 0 k) 0%nat) by (now rewrite length_seq).
  rewrite seq_nth by exact Hj. reflexivity.
Qed.

(** X14. A completed audit has captured the desktop homepage, then the
    product pages [product_1_desktop], [product_2_desktop], ..., then the
    mobile homepage. The product pages are those of the first min(3, n)
    discovered links, in the order of the links: the capture at position
    [j + 1] of the record is named [product_<j+1>_desktop], and its URL
    and title are those of the page that the link number [j] loads on the
    desktop profile. The browser went to these links and took their
    screenshots one after the other, in that order. Each of them was
    loaded: a product link that cannot be loaded is not skipped, the audit
    does not complete. *)
Theorem product_captures_in_order (world : World) (settings : Settings)
    (url : string) (s : Session) (d : AuditData) :
  fst (auditWebsite world settings url s) = Ok (Audited d) ->
  exists p,
    load world defaultViewport url = Ok p /\
    map pc_name (ad_pages d) =
      "homepage_desktop" :: map product_name (seq 0 (product_count settings p)) ++
      ["homepage_mobile"] /\
    (product_count settings p <= 3)%nat /\
    (product_count settings p <= length (productLinks_of settings p))%nat /\
    (forall j, (j < product_count settings p)%nat ->
       exists pg pc,
         load world defaultViewport (nth j (productLinks_of settings p) "") = Ok pg /\
         nth_error (ad_pages d) (S j) = Some pc /\
         pc_name pc = product_name j /\
         pc_url pc = location_href pg /\
         pc_title pc = document_title pg) /\
    (exists before after,
       effects (trace (snd (auditWebsite world settings url s))) =
         before ++
         flat_map
           (fun j =>
              [EvGoto (nth j (productLinks_of settings p) "");
               EvScreenshot (mkPath (ad_outputDirectory d) (product_name j ++ ".png"))])
           (seq 0 (product_count settings p)) ++
         after).
Proof.
  intros H. apply auditWebsite_record in H.
  destruct H as (hostname & p & pm & H1 & H2 & H3 & H4 & H5 & H6 & H7 & H8 & H9 & H10 &
                 H11 & H12 & H13 & H14 & H15).
  exists p. split; [assumption|]. split; [assumption|].
  split; [unfold product_count; destruct (isShopify_of p || isEcommerce_of p); lia|].
  split; [unfold product_count; destruct (isShopify_of p || isEcommerce_of p); lia|].
  split.
  - intros j Hj. destruct (H14 j Hj) as (pg & pc & Hpg & Hnth & Hu & Ht).
    exists pg, pc. split; [exact Hpg|]. split; [exact Hnth|].
    split; [|split; assumption].
    pose proof (map_nth_error pc_name _ _ Hnth) as Hm.
    rewrite H12, (product_name_at _ _ _ _ Hj) in Hm. congruence.
  - rewrite H15, H11. unfold audit_effects. cbv zeta.
    eexists. eexists. rewrite app_assoc. reflexivity.
Qed.

Lemma product_captures_in_order_witness :
  exists d p,
    fst (auditWebsite (Sample.always Sample.two_products) Sample.settings
           "https://shop.example.com" Sample.session) = Ok (Audited d) /\
    load (Sample.always Sample.two_products) defaultViewport
         "https://shop.example.com" = Ok p /\
    map pc_name (ad_pages d) =
      ["homepage_desktop"; "product_1_desktop"; "product_2_desktop"; "homepage_mobile"] /\
    (forall j, (j < 2)%nat ->
       exists pg pc,
         load (Sample.always Sample.two_products) defaultViewport
              (nth j (productLinks_of Sample.settings p) "") = Ok pg /\
         nth_error (ad_pages d) (S j) = Some pc /\
         pc_name pc = product_name j /\
         pc_url pc = location_href pg /\
         pc_title pc = document_title pg).
Proof.
  destruct (fst (auditWebsite (Sample.always Sample.two_products) Sample.settings
                   "https://shop.example.com" Sample.session))
    as [[d|r]|e] eqn:E; try (vm_compute in E; discriminate).
  destruct (product_captures_in_order _ _ _ _ _ E) as (p & Hp & Hn & _ & _ & Hj & _).
  exists d, p. split; [reflexivity|]. split; [exact Hp|].
  assert (Hk : product_count Sample.settings p = 2%nat).
  { vm_compute in Hp. injection Hp as <-. vm_compute. reflexivity. }
  rewrite Hk in Hn, Hj. split; [exact Hn | exact Hj].
Defined.

(** X15. The effects of a completed audit on the browser and the file
    system are, in this order: desktop viewport, temporary directory,
    homepage, output directory, desktop screenshot; for each product page
    its navigation and its screenshot; mobile viewport, homepage, mobile
    screenshot, desktop viewport; the HTML report, then the JSON record;
    and the removal of the temporary directory unless that removal
    fails. *)
Theorem audit_effects_in_order (world : World) (settings : Settings)
    (url : string) (s : Session) (d : AuditData) :
  fst (auditWebsite world settings url s) = Ok (Audited d) ->
  exists p,
    load world defaultViewport url = Ok p /\
    effects (trace (snd (auditWebsite world settings url s))) =
      effects (trace s) ++
      audit_effects world settings url (ad_siteName d)
        (stamp_at world (trace (started url s))) p.
Proof.
  intros H. apply auditWebsite_record in H.
  destruct H as (hostname & p & pm & H1 & H2 & H3 & H4 & H5 & H6 & H7 & H8 & H9 & H10 &
                 H11 & H12 & H13 & H14 & H15).
  exists p. split; [assumption|]. rewrite H5. exact H15.
Qed.

Lemma audit_effects_in_order_witness :
  exists d p,
    fst (auditWebsite (Sample.always Sample.two_products) Sample.settings
           "https://shop.example.com" Sample.session) = Ok (Audited d) /\
    load (Sample.always Sample.two_products) defaultViewport
         "https://shop.example.com" = Ok p /\
    effects (trace (snd (auditWebsite (Sample.always Sample.two_products) Sample.settings
                            "https://shop.example.com" Sample.session))) =
      effects (trace Sample.session) ++
      audit_effects (Sample.always Sample.two_products) Sample.settings
        "https://shop.example.com" (ad_siteName d)
        (stamp_at (Sample.always Sample.two_products)
           (trace (started "https://shop.example.com" Sample.session))) p.
Proof.
  destruct (fst (auditWebsite (Sample.always Sample.two_products) Sample.settings
                   "https://shop.example.com" Sample.session))
    as [[d|r]|e] eqn:E; try (vm_compute in E; discriminate).
  destruct (audit_effects_in_order _ _ _ _ _ E) as [p H].
  exists d, p. split; [reflexivity | exact H].
Defined.

(** ** What a failed audit leaves behind *)

Lemma rmdir_of_app (tr1 tr2 : list Event) :
  filter is_rmdir (tr1 ++ tr2) = filter is_rmdir tr1 ++ filter is_rmdir tr2.
Proof. apply filter_app. Qed.

Lemma no_rmdir_run {A} (m : M Session A) (s s' : Session) (r : Outcome A) :
  no_rmdir m -> m s = (r, s') -> filter is_rmdir (trace s') = filter is_rmdir (trace s).
Proof. intros Hm E. specialize (Hm s). now rewrite E in Hm. Qed.

Lemma no_rmdir_ret {A} (a : A) : no_rmdir (ret a).
Proof. intros s. reflexivity. Qed.

Lemma no_rmdir_throw {A} (e : JsError) : no_rmdir (@throw Session A e).
Proof. intros s. reflexivity. Qed.

Lemma no_rmdir_bind {A B} (m : M Session A) (k : A -> M Session B) :
  no_rmdir m -> (forall a, no_rmdir (k a)) -> no_rmdir (bind m k).
Proof.
  intros Hm Hk s. unfold bind. specialize (Hm s).
  destruct (m s) as [[a|e] s1]; simpl in *.
  - rewrite <- Hm. apply Hk.
  - assumption.
Qed.

Lemma no_rmdir_try_catch {A} (m : M Session A) (h : JsError -> M Session A) :
  no_rmdir m -> (forall e, no_rmdir (h e)) -> no_rmdir (try_catch m h).
Proof.
  intros Hm Hh s. unfold try_catch. specialize (Hm s).
  destruct (m s) as [[a|e] s1]; simpl in *.
  - assumption.
  - rewrite <- Hm. apply Hh.
Qed.

Lemma no_rmdir_emit (ev : Event) : is_rmdir ev = false -> no_rmdir (emit ev).
Proof.
  intros Hev s. unfold emit. cbn [snd trace].
  rewrite rmdir_of_app. cbn [filter]. rewrite Hev. apply app_nil_r.
Qed.

Lemma no_rmdir_fault_or (f : option string) (m : M Session unit) :
  no_rmdir m -> no_rmdir (fault_or f m).
Proof. intros Hm. destruct f; simpl; [apply no_rmdir_throw | assumption]. Qed.

Lemma no_rmdir_sleep (ms : Z) : no_rmdir (sleep ms).
Proof.
  intros s. unfold sleep. cbn [snd trace]. rewrite rmdir_of_app. apply app_nil_r.
Qed.

Lemma no_rmdir_date_now (w : World) : no_rmdir (date_now w).
Proof. intros s. reflexivity. Qed.

Lemma no_rmdir_evaluate {A} (probe : Probe) (f : Page -> Outcome A) :
  no_rmdir (evaluate probe f).
Proof.
  intros s. unfold evaluate.
  destruct (evaluate_fault (current s) probe); reflexivity.
Qed.

Lemma no_rmdir_when (b : bool) (m : M Session unit) : no_rmdir m -> no_rmdir (when b m).
Proof. intros Hm. destruct b; simpl; [assumption | apply no_rmdir_ret]. Qed.

Lemma no_rmdir_console_log (msg : string) : no_rmdir (console_log msg).
Proof. now apply no_rmdir_emit. Qed.

Lemma no_rmdir_console_error (msg : string) : no_rmdir (console_error msg).
Proof. now apply no_rmdir_emit. Qed.

Lemma no_rmdir_of_silent {A} (m : M Session A) : silent m -> no_rmdir m.
Proof.
  intros Hm s. specialize (Hm s). unfold effects in Hm.
  assert (H : forall tr, filter is_rmdir tr = filter is_rmdir (filter is_effect tr)).
  { induction tr as [|ev tr IH]; [reflexivity|].
    destruct ev; cbn [filter is_effect is_rmdir]; now rewrite ?IH. }
  now rewrite (H (trace (snd (m s)))), Hm, <- H.
Qed.

Lemma clean_throw_bind {A B} (m : M Session A) (k : A -> M Session B) :
  no_rmdir m -> (forall a, clean_throw (k a)) -> clean_throw (bind m k).
Proof.
  intros Hm Hk s e. unfold bind. specialize (Hm s).
  destruct (m s) as [[a|e1] s1]; simpl in *.
  - intros H. rewrite <- Hm. now apply (Hk a s1 e).
  - intros _. assumption.
Qed.

Lemma clean_throw_returns {A} (m : M Session A) : returns m -> clean_throw m.
Proof. intros Hm s e H. destruct (Hm s) as [a Ha]. congruence. Qed.

Lemma returns_ret {A} (a : A) : returns (ret a).
Proof. intros s. now exists a. Qed.

Lemma returns_bind {A B} (m : M Session A) (k : A -> M Session B) :
  returns m -> (forall a, returns (k a)) -> returns (bind m k).
Proof.
  intros Hm Hk s. unfold bind. destruct (Hm s) as [a Ha].
  destruct (m s) as [[a'|e] s1]; simpl in Ha; [|discriminate].
  apply Hk.
Qed.

Lemma returns_console_log (msg : string) : returns (console_log msg).
Proof. intros s. now exists tt. Qed.

Lemma returns_when (b : bool) (m : M Session unit) : returns m -> returns (when b m).
Proof. intros Hm. destruct b; simpl; [assumption | apply returns_ret]. Qed.

Create HintDb no_rmdir.
#[local] Hint Resolve no_rmdir_ret no_rmdir_throw no_rmdir_sleep no_rmdir_date_now
  no_rmdir_evaluate no_rmdir_when no_rmdir_console_log no_rmdir_console_error
  no_rmdir_fault_or : no_rmdir.

Ltac rmdir_free :=
  repeat first
    [ apply no_rmdir_bind; [|intros ?]
    | apply no_rmdir_try_catch; [|intros ?]
    | solve [auto with no_rmdir]
    | apply no_rmdir_fault_or
    | apply no_rmdir_emit; reflexivity
    | match goal with |- no_rmdir (match ?x with _ => _ end) => destruct x end
    | match goal with |- no_rmdir (let '(_, _) := ?x in _) => destruct x end ].

Section FailedAudit.

Variable world : World.
Variable settings : Settings.

Lemma no_rmdir_setViewport (v : Viewport) : no_rmdir (setViewport world v).
Proof.
  unfold setViewport. apply no_rmdir_fault_or. intros s. cbn [snd trace].
  rewrite rmdir_of_app. apply app_nil_r.
Qed.

Lemma no_rmdir_goto (url : string) : no_rmdir (goto world url).
Proof.
  intros s. unfold goto. destruct (load world (viewport s) url); [|reflexivity].
  cbn [snd trace]. rewrite rmdir_of_app. apply app_nil_r.
Qed.

Lemma no_rmdir_mkdir (dir : string) : no_rmdir (mkdir world dir).
Proof. unfold mkdir. rmdir_free. Qed.

Lemma no_rmdir_screenshot (p : FilePath) : no_rmdir (screenshot world p).
Proof. unfold screenshot. rmdir_free. Qed.

Lemma no_rmdir_writeFile (p : FilePath) : no_rmdir (writeFile world p).
Proof. unfold writeFile. rmdir_free. Qed.

Lemma no_rmdir_iso_now : no_rmdir (iso_now world).
Proof. apply no_rmdir_of_silent, silent_iso_now. Qed.

Lemma no_rmdir_url_hostname_of (url : string) : no_rmdir (url_hostname_of world url).
Proof. apply no_rmdir_of_silent, silent_url_hostname_of. Qed.

Hint Resolve no_rmdir_setViewport no_rmdir_goto no_rmdir_mkdir no_rmdir_screenshot
  no_rmdir_writeFile no_rmdir_iso_now no_rmdir_url_hostname_of : no_rmdir.

Lemma no_rmdir_capturePage (pageName outputDir : string) :
  no_rmdir (capturePage world settings pageName outputDir).
Proof. unfold capturePage. rmdir_free. Qed.

Lemma no_rmdir_generateReport (d : AuditData) (outputDir : string) :
  no_rmdir (generateReport world d outputDir).
Proof. unfold generateReport. rmdir_free. Qed.

Lemma no_rmdir_detectShopify : no_rmdir detectShopify.
Proof. unfold detectShopify. rmdir_free. Qed.

Lemma no_rmdir_detectEcommerce : no_rmdir detectEcommerce.
Proof. unfold detectEcommerce. rmdir_free. Qed.

Lemma no_rmdir_findProductPages : no_rmdir (findProductPages settings).
Proof. unfold findProductPages. rmdir_free. Qed.

Lemma no_rmdir_getPerformanceMetrics : no_rmdir getPerformanceMetrics.
Proof. unfold getPerformanceMetrics. rmdir_free. Qed.

Lemma no_rmdir_detectPopups : no_rmdir (detectPopupsAndEmailPlatforms settings).
Proof. apply no_rmdir_of_silent, silent_detectPopups. Qed.

Lemma no_rmdir_runAutomatedChecks : no_rmdir (runAutomatedChecks settings).
Proof. intros s. now rewrite runAutomatedChecks_spec. Qed.

Hint Resolve no_rmdir_capturePage no_rmdir_generateReport no_rmdir_detectShopify
  no_rmdir_detectEcommerce no_rmdir_findProductPages no_rmdir_getPerformanceMetrics
  no_rmdir_detectPopups no_rmdir_runAutomatedChecks : no_rmdir.

Lemma no_rmdir_productLoop (k : nat) :
  forall i links dir pages,
    no_rmdir (productLoop world settings k i links dir pages).
Proof.
  induction k as [|k IH]; intros i links dir pages; cbn [productLoop].
  - apply no_rmdir_ret.
  - rmdir_free.
Qed.

Lemma returns_cleanup (dir : string) :
  returns (try_catch (rmdir world dir) (fun _ => ret tt)).
Proof.
  intros s. destruct (cleanup_effects world dir s) as [s' [E _]].
  exists tt. now rewrite E.
Qed.

(** The [try] block removes nothing before it has written the report,
    and from there on it cannot throw. *)
Lemma clean_throw_auditWebsite_try (url : string) :
  clean_throw (auditWebsite_try world settings url).
Proof.
  unfold auditWebsite_try.
  repeat first
    [ apply clean_throw_returns;
      solve [ repeat first [ apply returns_bind; [|intros ?]
                           | apply returns_cleanup
                           | apply returns_console_log
                           | apply returns_when
                           | apply returns_ret ] ]
    | apply clean_throw_bind; [|intros ?]
    | solve [auto with no_rmdir]
    | match goal with
      | |- no_rmdir (if ?b then ret _ else _) =>
          destruct b; [apply no_rmdir_ret | apply no_rmdir_detectEcommerce]
      | |- no_rmdir (if ?b then _ else ret _) => destruct b; [|apply no_rmdir_ret]
      end
    | apply no_rmdir_bind; [|intros ?]
    | apply no_rmdir_productLoop ].
Qed.

End FailedAudit.

(** X16. An audit that fails removes no directory: whatever the fault and
    wherever it occurs, no [rmdir] is issued, so a temporary directory that
    was created for the site stays on disk. *)
Theorem failed_audit_removes_nothing (world : World) (settings : Settings)
    (url : string) (s : Session) (e : JsError) :
  fst (auditWebsite world settings url s) = Throw e ->
  filter is_rmdir (trace (snd (auditWebsite world settings url s))) =
  filter is_rmdir (trace s).
Proof.
  rewrite auditWebsite_unfold.
  pose proof (clean_throw_auditWebsite_try world settings url (started url s)) as Hc.
  destruct (auditWebsite_try world settings url (started url s)) as [[d|e1] s1].
  - discriminate.
  - intros _. specialize (Hc e1 eq_refl). cbn [snd] in Hc.
    change (filter is_rmdir (trace (snd (auditWebsite_catch world url e1 s1))))
      with (filter is_rmdir (trace s1 ++ [EvConsole LError
                                            ("Error during audit: " ++ message e1)])).
    rewrite rmdir_of_app, Hc. cbn [filter is_rmdir]. rewrite app_nil_r.
    unfold started, console_log, emit. cbn [snd trace].
    rewrite rmdir_of_app. apply app_nil_r.
Qed.

Lemma failed_audit_removes_nothing_witness :
  exists temp,
    In (EvMkdir temp)
       (trace (snd (auditWebsite Sample.unreachable Sample.settings
                      "https://slow.example.com" Sample.session))) /\
    filter is_rmdir
      (trace (snd (auditWebsite Sample.unreachable Sample.settings
                     "https://slow.example.com" Sample.session))) =
    filter is_rmdir (trace Sample.session).
Proof.
  exists "./audits/temp_slow_example_com_1700000000000".
  split; [vm_compute; tauto|].
  apply (failed_audit_removes_nothing Sample.unreachable Sample.settings
           "https://slow.example.com" Sample.session
           (mkError ReferenceError "siteName is not defined")).
  vm_compute. reflexivity.
Defined.

(** ** The records of a batch *)

Section BatchRecords.

Variable world : World.
Variable settings : Settings.

Lemma auditLoop_turn_records (url : string) (rest : list string)
    (ls : list AuditResult * Session) :
  exists ls1,
    auditLoop world settings (url :: rest) ls = auditLoop world settings rest ls1 /\
    fst ls1 =
      fst ls ++ turn_records world settings url (fst (auditWebsite world settings url (snd ls))).
Proof.
  cbn [auditLoop]. unfold bind at 1. unfold try_catch.
  unfold bind at 1. unfold lift at 1. unfold turn_records.
  destruct (auditWebsite world settings url (snd ls)) as [[result|e] s1].
  - unfold bind at 1. unfold push_result at 1, modify_local at 1. cbn [fst snd].
    destruct (audit settings) as [a|].
    + destruct (delayBetweenAudits a) as [dl|];
        [destruct (0 <? dl)%Z|]; cbn [when lift sleep ret fst snd];
        eexists; (split; [reflexivity|]); reflexivity.
    + cbn [throw bind lift console_error emit push_result modify_local fst snd].
      eexists. split; [reflexivity|]. cbn [fst]. now rewrite <- app_assoc.
  - cbn [bind lift console_error emit push_result modify_local fst snd].
    eexists. split; [reflexivity|]. reflexivity.
Qed.

(** The loop never throws; what it adds to [results] is, site by site,
    what the turns add. *)
Lemma auditLoop_records (P : string -> list AuditResult -> Prop)
    (websites : list string) :
  (forall url s,
     P url (turn_records world settings url (fst (auditWebsite world settings url s)))) ->
  forall ls,
    exists ls' rss,
      auditLoop world settings websites ls = (Ok tt, ls') /\
      fst ls' = fst ls ++ concat rss /\
      Forall2 P websites rss.
Proof.
  intros HP. induction websites as [|url rest IH]; intros ls.
  - exists ls, []. cbn. rewrite app_nil_r. repeat split. constructor.
  - destruct (auditLoop_turn_records url rest ls) as [ls1 [-> H1]].
    destruct (IH ls1) as [ls' [rss [E [Hr HF]]]].
    exists ls', (turn_records world settings url
                   (fst (auditWebsite world settings url (snd ls))) :: rss).
    split; [exact E|]. split.
    + rewrite Hr, H1. cbn [concat]. now rewrite app_assoc.
    + constructor; [apply HP | exact HF].
Qed.

Lemma runBatch_records (P : string -> list AuditResult -> Prop)
    (websites : list string) (s : Session) :
  (forall url s,
     P url (turn_records world settings url (fst (auditWebsite world settings url s)))) ->
  exists rss,
    fst (runBatch world settings websites s) = Ok (concat rss) /\
    Forall2 P websites rss.
Proof.
  intros HP.
  destruct (auditLoop_records P websites HP ([], s)) as [ls' [rss [E [Hr HF]]]].
  exists rss. split; [|exact HF].
  unfold runBatch, with_local, bind. rewrite E. cbn [get_local fst snd].
  now rewrite Hr.
Qed.

(** The record of an audit that returned is that of its URL. *)
Lemma auditWebsite_result_url (url : string) (s : Session) (r : AuditResult) :
  fst (auditWebsite world settings url s) = Ok r ->
  result_url r = url /\ is_failed r = false /\ counts_as_success r = true.
Proof.
  intros H. destruct (auditWebsite_Ok_inv _ _ _ _ _ H) as [d [-> _]].
  apply auditWebsite_record in H.
  destruct H as (hostname & p & pm & _ & _ & _ & H4 & _). now repeat split.
Qed.

End BatchRecords.

Lemma Forall2_singletons {A B} (f : B -> A) (xs : list A) (rss : list (list B)) :
  Forall2 (fun x rs => map f rs = [x]) xs rss -> map f (concat rss) = xs.
Proof.
  induction 1 as [|x rs xs rss H _ IH]; [reflexivity|].
  cbn [concat]. rewrite map_app, H, IH. reflexivity.
Qed.

Lemma Forall2_In_r {A B} (P : A -> B -> Prop) (xs : list A) (ys : list B) (y : B) :
  Forall2 P xs ys -> In y ys -> exists x, In x xs /\ P x y.
Proof.
  induction 1 as [|x y' xs ys H _ IH]; intros Hin; [contradiction|].
  destruct Hin as [<-|Hin].
  - exists x. split; [now left | assumption].
  - destruct (IH Hin) as [x' [Hx' Hp]]. exists x'. split; [now right | assumption].
Qed.

Lemma filter_concat {A} (f : A -> bool) (ls : list (list A)) :
  filter f (concat ls) = concat (map (filter f) ls).
Proof.
  induction ls as [|l ls IH]; [reflexivity|].
  cbn [concat map]. now rewrite filter_app, IH.
Qed.

Lemma filter_partition_length {A} (f g : A -> bool) (l : list A) :
  (forall x, In x l -> g x = negb (f x)) ->
  (length (filter f l) + length (filter g l) = length l)%nat.
Proof.
  induction l as [|x l IH]; intros H; [reflexivity|].
  cbn [filter]. rewrite (H x (or_introl eq_refl)).
  assert (IH' := IH (fun y Hy => H y (or_intror Hy))).
  destruct (f x); cbn [negb length]; lia.
Qed.

(** X17. With an [audit] section in the settings, the batch loop never
    throws and yields exactly one record per site, in the order of the
    sites and each with the URL of its site; a failure record carries only
    that URL and the message of the escaped [ReferenceError], and the two
    counts of the summary add up to the number of sites. *)
Theorem batch_one_record_per_site (world : World) (settings : Settings)
    (websites : list string) (s : Session) :
  audit settings <> None ->
  exists results,
    fst (runBatch world settings websites s) = Ok results /\
    map result_url results = websites /\
    (forall r, In r results -> is_failed r = true ->
       r = failure_record (result_url r) "siteName is not defined") /\
    (fst (summary results) + snd (summary results) = length websites)%nat.
Proof.
  intros Haudit.
  destruct (runBatch_records world settings
              (fun url rs =>
                 map result_url rs = [url] /\
                 forall r, In r rs -> is_failed r = true ->
                   r = failure_record (result_url r) "siteName is not defined")
              websites s) as [rss [E HF]].
  { intros url s0. unfold turn_records.
    destruct (auditWebsite_outcome world settings url s0) as [[d Hd]|Ht].
    - rewrite Hd. destruct (audit settings); [|congruence].
      destruct (auditWebsite_result_url world settings url s0 _ Hd) as [Hu _].
      split; [cbn [map]; now rewrite Hu|].
      intros r [<-|[]] Hf. discriminate.
    - rewrite Ht. split; [reflexivity|].
      intros r [<-|[]] _. reflexivity. }
  exists (concat rss). split; [exact E|].
  assert (Hmap : map result_url (concat rss) = websites).
  { apply Forall2_singletons. eapply Forall2_impl; [|exact HF].
    intros url rs [H _]. exact H. }
  split; [exact Hmap|]. split.
  - intros r Hin Hf. apply in_concat in Hin. destruct Hin as [rs [Hrs Hin]].
    destruct (Forall2_In_r _ _ _ _ HF Hrs) as [url [_ [_ H]]].
    now apply H.
  - unfold summary. cbn [fst snd].
    rewrite <- Hmap, length_map.
    pose proof (filter_length_le counts_as_success (concat rss)). lia.
Qed.

Lemma batch_one_record_per_site_witness :
  exists results,
    fst (runBatch (Sample.mixed Sample.shop) Sample.settings
           ["https://shop.example.com"; "https://m.example.com"] Sample.session) =
      Ok results /\
    map result_url results = ["https://shop.example.com"; "https://m.example.com"] /\
    (forall r, In r results -> is_failed r = true ->
       r = failure_record (result_url r) "siteName is not defined") /\
    (fst (summary results) + snd (summary results) = 2)%nat.
Proof.
  apply (batch_one_record_per_site (Sample.mixed Sample.shop) Sample.settings
           ["https://shop.example.com"; "https://m.example.com"] Sample.session).
  discriminate.
Defined.

(** X18. Without an [audit] section in the settings, reading the delay
    between audits throws after every audit that completed, and the loop
    catches it. The records of the batch are then, site by site and in
    the order of the sites: for a site whose audit completed, the data
    record of the audit followed by a failure record for the same URL,
    which carries the message of the engine for the missing section; for
    a site whose audit failed, one failure record with the message of the
    escaped [ReferenceError]. So every site has exactly one failure
    record, and the summary counts every site as failed. *)
Theorem batch_without_audit_section (world : World) (settings : Settings)
    (websites : list string) (s : Session) :
  audit settings = None ->
  exists results per_site,
    fst (runBatch world settings websites s) = Ok results /\
    results = concat per_site /\
    Forall2
      (fun url records =>
         exists s0,
           (exists d,
              fst (auditWebsite world settings url s0) = Ok (Audited d) /\
              records =
                [Audited d;
                 failure_record url
                   (missing_section_message world "delayBetweenAudits")]) \/
           (fst (auditWebsite world settings url s0) =
              Throw (mkError ReferenceError "siteName is not defined") /\
            records = [failure_record url "siteName is not defined"]))
      websites per_site /\
    map result_url (filter is_failed results) = websites /\
    snd (summary results) = length websites.
Proof.
  intros Haudit.
  destruct (runBatch_records world settings
              (fun url records =>
                 exists s0,
                   (exists d,
                      fst (auditWebsite world settings url s0) = Ok (Audited d) /\
                      records =
                        [Audited d;
                         failure_record url
                           (missing_section_message world "delayBetweenAudits")]) \/
                   (fst (auditWebsite world settings url s0) =
                      Throw (mkError ReferenceError "siteName is not defined") /\
                    records = [failure_record url "siteName is not defined"]))
              websites s) as [rss [E HF]].
  { intros url s0. exists s0. unfold turn_records. rewrite Haudit.
    destruct (auditWebsite_outcome world settings url s0) as [[d Hd]|Ht].
    - left. exists d. rewrite Hd. now split.
    - right. rewrite Ht. now split. }
  assert (HF' : Forall2
            (fun url rs =>
               map result_url (filter is_failed rs) = [url] /\
               forall r, In r rs -> counts_as_success r = negb (is_failed r))
            websites rss).
  { eapply Forall2_impl; [|exact HF].
    intros url rs [s0 [[d [_ ->]]|[_ ->]]].
    - split; [reflexivity|]. intros r [<-|[<-|[]]]; reflexivity.
    - split; [reflexivity|]. intros r [<-|[]]. reflexivity. }
  exists (concat rss), rss. split; [exact E|]. split; [reflexivity|].
  split; [exact HF|].
  assert (Hmap : map result_url (filter is_failed (concat rss)) = websites).
  { rewrite filter_concat.
    apply Forall2_singletons with (f := result_url) (rss := map (filter is_failed) rss).
    clear E HF.
    induction HF' as [|url rs urls rss' [H _] _ IH]; constructor; assumption. }
  split; [exact Hmap|].
  unfold summary. cbn [snd].
  assert (Hpart : (length (filter counts_as_success (concat rss)) +
                   length (filter is_failed (concat rss)) =
                   length (concat rss))%nat).
  { rewrite Nat.add_comm. apply filter_partition_length.
    intros r Hin. apply in_concat in Hin. destruct Hin as [rs [Hrs Hin]].
    destruct (Forall2_In_r _ _ _ _ HF' Hrs) as [url [_ [_ H]]].
    rewrite (H r Hin). now destruct (is_failed r). }
  rewrite <- Hmap at 1. rewrite length_map. lia.
Qed.

Lemma batch_without_audit_section_witness :
  exists d,
    fst (runBatch (Sample.always Sample.shop)
           {| audit := None; performance := None |}
           ["https://shop.example.com"] Sample.session) =
    Ok [Audited d;
        failure_record "https://shop.example.com"
          "Cannot read properties of undefined (reading 'delayBetweenAudits')"].
Proof.
  destruct (batch_without_audit_section (Sample.always Sample.shop)
              {| audit := None; performance := None |}
              ["https://shop.example.com"] Sample.session eq_refl)
    as (results & per_site & E & Hc & HF & _).
  inversion HF as [|u rs us rss Hh Ht]; subst. inversion Ht; subst.
  cbn [concat] in E. rewrite app_nil_r in E.
  destruct Hh as [s0 [[d [_ ->]]|[_ ->]]].
  - exists d. exact E.
  - vm_compute in E. discriminate.
Defined.

(** ** C6: the viewport after audits *)

Lemma viewports_app (tr1 tr2 : list Event) :
  viewports (tr1 ++ tr2) = viewports tr1 ++ viewports tr2.
Proof. apply flat_map_app. Qed.

Lemma last_cons_default {A} (x : A) (l : list A) (d d' : A) :
  last (x :: l) d = last (x :: l) d'.
Proof.
  revert x. induction l as [|y l IH]; intros x; [reflexivity|].
  change (last (y :: l) d = last (y :: l) d'). apply IH.
Qed.

Lemma last_app {A} (l1 l2 : list A) (d : A) :
  last (l1 ++ l2) d = last l2 (last l1 d).
Proof.
  revert d. induction l1 as [|x l1 IH]; intros d; [reflexivity|].
  destruct l1 as [|y l1].
  - destruct l2 as [|a l2]; [reflexivity|]. cbn [app].
    change (last (a :: l2) d = last (a :: l2) x). apply last_cons_default.
  - change (last ((y :: l1) ++ l2) d = last l2 (last (y :: l1) d)). apply IH.
Qed.

Lemma neutral_ret {A} (a : A) : neutral (ret a).
Proof. intros s. now split. Qed.

Lemma neutral_throw {A} (e : JsError) : neutral (@throw Session A e).
Proof. intros s. now split. Qed.

Lemma neutral_bind {A B} (m : M Session A) (k : A -> M Session B) :
  neutral m -> (forall a, neutral (k a)) -> neutral (bind m k).
Proof.
  intros Hm Hk s. unfold bind. specialize (Hm s).
  destruct (m s) as [[a|e] s1]; cbn [snd] in *.
  - destruct (Hk a s1) as [V T]. destruct Hm as [V1 T1]. split; congruence.
  - assumption.
Qed.

Lemma neutral_try_catch {A} (m : M Session A) (h : JsError -> M Session A) :
  neutral m -> (forall e, neutral (h e)) -> neutral (try_catch m h).
Proof.
  intros Hm Hh s. unfold try_catch. specialize (Hm s).
  destruct (m s) as [[a|e] s1]; cbn [snd] in *.
  - assumption.
  - destruct (Hh e s1) as [V T]. destruct Hm as [V1 T1]. split; congruence.
Qed.

Lemma neutral_emit (ev : Event) : viewports [ev] = [] -> neutral (emit ev).
Proof.
  intros Hev s. unfold emit. cbn [snd trace viewport]. split; [reflexivity|].
  rewrite viewports_app, Hev. apply app_nil_r.
Qed.

Lemma neutral_fault_or (f : option string) (m : M Session unit) :
  neutral m -> neutral (fault_or f m).
Proof. intros Hm. destruct f; simpl; [apply neutral_throw | assumption]. Qed.

Lemma neutral_sleep (ms : Z) : neutral (sleep ms).
Proof.
  intros s. unfold sleep. cbn [snd trace viewport]. split; [reflexivity|].
  rewrite viewports_app. apply app_nil_r.
Qed.

Lemma neutral_date_now (w : World) : neutral (date_now w).
Proof. intros s. now split. Qed.

Lemma neutral_evaluate {A} (probe : Probe) (f : Page -> Outcome A) :
  neutral (evaluate probe f).
Proof.
  intros s. unfold evaluate.
  destruct (evaluate_fault (current s) probe); now split.
Qed.

Lemma neutral_when (b : bool) (m : M Session unit) : neutral m -> neutral (when b m).
Proof. intros Hm. destruct b; simpl; [assumption | apply neutral_ret]. Qed.

Lemma neutral_console_log (msg : string) : neutral (console_log msg).
Proof. now apply neutral_emit. Qed.

Lemma neutral_console_error (msg : string) : neutral (console_error msg).
Proof. now apply neutral_emit. Qed.

Lemma neutral_detectPopups (st : Settings) : neutral (detectPopupsAndEmailPlatforms st).
Proof.
  intros s. rewrite detectPopups_spec.
  destruct (evaluate_fault (current s) PEmailPlatforms);
    [|destruct (evaluate_fault (current s) PPopups)];
    cbn [snd warned after_delay sleep emit trace viewport];
    (split; [reflexivity|]);
    rewrite !viewports_app; cbn; now rewrite ?app_nil_r.
Qed.

Create HintDb neutral.
#[local] Hint Resolve neutral_ret neutral_throw neutral_sleep neutral_date_now
  neutral_evaluate neutral_when neutral_console_log neutral_console_error
  neutral_fault_or neutral_detectPopups : neutral.

Ltac neutrality :=
  repeat first
    [ apply neutral_bind; [|intros ?]
    | apply neutral_try_catch; [|intros ?]
    | solve [auto with neutral]
    | apply neutral_fault_or
    | apply neutral_emit; reflexivity
    | match goal with |- neutral (match ?x with _ => _ end) => destruct x end
    | match goal with |- neutral (let '(_, _) := ?x in _) => destruct x end ].

Lemma applies_neutral {A} (m : M Session A) : neutral m -> applies [] m.
Proof.
  intros Hm s. destruct (Hm s) as [V T]. exists [], [].
  split; [reflexivity|]. split; [now rewrite app_nil_r|]. split; [exact V|].
  reflexivity.
Qed.

Lemma applies_bind {A B} (p1 p2 : list Viewport) (m : M Session A)
    (k : A -> M Session B) :
  applies p1 m -> (forall a, applies p2 (k a)) -> applies (p1 ++ p2) (bind m k).
Proof.
  intros Hm Hk s. unfold bind.
  destruct (Hm s) as (a1 & r1 & Hp & T1 & V1 & R1).
  destruct (m s) as [[a|e] s1]; cbn [fst snd] in *.
  - rewrite (R1 a eq_refl), app_nil_r in Hp. subst a1.
    destruct (Hk a s1) as (a2 & r2 & Hp2 & T2 & V2 & R2).
    exists (p1 ++ a2), r2.
    split; [now rewrite Hp2, app_assoc|].
    split; [now rewrite T2, T1, app_assoc|].
    split; [now rewrite V2, V1, last_app | exact R2].
  - exists a1, (r1 ++ p2).
    split; [now rewrite Hp, app_assoc|]. split; [exact T1|]. split; [exact V1|].
    discriminate.
Qed.

Lemma applies_after {A B} (plan : list Viewport) (m : M Session A)
    (k : A -> M Session B) :
  neutral m -> (forall a, applies plan (k a)) -> applies plan (bind m k).
Proof.
  intros Hm Hk. apply (applies_bind [] plan); [now apply applies_neutral | exact Hk].
Qed.

Section ViewportOfAudit.

Variable world : World.
Variable settings : Settings.

Lemma applies_setViewport (v : Viewport) : applies [v] (setViewport world v).
Proof.
  intros s. unfold setViewport, fault_or.
  destruct (setViewport_fault world v).
  - exists [], [v]. cbn [throw fst snd]. split; [reflexivity|].
    split; [now rewrite app_nil_r|]. split; [reflexivity | discriminate].
  - exists [v], []. cbn [fst snd trace viewport]. split; [reflexivity|].
    split; [now rewrite viewports_app|]. split; reflexivity.
Qed.

Lemma neutral_goto (url : string) : neutral (goto world url).
Proof.
  intros s. unfold goto. destruct (load world (viewport s) url); [|now split].
  cbn [snd trace viewport]. split; [reflexivity|].
  rewrite viewports_app. apply app_nil_r.
Qed.

Lemma neutral_mkdir (dir : string) : neutral (mkdir world dir).
Proof. unfold mkdir. neutrality. Qed.

Lemma neutral_rmdir (dir : string) : neutral (rmdir world dir).
Proof. unfold rmdir. neutrality. Qed.

Lemma neutral_screenshot (p : FilePath) : neutral (screenshot world p).
Proof. unfold screenshot. neutrality. Qed.

Lemma neutral_writeFile (p : FilePath) : neutral (writeFile world p).
Proof. unfold writeFile. neutrality. Qed.

Lemma neutral_iso_now : neutral (iso_now world).
Proof. unfold iso_now. neutrality. Qed.

Lemma neutral_url_hostname_of (url : string) : neutral (url_hostname_of world url).
Proof. unfold url_hostname_of. neutrality. Qed.

Hint Resolve neutral_goto neutral_mkdir neutral_rmdir neutral_screenshot
  neutral_writeFile neutral_iso_now neutral_url_hostname_of : neutral.

Lemma neutral_capturePage (pageName outputDir : string) :
  neutral (capturePage world settings pageName outputDir).
Proof. unfold capturePage. neutrality. Qed.

Lemma neutral_generateReport (d : AuditData) (outputDir : string) :
  neutral (generateReport world d outputDir).
Proof. unfold generateReport. neutrality. Qed.

Lemma neutral_detectShopify : neutral detectShopify.
Proof. unfold detectShopify. neutrality. Qed.

Lemma neutral_detectEcommerce : neutral detectEcommerce.
Proof. unfold detectEcommerce. neutrality. Qed.

Lemma neutral_findProductPages : neutral (findProductPages settings).
Proof. unfold findProductPages. neutrality. Qed.

Lemma neutral_getPerformanceMetrics : neutral getPerformanceMetrics.
Proof. unfold getPerformanceMetrics. neutrality. Qed.

Lemma neutral_runAutomatedChecks : neutral (runAutomatedChecks settings).
Proof. intros s. now rewrite runAutomatedChecks_spec. Qed.

Hint Resolve neutral_capturePage neutral_generateReport neutral_detectShopify
  neutral_detectEcommerce neutral_findProductPages neutral_getPerformanceMetrics
  neutral_runAutomatedChecks : neutral.

Lemma neutral_productLoop (k : nat) :
  forall i links dir pages,
    neutral (productLoop world settings k i links dir pages).
Proof.
  induction k as [|k IH]; intros i links dir pages; cbn [productLoop].
  - apply neutral_ret.
  - neutrality.
Qed.

Ltac neutral_step :=
  first
    [ solve [auto with neutral]
    | apply neutral_productLoop
    | match goal with
      | |- neutral (if ?b then _ else _) => destruct b
      end
    | apply neutral_bind; [|intros ?]
    | apply neutral_try_catch; [|intros ?] ].

(** The [try] block applies desktop, mobile, desktop; unless the first
    of these calls faults, it has applied at least one viewport. *)
Lemma auditWebsite_try_viewports (url : string) (s : Session) :
  exists applied pending,
    [defaultViewport; mobileViewport; defaultViewport] = applied ++ pending /\
    viewports (trace (snd (auditWebsite_try world settings url s))) =
      viewports (trace s) ++ applied /\
    viewport (snd (auditWebsite_try world settings url s)) = last applied (viewport s) /\
    (forall d, fst (auditWebsite_try world settings url s) = Ok d -> pending = []) /\
    (setViewport_fault world defaultViewport = None -> applied <> []).
Proof.
  unfold auditWebsite_try, captureProductPages.
  match goal with
  | |- context [bind (setViewport world defaultViewport) ?k] => set (K := k)
  end.
  assert (HK : forall u, applies [mobileViewport; defaultViewport] (K u)).
  { intros u. unfold K.
    repeat (apply applies_after; [solve [repeat neutral_step] | intros ?]).
    apply (applies_bind [mobileViewport] [defaultViewport]);
      [apply applies_setViewport | intros ?].
    repeat (apply applies_after; [solve [repeat neutral_step] | intros ?]).
    apply (applies_bind [defaultViewport] []);
      [apply applies_setViewport | intros ?].
    repeat (apply applies_after; [solve [repeat neutral_step] | intros ?]).
    apply applies_neutral, neutral_ret. }
  clearbody K. unfold bind, setViewport, fault_or.
  destruct (setViewport_fault world defaultViewport) as [msg|].
  - exists [], [defaultViewport; mobileViewport; defaultViewport].
    cbn [throw fst snd last]. split; [reflexivity|].
    split; [now rewrite app_nil_r|]. split; [reflexivity|].
    split; [discriminate | congruence].
  - match goal with
    | |- context [K tt ?s0] => destruct (HK tt s0) as (a2 & r2 & Hp & T & V & R)
    end.
    exists (defaultViewport :: a2), r2.
    split; [cbn [app]; now rewrite Hp|].
    cbn [trace viewport] in T, V.
    rewrite viewports_app in T. cbn [viewports flat_map app] in T.
    split; [now rewrite T, <- app_assoc|].
    split.
    { rewrite V. destruct a2 as [|v a2]; [reflexivity|].
      exact (last_cons_default v a2 defaultViewport (viewport s)). }
    split; [exact R | discriminate].
Qed.

(** The [catch] clause applies none, and the log line before the [try]
    block neither. *)
Lemma auditWebsite_viewports (url : string) (s : Session) :
  exists applied pending,
    [defaultViewport; mobileViewport; defaultViewport] = applied ++ pending /\
    viewports (trace (snd (auditWebsite world settings url s))) =
      viewports (trace s) ++ applied /\
    viewport (snd (auditWebsite world settings url s)) = last applied (viewport s) /\
    (forall r, fst (auditWebsite world settings url s) = Ok r -> pending = []) /\
    (setViewport_fault world defaultViewport = None -> applied <> []).
Proof.
  rewrite auditWebsite_unfold.
  destruct (auditWebsite_try_viewports url (started url s))
    as (applied & pending & Hp & T & V & R & N).
  assert (Ts : viewports (trace (started url s)) = viewports (trace s)).
  { unfold started, console_log, emit. cbn [snd trace].
    rewrite viewports_app. apply app_nil_r. }
  exists applied, pending. split; [exact Hp|].
  destruct (auditWebsite_try world settings url (started url s)) as [[d|e] s1];
    cbn [fst snd] in *.
  - split; [now rewrite T, Ts|]. split; [exact V|].
    split; [|exact N]. intros a _. now apply (R d).
  - change (trace (snd (auditWebsite_catch world url e s1)))
      with (trace s1 ++ [EvConsole LError ("Error during audit: " ++ message e)]).
    change (viewport (snd (auditWebsite_catch world url e s1))) with (viewport s1).
    rewrite viewports_app, T, Ts. cbn [viewports flat_map app].
    rewrite app_nil_r. split; [reflexivity|]. split; [exact V|].
    split; [|exact N]. rewrite auditWebsite_catch_throws. discriminate.
Qed.

(** One turn of the loop of [main]: its records, and the viewport it
    leaves, which is the one that the audit leaves. *)
Lemma auditLoop_turn_viewport (url : string) (rest : list string)
    (ls : list AuditResult * Session) :
  exists ls1,
    auditLoop world settings (url :: rest) ls = auditLoop world settings rest ls1 /\
    fst ls1 =
      fst ls ++
      turn_records world settings url (fst (auditWebsite world settings url (snd ls))) /\
    viewport (snd ls1) = viewport (snd (auditWebsite world settings url (snd ls))).
Proof.
  cbn [auditLoop]. unfold bind at 1. unfold try_catch.
  unfold bind at 1. unfold lift at 1. unfold turn_records.
  destruct (auditWebsite world settings url (snd ls)) as [[result|e] s1].
  - unfold bind at 1. unfold push_result at 1, modify_local at 1. cbn [fst snd].
    destruct (audit settings) as [a|].
    + destruct (delayBetweenAudits a) as [dl|];
        [destruct (0 <? dl)%Z|]; cbn [when lift sleep ret fst snd];
        eexists; (split; [reflexivity|]); split; reflexivity.
    + cbn [throw bind lift console_error emit push_result modify_local fst snd].
      eexists. split; [reflexivity|]. cbn [fst snd viewport].
      split; [now rewrite <- app_assoc | reflexivity].
  - cbn [bind lift console_error emit push_result modify_local fst snd].
    eexists. split; [reflexivity|]. split; reflexivity.
Qed.

Lemma auditLoop_last (sites : list string) (url : string) :
  forall ls,
    exists ls0 ls',
      auditLoop world settings (sites ++ [url]) ls = (Ok tt, ls') /\
      fst ls' =
        fst ls0 ++
        turn_records world settings url
          (fst (auditWebsite world settings url (snd ls0))) /\
      viewport (snd ls') = viewport (snd (auditWebsite world settings url (snd ls0))).
Proof.
  induction sites as [|u sites IH]; intros ls; cbn [app].
  - destruct (auditLoop_turn_viewport url [] ls) as (ls1 & E & Hr & Hv).
    exists ls, ls1. rewrite E. cbn [auditLoop]. now split.
  - destruct (auditLoop_turn_viewport u (sites ++ [url]) ls) as (ls1 & E & _).
    rewrite E. apply IH.
Qed.

End ViewportOfAudit.

(** C6 (as the code has it). An audit applies the desktop viewport
    first, the mobile viewport for the mobile capture, and the desktop
    viewport again before the checks; its [catch] clause applies none. So
    the viewports that an audit applies are the first zero to three of
    desktop, mobile, desktop -- all three when the audit completes, at
    least one unless applying the desktop viewport itself faults -- and
    the session is left on the last one applied: on the viewport in force
    when the fault occurred, if the audit fails, which is the viewport on
    which the [try] block ended. A batch that ends with
    the audit of a site leaves the viewport that this last audit leaves,
    whatever the earlier audits did: the desktop default when the last
    audit completed, with or without a failure record behind its data
    record, and otherwise desktop or mobile, according to where the fault
    fell. A batch of no site leaves the viewport as it was. *)
Theorem viewport_after_audits (world : World) (settings : Settings) :
  (forall url s,
     exists applied,
       viewports (trace (snd (auditWebsite world settings url s))) =
         viewports (trace s) ++ applied /\
       viewport (snd (auditWebsite world settings url s)) = last applied (viewport s) /\
       (applied = [] \/ applied = [defaultViewport] \/
        applied = [defaultViewport; mobileViewport] \/
        applied = [defaultViewport; mobileViewport; defaultViewport]) /\
       (forall r, fst (auditWebsite world settings url s) = Ok r ->
          applied = [defaultViewport; mobileViewport; defaultViewport]) /\
       (setViewport_fault world defaultViewport = None -> applied <> []) /\
       viewport (snd (auditWebsite world settings url s)) =
         viewport (snd (auditWebsite_try world settings url (started url s)))) /\
  (forall sites url s,
     exists s0 rs,
       fst (runBatch world settings (sites ++ [url]) s) =
         Ok (rs ++ turn_records world settings url
                     (fst (auditWebsite world settings url s0))) /\
       viewport (snd (runBatch world settings (sites ++ [url]) s)) =
         viewport (snd (auditWebsite world settings url s0)) /\
       (forall r, fst (auditWebsite world settings url s0) = Ok r ->
          viewport (snd (runBatch world settings (sites ++ [url]) s)) = defaultViewport) /\
       (forall e, fst (auditWebsite world settings url s0) = Throw e ->
          setViewport_fault world defaultViewport = None ->
          viewport (snd (runBatch world settings (sites ++ [url]) s)) = defaultViewport \/
          viewport (snd (runBatch world settings (sites ++ [url]) s)) = mobileViewport)) /\
  (forall websites s rs d,
     fst (runBatch world settings websites s) = Ok (rs ++ [Audited d]) ->
     viewport (snd (runBatch world settings websites s)) = defaultViewport) /\
  (forall s, viewport (snd (runBatch world settings [] s)) = viewport s).
Proof.
  assert (Haudit : forall url s,
     exists applied,
       viewports (trace (snd (auditWebsite world settings url s))) =
         viewports (trace s) ++ applied /\
       viewport (snd (auditWebsite world settings url s)) = last applied (viewport s) /\
       (applied = [] \/ applied = [defaultViewport] \/
        applied = [defaultViewport; mobileViewport] \/
        applied = [defaultViewport; mobileViewport; defaultViewport]) /\
       (forall r, fst (auditWebsite world settings url s) = Ok r ->
          applied = [defaultViewport; mobileViewport; defaultViewport]) /\
       (setViewport_fault world defaultViewport = None -> applied <> []) /\
       viewport (snd (auditWebsite world settings url s)) =
         viewport (snd (auditWebsite_try world settings url (started url s)))).
  { intros url s.
    destruct (auditWebsite_viewports world settings url s)
      as (applied & pending & Hp & T & V & R & N).
    exists applied. split; [exact T|]. split; [exact V|].
    split; [|split; [|split; [exact N|]]].
    - destruct applied as [|v1 [|v2 [|v3 [|v4 applied]]]]; cbn in Hp.
      + now left.
      + right; left. now inversion Hp.
      + right; right; left. now inversion Hp.
      + right; right; right. now inversion Hp.
      + inversion Hp.
    - intros r Hr. rewrite (R r Hr), app_nil_r in Hp. now symmetry.
    - rewrite auditWebsite_unfold.
      now destruct (auditWebsite_try world settings url (started url s)) as [[d|e] s1]. }
  split; [exact Haudit|]. split; [|split].
  - intros sites url s. unfold runBatch, with_local.
    destruct (auditLoop_last world settings sites url ([], s))
      as (ls0 & ls' & E & Hr & Hv).
    unfold bind. rewrite E. cbn [get_local fst snd].
    exists (snd ls0), (fst ls0). split; [now rewrite Hr|]. split; [exact Hv|].
    destruct (Haudit url (snd ls0)) as (applied & _ & V & Hshape & Hok & Hne & _).
    rewrite Hv, V. split.
    + intros r Hr'. now rewrite (Hok r Hr').
    + intros e _ Hset. specialize (Hne Hset).
      destruct Hshape as [->|[->|[->| ->]]]; cbn [last]; tauto.
  - apply runBatch_restored.
  - intros s. reflexivity.
Qed.

Lemma viewport_after_audits_witness :
  exists rs d,
    fst (runBatch (Sample.mixed Sample.shop) Sample.settings
           ["https://m.example.com"; "https://shop.example.com"] Sample.session) =
      Ok (rs ++ [Audited d]) /\
    length rs = 1%nat /\
    viewport (snd (runBatch (Sample.mixed Sample.shop) Sample.settings
                     ["https://m.example.com"; "https://shop.example.com"]
                     Sample.session)) = defaultViewport.
Proof.
  destruct (fst (runBatch (Sample.mixed Sample.shop) Sample.settings
                   ["https://m.example.com"; "https://shop.example.com"]
                   Sample.session))
    as [[|r1 [|[d|r2] [|r3 rest]]]|e] eqn:E; try (vm_compute in E; discriminate).
  exists [r1], d. split; [reflexivity|]. split; [reflexivity|].
  exact (proj1 (proj2 (proj2 (viewport_after_audits _ _))) _ _ [r1] d E).
Defined.

(** ** Platform detection *)

(** X19. Platform detection never throws and leaves the session alone.
    Its answer is yes exactly when the probe does not fault and one of the
    four indicators fires: a script whose address contains [shopify], a
    generator meta tag whose content contains [Shopify], a [Shopify]
    property of the window (defined, truthy or not), or a link whose
    address contains [shopify]. *)
Theorem shopify_indicators (s : Session) :
  exists b,
    detectShopify s = (Ok b, s) /\
    (b = true <->
     evaluate_fault (current s) PShopify = None /\
     ((exists src, In src (script_srcs (current s)) /\ Js.includes src "shopify" = true) \/
      (exists c, meta_generator (current s) = Some c /\ Js.includes c "Shopify" = true) \/
      (exists v, In ("Shopify", v) (window_props (current s))) \/
      (exists h, In h (link_hrefs (current s)) /\ Js.includes h "shopify" = true))).
Proof.
  exists (isShopify_of (current s)). split; [apply detectShopify_spec|].
  unfold isShopify_of, script_src.
  destruct (evaluate_fault (current s) PShopify) as [msg|].
  - split; [discriminate | intros [H _]; discriminate].
  - rewrite !orb_true_iff, !existsb_exists.
    split.
    + intros H. split; [reflexivity|].
      destruct H as [H|[H|[H|[H|H]]]]; try discriminate.
      * left. exact H.
      * right. left. destruct (meta_generator (current s)) as [c|]; [|discriminate].
        now exists c.
      * right. right. left. destruct H as [[k v] [Hin Hk]].
        cbn [fst] in Hk. apply String.eqb_eq in Hk. subst k. now exists v.
      * right. right. right. exact H.
    + intros [_ [H|[H|[H|H]]]].
      * left. exact H.
      * right. left. destruct H as [c [-> Hc]]. exact Hc.
      * right. right. left. destruct H as [v Hin].
        exists ("Shopify", v). split; [exact Hin | reflexivity].
      * right. right. right. left. exact H.
Qed.

(** ** Selectors that contain one another *)













(** ** The delay between audits *)

